(** * node-net-snmp: the session protocol engine, verified against its code

    A shallow embedding of [src/object-parser.mjs] (value decoding and the
    OID algebra) and of [src/session.mjs] (request registry, GetBulk
    reassembly, report handling, subtree and table feeds), followed by the
    theorems that settle the properties stated for them.

    Conventions of the embedding:
    - a JavaScript number that holds an integer is a [Z]; arithmetic on
      numbers goes through [js_add] and [js_mul], which round to the 53-bit
      significand of an IEEE double ([round53]); magnitudes stay far below
      the overflow threshold of a double in everything modelled here;
    - a number that may be a fraction is a rational where it is only
      stored and compared, and a [Double] where it is multiplied
      ([js_times] rounds as a double does);
    - a string is a [string] of 8-bit characters (OIDs are ASCII);
    - a [Buffer] is a [list byte];
    - a JavaScript object used as a map is a [gmap] of the properties it
      owns; a read that would find a member of [Object.prototype] and a
      write that would land on one have no result in the embedding
      ([inherited_name]);
    - objects that are mutated through several references (the pending
      requests) live in an explicit heap. *)

From Stdlib Require Import ZArith QArith Qpower Ascii String List Bool Lia.
From Stdlib.Strings Require Import Byte.
From stdpp Require Import base option list strings gmap pretty sorting.

Open Scope Z_scope.

(* ===================================================================== *)
(** * JavaScript numbers *)
(* ===================================================================== *)

Module JsNumber.

(** Round to nearest, ties to even, at 53 significant bits: the value an
    IEEE-754 double takes for the exact integer [x]. *)
Definition round53 (x : Z) : Z :=
  let a := Z.abs x in
  if a <? 2 ^ 53 then x
  else
    let e := Z.log2 a - 52 in
    let q := a / 2 ^ e in
    let r := a mod 2 ^ e in
    let h := 2 ^ (e - 1) in
    let q' := if r <? h then q
              else if h <? r then q + 1
              else if Z.even q then q else q + 1 in
    Z.sgn x * (q' * 2 ^ e).

(** [a + b] and [a * b] on numbers. *)
Definition js_add (a b : Z) : Z := round53 (a + b).
Definition js_mul (a b : Z) : Z := round53 (a * b).

(** [x >>> 0]: ToUint32 of an integer. *)
Definition to_uint32 (x : Z) : Z := x mod 2 ^ 32.

(** What a number can be: the rational a finite double stands for, one
    of the two infinities, or NaN. The two zeros are one. *)
Inductive Double :=
  | Finite (q : Q)
  | Infinite (negative : bool)
  | NotANumber.

(** [n / d] rounded to the nearest integer, ties to even, for [0 <= n]
    and [0 < d]. *)
Definition round_half_even (n d : Z) : Z :=
  let q := n / d in
  let r := n mod d in
  if 2 * r <? d then q
  else if d <? 2 * r then q + 1
  else if Z.even q then q else q + 1.

(** The double nearest to the rational [x], ties to even: 53 significant
    bits, exponents from -1074 (the subnormal numbers) to 971, and an
    infinity from 2^1024 on. *)
Definition round_double (x : Q) : Double :=
  let n := Z.abs (Qnum x) in
  let d := Z.pos (Qden x) in
  if n =? 0 then Finite 0
  else
    let k := Z.log2 n - Z.log2 d in
    let above := if 0 <=? k then d * 2 ^ k <=? n else d <=? n * 2 ^ (- k) in
    let e := Z.max ((if above then k else k - 1) - 52) (-1074) in
    let m := if 0 <=? e then round_half_even n (d * 2 ^ e)
             else round_half_even (n * 2 ^ (- e)) d in
    if (0 <=? e) && (2 ^ 1024 <=? m * 2 ^ e) then Infinite (Qnum x <? 0)
    else
      let v := if 0 <=? e then Qmake (m * 2 ^ e) 1 else Qmake m (Z.to_pos (2 ^ (- e))) in
      Finite (Qred (if Qnum x <? 0 then Qopp v else v)).

(** [a * b] for a number [a] and a finite number [b]. *)
Definition js_times (a : Double) (b : Q) : Double :=
  match a with
  | Finite q => round_double (q * b)
  | Infinite negative =>
      if Qnum b =? 0 then NotANumber else Infinite (xorb negative (Qnum b <? 0))
  | NotANumber => NotANumber
  end.

End JsNumber.
Export JsNumber.

(* ===================================================================== *)
(** * Strings *)
(* ===================================================================== *)

Module JsString.

(** [s.charCodeAt(i)] for the character [c] found at [i]. *)
Definition charCode (c : ascii) : Z := Z.of_N (N_of_ascii c).

Definition dot : ascii := "."%char.

(** The characters of [s] from index [i] on. *)
Fixpoint string_drop (i : nat) (s : string) : string :=
  match i, s with
  | O, _ => s
  | S _, EmptyString => EmptyString
  | S i', String _ s' => string_drop i' s'
  end.

(** [s.split('.')]: the pieces between the dots; one piece more than
    there are dots, so the empty string gives one empty piece. *)
Fixpoint split_dot (s : string) : list string :=
  match s with
  | EmptyString => [EmptyString]
  | String c s' =>
      if Ascii.eqb c dot then EmptyString :: split_dot s'
      else match split_dot s' with
           | p :: ps => String c p :: ps
           | [] => [String c EmptyString]
           end
  end.

(** [s.indexOf(p) === 0]. *)
Definition starts_with (p s : string) : bool := String.prefix p s.

(** [s.replace(p, '')] with a string pattern: the first occurrence of [p]
    is removed, and [s] is returned unchanged when there is none. *)
Fixpoint replace_first (p s : string) : string :=
  if String.prefix p s then string_drop (String.length p) s
  else match s with
       | EmptyString => EmptyString
       | String c s' => String c (replace_first p s')
       end.

Definition is_digit (c : ascii) : bool :=
  (48 <=? charCode c) && (charCode c <=? 57).

(** The number a string of decimal digits converts to. *)
Fixpoint decimal_go (acc : Z) (s : string) : Z :=
  match s with
  | EmptyString => acc
  | String c s' => decimal_go (acc * 10 + (charCode c - 48)) s'
  end.

Definition decimal_value (s : string) : Z := decimal_go 0 s.

Fixpoint all_chars (p : ascii -> bool) (s : string) : bool :=
  match s with
  | EmptyString => true
  | String c s' => p c && all_chars p s'
  end.

(** The property names of [Object.prototype]. An object made by [{}] or
    by a literal has them all without owning them: reading one of them,
    where the object has no own property of that name, yields the member
    of the prototype, and a write under ["__proto__"] calls the setter of
    the prototype. *)
Definition Object_prototype_names : list string :=
  ["constructor"; "__defineGetter__"; "__defineSetter__"; "hasOwnProperty";
   "__lookupGetter__"; "__lookupSetter__"; "isPrototypeOf"; "propertyIsEnumerable";
   "toString"; "valueOf"; "__proto__"; "toLocaleString"]%string.

Definition inherited_name (key : string) : bool :=
  existsb (String.eqb key) Object_prototype_names.

End JsString.
Export JsString.

(* ===================================================================== *)
(** * object-parser.mjs: the OID algebra *)
(* ===================================================================== *)

Module OidAlgebra.

(** The cursor objects [{ str, len, idx }] of [oidFollowsOid]. *)
Record Item := mkItem { str : string; len : nat; idx : nat }.

Definition dotCharCode : Z := charCode dot.

(** The [while (item.idx < item.len)] loop of [getNumber]: [rest] is the
    unread part [str.slice(idx)], which is empty exactly when
    [idx = len]; the result is the number and the cursor after the loop. *)
Fixpoint getNumber_scan (rest : string) (i : nat) (n : Z) : Z * nat :=
  match rest with
  | EmptyString => (n, i)
  | String c rest' =>
      let code := charCode c in
      if code =? dotCharCode then (n, S i)
      else getNumber_scan rest' (S i)
             (js_add (if n =? 0 then n else js_mul n 10) (code - 48))
  end.

(** [getNumber(item)]: [None] is [null]; the item is returned with its
    advanced cursor. *)
Definition getNumber (item : Item) : option Z * Item :=
  if (len item <=? idx item)%nat then (None, item)
  else
    let '(n, i) := getNumber_scan (string_drop (idx item) (str item)) (idx item) 0 in
    (Some n, mkItem (str item) (len item) i).

(** The [while (true)] loop; [fuel] bounds the number of rounds and
    [None] is returned only when it runs out. *)
Fixpoint oidFollowsOid_loop (fuel : nat) (oid next : Item) : option bool :=
  match fuel with
  | O => None
  | S fuel' =>
      let '(oidNumber, oid') := getNumber oid in
      let '(nextNumber, next') := getNumber next in
      match oidNumber with
      | Some o =>
          match nextNumber with
          | Some n =>
              if o <? n then Some true
              else if n <? o then Some false
              else oidFollowsOid_loop fuel' oid' next'
          | None => Some true
          end
      | None => Some true
      end
  end.

Definition oidFollowsOid (oidString nextString : string) : option bool :=
  oidFollowsOid_loop (S (String.length oidString))
    (mkItem oidString (String.length oidString) 0)
    (mkItem nextString (String.length nextString) 0).

(** The answer as callers read it; the loop always gives one
    (lemma [oidFollowsOid_total]). *)
Definition follows (oidString nextString : string) : bool :=
  match oidFollowsOid oidString nextString with
  | Some answer => answer
  | None => true
  end.

(** The same loop read on the unread parts of the two cursors alone; the
    proofs go through it. *)

(** The unread part of a cursor. *)
Definition unread (it : Item) : string := string_drop (idx it) (str it).

Definition item_ok (it : Item) : Prop :=
  len it = String.length (str it) /\ (idx it <= len it)%nat.

(** [getNumber] and the loop, on the unread parts alone. *)
Fixpoint scan (rest : string) (n : Z) : Z * string :=
  match rest with
  | EmptyString => (n, EmptyString)
  | String c rest' =>
      if charCode c =? dotCharCode then (n, rest')
      else scan rest' (js_add (if n =? 0 then n else js_mul n 10) (charCode c - 48))
  end.

Fixpoint follows_unread (fuel : nat) (a b : string) : option bool :=
  match fuel with
  | O => None
  | S fuel' =>
      match a, b with
      | EmptyString, _ => Some true
      | _, EmptyString => Some true
      | _, _ =>
          let '(o, a') := scan a 0 in
          let '(n, b') := scan b 0 in
          if o <? n then Some true
          else if n <? o then Some false
          else follows_unread fuel' a' b'
      end
  end.

(** [oidInSubtree(oidString, nextString)]. *)
Fixpoint components_match (oid next : list string) : bool :=
  match oid, next with
  | [], _ => true
  | o :: oid', n :: next' => if String.eqb n o then components_match oid' next' else false
  | _ :: _, [] => false
  end.

Definition oidInSubtree (oidString nextString : string) : bool :=
  let oid := split_dot oidString in
  let next := split_dot nextString in
  if (length next <? length oid)%nat then false
  else components_match oid next.

(** The comparison as the specification words it: components as unsigned
    integers, left to right. *)
Definition oid_components (s : string) : list Z := map decimal_value (split_dot s).

Fixpoint follows_spec (a b : list Z) : bool :=
  match a, b with
  | x :: a', y :: b' =>
      if x <? y then true else if y <? x then false else follows_spec a' b'
  | _, _ => true
  end.

(** A dotted-decimal OID: non-empty groups of digits between single dots,
    each group a number a double holds exactly. *)
Definition is_component (s : string) : bool :=
  negb (String.eqb s EmptyString) && all_chars is_digit s && (decimal_value s <? 2 ^ 53).

Definition dotted_decimal (s : string) : bool := forallb is_component (split_dot s).

(** What the two unread parts stand for while the loop runs: nothing once
    a cursor is exhausted, and otherwise the pieces still to compare. *)
Definition stands_for (s : string) (cs : list string) : Prop :=
  (s = EmptyString /\ cs = []) \/
  (split_dot s = cs /\ forallb is_component cs = true).

End OidAlgebra.
Export OidAlgebra.

(* ===================================================================== *)
(** * object-parser.mjs: decoding protocol values *)
(* ===================================================================== *)

Module ValueCodec.

Definition Buffer : Type := list byte.

Definition byte_val (b : byte) : Z := Z.of_N (Byte.to_N b).

(** [buffer.readUInt32BE(offset)] and [buffer.readInt32BE(offset)];
    [None] is the RangeError raised when fewer than four bytes are left
    at [offset]. *)
Definition readUInt32BE (buffer : Buffer) (offset : nat) : option Z :=
  match drop offset buffer with
  | b0 :: b1 :: b2 :: b3 :: _ =>
      Some (((byte_val b0 * 256 + byte_val b1) * 256 + byte_val b2) * 256 + byte_val b3)
  | _ => None
  end.

Definition readInt32BE (buffer : Buffer) (offset : nat) : option Z :=
  match readUInt32BE buffer offset with
  | Some u => Some (if u <? 2 ^ 31 then u else u - 2 ^ 32)
  | None => None
  end.

(** [while (buffer.length < 8) buffer = Buffer.concat([Buffer([0]), buffer])];
    eight rounds always suffice. *)
Fixpoint pad_loop (rounds : nat) (buffer : Buffer) : Buffer :=
  match rounds with
  | O => buffer
  | S rounds' =>
      if (length buffer <? 8)%nat then pad_loop rounds' (x00 :: buffer) else buffer
  end.

(** [readInt64BEasFloat(buffer, offset)]. *)
Definition readInt64BEasFloat (buffer : Buffer) (offset : nat) : option Z :=
  let buffer := pad_loop 8 buffer in
  match readInt32BE buffer (offset + 4), readInt32BE buffer offset with
  | Some low, Some high =>
      let n := js_add (js_mul high 4294967296) low in
      Some (if low <? 0 then js_add n 4294967296 else n)
  | _, _ => None
  end.

(** The bytes of a buffer read as one big-endian unsigned integer. *)
Definition be_unsigned (buffer : Buffer) : Z :=
  fold_left (fun acc b => acc * 256 + byte_val b) buffer 0.

(** What [buffer.readInt()] of the BER reader handed back: an integer, or
    something [Number.isInteger] rejects ([null], a fraction). *)
Inductive ReadInt :=
  | IntegerRead (parsedInt : Z)
  | NotIntegerRead.

(** The errors thrown by [readInt32] and [readUint32]:
    TypeError 'Value read as integer .. is not an integer',
    RangeError 'Value read as integer .. out of 32-bit range',
    RangeError 'Value read as integer .. out of 32-bit unsigned range'. *)
Inductive ParseError :=
  | NotAnInteger
  | OutOf32BitRange (parsedInt : Z)
  | OutOf32BitUnsignedRange (parsedInt : Z).

Definition readInt32 (read : ReadInt) : ParseError + Z :=
  match read with
  | NotIntegerRead => inl NotAnInteger
  | IntegerRead parsedInt =>
      if (parsedInt <? -2147483648) || (2147483647 <? parsedInt)
      then inl (OutOf32BitRange parsedInt)
      else inr parsedInt
  end.

Definition readUint32 (read : ReadInt) : ParseError + Z :=
  match read with
  | NotIntegerRead => inl NotAnInteger
  | IntegerRead parsedInt =>
      let parseUint := to_uint32 parsedInt in
      if (parseUint <? 0) || (4294967295 <? parseUint)
      then inl (OutOf32BitUnsignedRange parsedInt)
      else inr parseUint
  end.

End ValueCodec.
Export ValueCodec.

(* ===================================================================== *)
(** * constants.mjs and errors.mjs *)
(* ===================================================================== *)

Module Constants.

(** [ObjectType]: the numeric tags, and the name kept under each number. *)
Module ObjectType.
Definition Boolean : Z := 1.
Definition Integer : Z := 2.
Definition BitString : Z := 3.
Definition OctetString : Z := 4.
Definition Null : Z := 5.
Definition OID : Z := 6.
Definition IpAddress : Z := 64.
Definition Counter : Z := 65.
Definition Gauge : Z := 66.
Definition TimeTicks : Z := 67.
Definition Opaque : Z := 68.
Definition Counter64 : Z := 70.
Definition NoSuchObject : Z := 128.
Definition NoSuchInstance : Z := 129.
Definition EndOfMibView : Z := 130.

Definition name (t : Z) : option string :=
  if t =? 1 then Some "Boolean"%string
  else if t =? 2 then Some "Integer"%string
  else if t =? 3 then Some "BitString"%string
  else if t =? 4 then Some "OctetString"%string
  else if t =? 5 then Some "Null"%string
  else if t =? 6 then Some "OID"%string
  else if t =? 64 then Some "IpAddress"%string
  else if t =? 65 then Some "Counter"%string
  else if t =? 66 then Some "Gauge"%string
  else if t =? 67 then Some "TimeTicks"%string
  else if t =? 68 then Some "Opaque"%string
  else if t =? 70 then Some "Counter64"%string
  else if t =? 128 then Some "NoSuchObject"%string
  else if t =? 129 then Some "NoSuchInstance"%string
  else if t =? 130 then Some "EndOfMibView"%string
  else None.
End ObjectType.

Module PduType.
Definition GetRequest : Z := 160.
Definition GetNextRequest : Z := 161.
Definition GetResponse : Z := 162.
Definition SetRequest : Z := 163.
Definition Trap : Z := 164.
Definition GetBulkRequest : Z := 165.
Definition InformRequest : Z := 166.
Definition TrapV2 : Z := 167.
Definition Report : Z := 168.
End PduType.

Module ErrorStatus.
Definition GeneralError : Z := 5.
Definition name (status : Z) : option string :=
  if status =? 0 then Some "NoError"%string
  else if status =? 1 then Some "TooBig"%string
  else if status =? 2 then Some "NoSuchName"%string
  else if status =? 3 then Some "BadValue"%string
  else if status =? 4 then Some "ReadOnly"%string
  else if status =? 5 then Some "GeneralError"%string
  else if status =? 6 then Some "NoAccess"%string
  else if status =? 7 then Some "WrongType"%string
  else if status =? 8 then Some "WrongLength"%string
  else if status =? 9 then Some "WrongEncoding"%string
  else if status =? 10 then Some "WrongValue"%string
  else if status =? 11 then Some "NoCreation"%string
  else if status =? 12 then Some "InconsistentValue"%string
  else if status =? 13 then Some "ResourceUnavailable"%string
  else if status =? 14 then Some "CommitFailed"%string
  else if status =? 15 then Some "UndoFailed"%string
  else if status =? 16 then Some "AuthorizationError"%string
  else if status =? 17 then Some "NotWritable"%string
  else if status =? 18 then Some "InconsistentName"%string
  else None.
End ErrorStatus.

Module ResponseInvalidCode.
Definition EUnknownPduType : Z := 3.
Definition EAuthFailure : Z := 5.
Definition EReqResOidNoMatch : Z := 6.
Definition EOutOfOrder : Z := 8.
Definition EVersionNoMatch : Z := 9.
Definition ECommunityNoMatch : Z := 10.
Definition EUnexpectedReport : Z := 11.
End ResponseInvalidCode.

Definition Version1 : Z := 0.
Definition Version2c : Z := 1.
Definition Version3 : Z := 3.

Definition UsmStatsBase : string := "1.3.6.1.6.3.15.1.1".

(** [UsmStats[key]] for a key made of digits and dots. The reverse
    entries added by [expandConstantObject] sit under the six names,
    which no such key equals. *)
Definition UsmStats (key : string) : option string :=
  if String.eqb key "1" then Some "Unsupported Security Level"%string
  else if String.eqb key "2" then Some "Not In Time Window"%string
  else if String.eqb key "3" then Some "Unknown User Name"%string
  else if String.eqb key "4" then Some "Unknown Engine ID"%string
  else if String.eqb key "5" then Some "Wrong Digest (incorrect password, community or key)"%string
  else if String.eqb key "6" then Some "Decryption Error"%string
  else None.

End Constants.
Export Constants.

Module Errors.

(** The [status] handed to [RequestFailedError]: a number, a string, or
    nothing. *)
Inductive Status :=
  | StatusCode (code : Z)
  | StatusText (text : string)
  | StatusUndefined.

(** The error classes of errors.mjs; [OtherError] is a plain [Error]
    (a transport or codec failure, 'Socket forcibly closed'). A [code] of
    [None] is [undefined]. *)
Inductive Error :=
  | ResponseInvalidError (message : string) (code : option Z)
  | RequestInvalidError (message : string)
  | RequestFailedError (message : string) (status : Status)
  | RequestTimedOutError (message : string)
  | OtherError (message : string).

Definition error_message (e : Error) : string :=
  match e with
  | ResponseInvalidError m _ | RequestInvalidError m | RequestFailedError m _
  | RequestTimedOutError m | OtherError m => m
  end.

End Errors.
Export Errors.

(* ===================================================================== *)
(** * Varbinds *)
(* ===================================================================== *)

Module Varbinds.

(** A decoded value. *)
Inductive Value :=
  | VBuffer (bytes : Buffer)
  | VNumber (n : Z)
  | VString (s : string)
  | VBoolean (b : bool)
  | VNull
  | VUndefined.

(** [{ oid, type, value }]; a request varbind built from an OID alone has
    no type ([None]) and an undefined value. *)
Record Varbind := mkVarbind { oid : string; type : option Z; value : Value }.

Definition request_varbind (o : string) : Varbind := mkVarbind o None VUndefined.

(** [isVarbindError(varbind)]. *)
Definition isVarbindError (varbind : Varbind) : bool :=
  match type varbind with
  | Some t =>
      (t =? ObjectType.NoSuchObject) || (t =? ObjectType.NoSuchInstance)
      || (t =? ObjectType.EndOfMibView)
  | None => false
  end.

(** [varbindError(varbind)]. *)
Definition varbindError (varbind : Varbind) : string :=
  (match type varbind with
   | Some t => default "NotAnError"%string (ObjectType.name t)
   | None => "NotAnError"%string
   end) +:+ ": " +:+ oid varbind.

(** What a response callback is handed on success: a flat varbind list,
    the array [getBulk] assembles (a varbind per non-repeater and a list
    per repeater), a finished table, or nothing at all. *)
Inductive BulkEntry :=
  | Single (varbind : Varbind)
  | Repeated (varbinds : list Varbind).

Inductive ResponseData :=
  | Varbinds (varbinds : list Varbind)
  | Bulk (varbinds : list BulkEntry)
  | NoData.

(** One call [req.responseCb(error)] or [req.responseCb(null, data)]. *)
Inductive Outcome :=
  | Success (data : ResponseData)
  | Failure (error : Error).

(** What running a feed callback amounts to: one call of the response
    callback, or a TypeError escaping it. *)
Inductive FeedResult :=
  | Responded (outcome : Outcome)
  | Thrown.

(** The message of an OID check that failed:
    "OID 'a' in <place> 'i' <verb> OID 'b' in response at position 'j'". *)
Definition oid_message (a place : string) (i : nat) (verb b : string) (j : nat) : string :=
  "OID '" +:+ a +:+ "' in " +:+ place +:+ " '" +:+ pretty i +:+ "' " +:+ verb
  +:+ " OID '" +:+ b +:+ "' in response at position '" +:+ pretty j +:+ "'".

End Varbinds.
Export Varbinds.

(* ===================================================================== *)
(** * session.mjs: the feed callback of getBulk *)
(* ===================================================================== *)

Module BulkReassembler.

(** [a % b] on integers: the sign follows the dividend; [None] is NaN. *)
Definition js_rem (a b : Z) : option Z :=
  if b =? 0 then None else Some (Z.rem a b).

(** [array[i]] for an integer [i]; [None] is [undefined]. *)
Definition at_index {A : Type} (l : list A) (i : Z) : option A :=
  if i <? 0 then None else l !! Z.to_nat i.

Section FeedCb.

(** The variables the closure captures. *)
Variable reportOidMismatchErrors : bool.
Variable backwardsGetNexts : bool.
Variable nonRepeaters : Z.

Definition first_round_entry (i : nat) (varbind : Varbind) : BulkEntry :=
  if Z.of_nat i <? nonRepeaters then Single varbind else Repeated [varbind].

(** The first loop, [for (; i < reqVarbinds.length && i < pdu.varbinds.length; i++)],
    on what is left of both lists from [i] on. *)
Fixpoint first_round (i : nat) (reqRest replyRest : list Varbind)
    (varbinds : list BulkEntry) : Error + (nat * list BulkEntry) :=
  match reqRest, replyRest with
  | rq :: reqRest', rp :: replyRest' =>
      if isVarbindError rp then
        if reportOidMismatchErrors && negb (String.eqb (oid rq) (oid rp)) then
          inl (ResponseInvalidError
                 (oid_message (oid rq) "request at position" i "does not match" (oid rp) i)
                 (Some ResponseInvalidCode.EReqResOidNoMatch))
        else first_round (S i) reqRest' replyRest' (varbinds ++ [first_round_entry i rp])
      else
        if negb backwardsGetNexts && negb (follows (oid rq) (oid rp)) then
          inl (ResponseInvalidError
                 (oid_message (oid rq) "request at positiion" i "does not precede" (oid rp) i)
                 (Some ResponseInvalidCode.EOutOfOrder))
        else first_round (S i) reqRest' replyRest' (varbinds ++ [first_round_entry i rp])
  | _, _ => inr (i, varbinds)
  end.

(** [varbinds[reqIndex].push(varbind)]; [None] is the TypeError raised
    when [varbinds[reqIndex]] is undefined or is not an array. *)
Definition push_at (varbinds : list BulkEntry) (reqIndex : option Z) (varbind : Varbind)
  : option (list BulkEntry) :=
  match reqIndex with
  | None => None
  | Some k =>
      match at_index varbinds k with
      | Some (Repeated l) => Some (<[Z.to_nat k := Repeated (l ++ [varbind])]> varbinds)
      | _ => None
      end
  end.

(** The second loop, [for (; i < pdu.varbinds.length; i++)]; [rest] is
    [pdu.varbinds] from [i] on. *)
Fixpoint later_rounds (reqLen : nat) (replyVarbinds : list Varbind) (i : nat)
    (rest : list Varbind) (varbinds : list BulkEntry) : FeedResult :=
  match rest with
  | [] => Responded (Success (Bulk varbinds))
  | cur :: rest' =>
      let repeaters := Z.of_nat reqLen - nonRepeaters in
      let reqIndex :=
        match js_rem (Z.of_nat i - nonRepeaters) repeaters with
        | Some m => Some (m + nonRepeaters)
        | None => None
        end in
      let prevIndex := Z.of_nat i - repeaters in
      match at_index replyVarbinds prevIndex with
      | None => Thrown
      | Some prev =>
          let prevOid := oid prev in
          if isVarbindError cur then
            if reportOidMismatchErrors && negb (String.eqb prevOid (oid cur)) then
              Responded (Failure (ResponseInvalidError
                (oid_message prevOid "response at position" (Z.to_nat prevIndex)
                   "does not match" (oid cur) i)
                (Some ResponseInvalidCode.EReqResOidNoMatch)))
            else
              match push_at varbinds reqIndex cur with
              | Some varbinds' => later_rounds reqLen replyVarbinds (S i) rest' varbinds'
              | None => Thrown
              end
          else
            if negb backwardsGetNexts && negb (follows prevOid (oid cur)) then
              Responded (Failure (ResponseInvalidError
                (oid_message prevOid "response at positiion" (Z.to_nat prevIndex)
                   "does not precede" (oid cur) i)
                (Some ResponseInvalidCode.EOutOfOrder)))
            else
              match push_at varbinds reqIndex cur with
              | Some varbinds' => later_rounds reqLen replyVarbinds (S i) rest' varbinds'
              | None => Thrown
              end
      end
  end.

(** [feedCb(req, message)] of [getBulk], on [req.message.pdu.varbinds]
    and [message.pdu.varbinds]. *)
Definition getBulk_feedCb (reqVarbinds replyVarbinds : list Varbind) : FeedResult :=
  match first_round 0 reqVarbinds replyVarbinds [] with
  | inl e => Responded (Failure e)
  | inr (i, varbinds) =>
      later_rounds (length reqVarbinds) replyVarbinds i (drop i replyVarbinds) varbinds
  end.

(** The check one reply varbind goes through, against the OID it is
    compared with: an error sentinel is accepted unless strict matching is
    on and the OIDs differ; any other varbind has to follow that OID
    unless backward answers are tolerated. *)
Definition slot_passes (againstOid : string) (varbind : Varbind) : bool :=
  if isVarbindError varbind
  then negb (reportOidMismatchErrors && negb (String.eqb againstOid (oid varbind)))
  else negb (negb backwardsGetNexts && negb (follows againstOid (oid varbind))).

(** Every slot of the reply passes: the first round against the request,
    each later varbind against the one [repeaters] places before it. *)
Definition checks_pass (repeaters : nat) (reqVarbinds replyVarbinds : list Varbind) : Prop :=
  (forall i rq rp, reqVarbinds !! i = Some rq -> replyVarbinds !! i = Some rp ->
     slot_passes (oid rq) rp = true) /\
  (forall i prev cur, (length reqVarbinds <= i)%nat ->
     replyVarbinds !! (i - repeaters)%nat = Some prev -> replyVarbinds !! i = Some cur ->
     slot_passes (oid prev) cur = true).

End FeedCb.

(** What the second loop has built when it stands at index [i]: with
    [nr] non-repeaters and [r] repeaters, slot [j] below [nr] holds
    [reply[j]], and the list in a later slot [j] holds, in order, the
    varbinds [reply[j + k * r]] at the indices that lie below [i]. *)
Definition assembled (nr r : nat) (reply : list Varbind) (n i : nat)
    (varbinds : list BulkEntry) : Prop :=
  length varbinds = n /\
  (forall j, (j < nr)%nat -> varbinds !! j = Single <$> reply !! j) /\
  (forall j, (nr <= j < n)%nat ->
     exists b, varbinds !! j = Some (Repeated b) /\
       forall k, b !! k = if decide (j + k * r < i)%nat then reply !! (j + k * r)%nat else None).

(** The array the callback is to deliver for a reply that covers the
    first round, as the specification words it: [nr] leading varbinds,
    then one list per repeater opened with the first-round varbind of its
    slot and holding every [r]-th later one; the varbind at a later index
    [i] sits in the list of slot [(i - nr) mod r + nr]. *)
Definition delivered_shape (nr : nat) (reqVarbinds replyVarbinds : list Varbind)
    (varbinds : list BulkEntry) : Prop :=
  let r := (length reqVarbinds - nr)%nat in
  length varbinds = length reqVarbinds /\
  (forall j, (j < nr)%nat -> varbinds !! j = Single <$> replyVarbinds !! j) /\
  (forall j, (nr <= j < length reqVarbinds)%nat ->
     exists b, varbinds !! j = Some (Repeated b) /\
       forall k, b !! k = replyVarbinds !! (j + k * r)%nat) /\
  (forall i cur, (length reqVarbinds <= i)%nat -> replyVarbinds !! i = Some cur ->
     exists b, varbinds !! ((i - nr) mod r + nr)%nat = Some (Repeated b) /\
       b !! ((i - nr) / r)%nat = Some cur).

(** A sample varbind: an OctetString decoded to text. *)
Definition text_varbind (o v : string) : Varbind :=
  mkVarbind o (Some ObjectType.OctetString) (VString v).

End BulkReassembler.
Export BulkReassembler.

(* ===================================================================== *)
(** * session.mjs: the feed callbacks of get, getNext, set and inform *)
(* ===================================================================== *)

Module FeedCallbacks.

(** The loop shared by the callbacks of [get], [set] and [inform]: with
    [check] on, a reply OID that differs from the request OID at its
    position fails the response. *)
Fixpoint match_round (check : bool) (place : string) (i : nat)
    (reqRest replyRest : list Varbind) (varbinds : list Varbind) : Outcome :=
  match reqRest, replyRest with
  | rq :: reqRest', rp :: replyRest' =>
      if check && negb (String.eqb (oid rq) (oid rp)) then
        Failure (ResponseInvalidError
                   (oid_message (oid rq) place i "does not match" (oid rp) i)
                   (Some ResponseInvalidCode.EReqResOidNoMatch))
      else match_round check place (S i) reqRest' replyRest' (varbinds ++ [rp])
  | _, _ => Success (Varbinds varbinds)
  end.

Definition get_feedCb (reportOidMismatchErrors : bool)
    (reqVarbinds replyVarbinds : list Varbind) : FeedResult :=
  if negb (length reqVarbinds =? length replyVarbinds)%nat then
    Responded (Failure (ResponseInvalidError "Requested OIDs do not match response OIDs"
                          (Some ResponseInvalidCode.EReqResOidNoMatch)))
  else Responded (match_round reportOidMismatchErrors "request at position" 0
                    reqVarbinds replyVarbinds []).

Definition set_feedCb (reportOidMismatchErrors : bool)
    (reqVarbinds replyVarbinds : list Varbind) : FeedResult :=
  get_feedCb reportOidMismatchErrors reqVarbinds replyVarbinds.

Definition inform_feedCb (reqVarbinds replyVarbinds : list Varbind) : FeedResult :=
  if negb (length reqVarbinds =? length replyVarbinds)%nat then
    Responded (Failure (ResponseInvalidError "Inform OIDs do not match response OIDs"
                          (Some ResponseInvalidCode.EReqResOidNoMatch)))
  else Responded (match_round true "inform at positiion" 0 reqVarbinds replyVarbinds []).

(** The loop of the callback of [getNext]; the code it puts on an
    out-of-order answer, [ResponseInvalidCode.OutOfOrder], is undefined. *)
Fixpoint next_round (backwardsGetNexts : bool) (i : nat)
    (reqRest replyRest : list Varbind) (varbinds : list Varbind) : Outcome :=
  match reqRest, replyRest with
  | rq :: reqRest', rp :: replyRest' =>
      if isVarbindError rp then
        next_round backwardsGetNexts (S i) reqRest' replyRest' (varbinds ++ [rp])
      else if negb backwardsGetNexts && negb (follows (oid rq) (oid rp)) then
        Failure (ResponseInvalidError
                   (oid_message (oid rq) "request at positiion" i "does not precede" (oid rp) i)
                   None)
      else next_round backwardsGetNexts (S i) reqRest' replyRest' (varbinds ++ [rp])
  | _, _ => Success (Varbinds varbinds)
  end.

Definition getNext_feedCb (backwardsGetNexts : bool)
    (reqVarbinds replyVarbinds : list Varbind) : FeedResult :=
  if negb (length reqVarbinds =? length replyVarbinds)%nat then
    Responded (Failure (ResponseInvalidError "Requested OIDs do not match response OIDs"
                          (Some ResponseInvalidCode.EReqResOidNoMatch)))
  else Responded (next_round backwardsGetNexts 0 reqVarbinds replyVarbinds []).

(** The feed callbacks a request can carry, each with the variables its
    closure captured. *)
Inductive FeedCb :=
  | GetFeed (reportOidMismatchErrors : bool)
  | GetBulkFeed (reportOidMismatchErrors backwardsGetNexts : bool) (nonRepeaters : Z)
  | GetNextFeed (backwardsGetNexts : bool)
  | SetFeed (reportOidMismatchErrors : bool)
  | InformFeed.

Definition run_feedCb (feedCb : FeedCb) (reqVarbinds replyVarbinds : list Varbind)
  : FeedResult :=
  match feedCb with
  | GetFeed report => get_feedCb report reqVarbinds replyVarbinds
  | GetBulkFeed report backwards nonRepeaters =>
      getBulk_feedCb report backwards nonRepeaters reqVarbinds replyVarbinds
  | GetNextFeed backwards => getNext_feedCb backwards reqVarbinds replyVarbinds
  | SetFeed report => set_feedCb report reqVarbinds replyVarbinds
  | InformFeed => inform_feedCb reqVarbinds replyVarbinds
  end.

End FeedCallbacks.
Export FeedCallbacks.

(* ===================================================================== *)
(** * session.mjs: the feed callbacks of subtree and table *)
(* ===================================================================== *)

Module SubtreeFeed.

(** [array.pop()]: the array without its last element. *)
Definition pop {A : Type} (l : list A) : list A := take (length l - 1) l.

(** The loop [for (let i = varbinds.length; i > 0; i--)] of [subtreeCb];
    [None] is the
    TypeError of reading [.oid] of an undefined [varbinds[i - 1]]. *)
Fixpoint subtreeCb_loop (baseOid : string) (i : nat) (done : bool)
    (varbinds : list Varbind) : option (bool * list Varbind) :=
  match i with
  | O => Some (done, varbinds)
  | S i' =>
      match varbinds !! i' with
      | None => None
      | Some varbind =>
          if negb (oidInSubtree baseOid (oid varbind))
          then subtreeCb_loop baseOid i' true (pop varbinds)
          else subtreeCb_loop baseOid i' done varbinds
      end
  end.

(** What one call of [subtreeCb] did: the array handed to [req.feedCb],
    if the call was made, and whether [true] was returned (the walk stops)
    rather than [undefined]. *)
Record SubtreeResult := mkSubtreeResult {
  fed : option (list Varbind);
  stop : bool
}.

(** [subtreeCb(req, varbinds)]; [feedCb] gives the truth value of what the
    caller's feed callback returns for an array. *)
Definition subtreeCb (feedCb : list Varbind -> bool) (baseOid : string)
    (varbinds : list Varbind) : option SubtreeResult :=
  match subtreeCb_loop baseOid (length varbinds) false varbinds with
  | None => None
  | Some (done, varbinds') =>
      if (0 <? length varbinds')%nat
      then Some (mkSubtreeResult (Some varbinds') (if feedCb varbinds' then true else done))
      else Some (mkSubtreeResult None done)
  end.

(** The varbinds of a batch that lie in the subtree of [baseOid]. *)
Definition in_subtree (baseOid : string) (varbinds : list Varbind) : list Varbind :=
  List.filter (fun varbind => oidInSubtree baseOid (oid varbind)) varbinds.

(** How many varbinds of a batch lie outside the subtree. *)
Definition outside_count (baseOid : string) (varbinds : list Varbind) : nat :=
  length (List.filter (fun varbind => negb (oidInSubtree baseOid (oid varbind))) varbinds).

End SubtreeFeed.
Export SubtreeFeed.

Module TableBuilder.

(** One entry of [tableOptions.Columns]; [enum], where given, is an
    object made by a literal, held as its own properties. *)
Record ColumnInfo := mkColumnInfo {
  col_name : option string;
  col_type : option string;
  col_enum : option (gmap string string)
}.

(** The [req] object the table callbacks share: [table] holds the own
    properties of [req.table], a row key mapped to the own properties of
    the row object, [error] is [req.error]. *)
Record TableReq := mkTableReq {
  baseOid : string;
  rowOid : string;
  maxRepetitions : Z;
  columns : gmap string ColumnInfo;
  table : gmap string (gmap string Value);
  error : option Error
}.

(** The [req] that [table(BaseOID, ...)] starts from. *)
Definition table_req (BaseOID : string) (Columns : gmap string ColumnInfo)
    (maxRepetitions : Z) : TableReq :=
  mkTableReq BaseOID (BaseOID +:+ ".1.") maxRepetitions Columns ∅ None.

(** A property holding a string, read for its truth value: an absent
    property and the empty string are falsy. *)
Definition truthy (o : option string) : option string :=
  match o with
  | Some s => if String.eqb s EmptyString then None else Some s
  | None => None
  end.

(** The longest prefix of digits, and what follows it. *)
Fixpoint span_digits (s : string) : string * string :=
  match s with
  | EmptyString => (EmptyString, EmptyString)
  | String c s' =>
      if is_digit c
      then let '(d, rest) := span_digits s' in (String c d, rest)
      else (EmptyString, s)
  end.

Definition is_line_terminator (c : ascii) : bool :=
  (charCode c =? 10) || (charCode c =? 13).

Definition no_line_terminator (c : ascii) : bool := negb (is_line_terminator c).

(** [oid.match(/^(\d+)\.(.+)$/)]: the two groups of a match. *)
Definition match_column_row (s : string) : option (string * string) :=
  let '(d, rest) := span_digits s in
  if String.eqb d EmptyString then None
  else match rest with
       | String c suffix =>
           if Ascii.eqb c dot && negb (String.eqb suffix EmptyString)
              && all_chars no_line_terminator suffix
           then Some (d, suffix)
           else None
       | EmptyString => None
       end.

(** [if (!table[row]) table[row] = {}; table[row][key] = v] on the own
    properties of [table] and of its rows. [None] where the statement
    leaves them: for a row key that names no own property of [table] but
    a member of [Object.prototype], [table[row]] is that member, so that
    no row is made and the write lands on the member; and a write under
    the key ["__proto__"] calls the setter of the prototype of the row. *)
Definition write_cell (cells : gmap string (gmap string Value)) (row key : string)
    (v : Value) : option (gmap string (gmap string Value)) :=
  if String.eqb key "__proto__" then None
  else match cells !! row with
       | Some r => Some (<[row := <[key := v]> r]> cells)
       | None =>
           if inherited_name row then None
           else Some (<[row := <[key := v]> ∅]> cells)
       end.

Section Feed.

(** The conversions of the host: [value.toString()],
    [value.toString('hex')] ([None] when the call raises a TypeError) and
    the property key a value is turned into. *)
Variable toString : Value -> option Value.
Variable toString_hex : Value -> option Value.
Variable property_key : Value -> string.

(** The [switch (colInfo.type)] that yields [thisValue]. [None] is a
    TypeError, or, for an enum, a value whose key names no own property of
    [colInfo.enum] but a member of [Object.prototype]: the read
    [colInfo.enum[value]] then yields that member, which no [Value] is. *)
Definition coerce (colInfo : option ColumnInfo) (value : Value) : option Value :=
  match colInfo with
  | None => Some value
  | Some info =>
      match truthy (col_type info) with
      | None => Some value
      | Some t =>
          if String.eqb t "string" then toString value
          else if String.eqb t "hex" then toString_hex value
          else if String.eqb t "uint64" then
            match value with
            | VBuffer bytes =>
                match readInt64BEasFloat bytes 0 with
                | Some n => Some (VNumber n)
                | None => None
                end
            | _ => None
            end
          else if String.eqb t "enum" then
            match col_enum info with
            | Some labels =>
                match labels !! property_key value with
                | None => if inherited_name (property_key value) then None else Some value
                | own =>
                    match truthy own with
                    | Some label => Some (VString label)
                    | None => Some value
                    end
                end
            | None => Some value
            end
          else Some value
      end
  end.

(** [colName]. *)
Definition column_key (colInfo : option ColumnInfo) (col : string) : string :=
  match colInfo with
  | Some info => default col (truthy (col_name info))
  | None => col
  end.

Definition set_error (req : TableReq) (e : Error) : TableReq :=
  mkTableReq (baseOid req) (rowOid req) (maxRepetitions req) (columns req) (table req) (Some e).

(** [if (!req.table[row]) req.table[row] = {}; req.table[row][key] = v]. *)
Definition set_cell (req : TableReq) (row key : string) (v : Value) : option TableReq :=
  match write_cell (table req) row key v with
  | Some cells =>
      Some (mkTableReq (baseOid req) (rowOid req) (maxRepetitions req) (columns req)
              cells (error req))
  | None => None
  end.

(** The body of the loop of [tableFeedCb] for one varbind: whether the
    callback returns [true] here, and the [req] it leaves; [None] is a
    TypeError, or one of the reads and writes that [coerce] and
    [write_cell] leave out. *)
Definition tableFeedCb_body (req : TableReq) (varbind : Varbind) : option (bool * TableReq) :=
  if isVarbindError varbind then
    Some (true, set_error req (RequestFailedError (varbindError varbind) StatusUndefined))
  else
    let oid' := replace_first (rowOid req) (oid varbind) in
    if negb (String.eqb oid' EmptyString) && negb (String.eqb oid' (oid varbind)) then
      match match_column_row oid' with
      | Some (col, row) =>
          if 0 <? decimal_value col then
            let colInfo := columns req !! col in
            match coerce colInfo (value varbind) with
            | Some thisValue =>
                match set_cell req row (column_key colInfo col) thisValue with
                | Some req' => Some (false, req')
                | None => None
                end
            | None => None
            end
          else Some (false, req)
      | None => Some (false, req)
      end
    else Some (false, req).

(** [tableFeedCb(req, varbinds)]. *)
Fixpoint tableFeedCb (req : TableReq) (varbinds : list Varbind) : option (bool * TableReq) :=
  match varbinds with
  | [] => Some (false, req)
  | varbind :: rest =>
      match tableFeedCb_body req varbind with
      | Some (false, req') => tableFeedCb req' rest
      | other => other
      end
  end.

End Feed.

End TableBuilder.
Export TableBuilder.

(* ===================================================================== *)
(** * session.mjs: the session *)
(* ===================================================================== *)

Module SessionEngine.

(** ** Messages *)

Record SecurityParameters := mkSecurityParameters {
  msgAuthoritativeEngineID : string;
  msgAuthoritativeEngineBoots : Z;
  msgAuthoritativeEngineTime : Z;
  msgUserName : option string;
  msgAuthenticationParameters : option string;
  msgPrivacyParameters : option string
}.

Record Pdu := mkPdu {
  pdu_type : Z;
  pdu_id : Z;
  pdu_varbinds : list Varbind;
  errorStatus : Z;
  errorIndex : Z;
  contextName : string
}.

(** A message; [reqId] is what [getReqId()] returns, [msgSecurity] is
    [msgSecurityParameters] (absent on a community message). *)
Record Message := mkMessage {
  version : Z;
  community : option string;
  reqId : Z;
  pdu : Pdu;
  msgSecurity : option SecurityParameters
}.

(** Modelled from the spec: the Codec and Security Provider of the legacy
    index.js (section 6): [message.toBuffer()], which may throw;
    [message.processIncomingSecurity(user, responseCb)], which on failure
    calls [responseCb] with an error and returns false ([Some error]);
    [Message.createRequestV3(user, msgSecurityParameters, pdu)]. *)
Record Codec := mkCodec {
  toBuffer : Message -> Error + Buffer;
  processIncomingSecurity : Message -> option string -> option Error;
  createRequestV3 : option string -> option SecurityParameters -> Pdu -> Message
}.

(** ** Pending requests *)

(** Modelled from the spec: the pending-request record [Req] of the
    legacy index.js (section 3): the built message, the feed callback, the
    response callback (named by a number), the retries left, the current
    timeout and the backoff factor, the destination port, the original
    PDU and the allow-report flag of a v3 request, and the timer handle.
    Its id is the id of its message. The timeout, which is multiplied
    at every registration, is a [Double]; the backoff factor is a finite
    number, held as the rational it stands for. *)
Record Req := mkReq {
  message : Message;
  feedCb : FeedCb;
  responseCb : nat;
  retries : Z;
  timeout : Double;
  backoff : Q;
  port : Z;
  originalPdu : option Pdu;
  allowReport : bool;
  timer : option nat
}.

Definition getId (req : Req) : Z := reqId (message req).

Definition set_retries (v : Z) (req : Req) : Req :=
  mkReq (message req) (feedCb req) (responseCb req) v (timeout req) (backoff req)
    (port req) (originalPdu req) (allowReport req) (timer req).

Definition set_timeout (v : Double) (req : Req) : Req :=
  mkReq (message req) (feedCb req) (responseCb req) (retries req) v (backoff req)
    (port req) (originalPdu req) (allowReport req) (timer req).

Definition set_timer (v : option nat) (req : Req) : Req :=
  mkReq (message req) (feedCb req) (responseCb req) (retries req) (timeout req) (backoff req)
    (port req) (originalPdu req) (allowReport req) v.

(** ** The session object and what surrounds it *)

Record Proxy := mkProxy { proxy_user_name : string; proxy_context : string }.

(** The fields the constructor fixes. [proxy] is never set by the Session
    class itself. *)
Record Config := mkConfig {
  session_version : Z;
  session_user : option string;
  session_community : option string;
  session_port : Z;
  session_trapPort : Z;
  session_retries : Z;
  session_timeout : Q;
  session_backoff : Q;
  session_context : string;
  proxy : option Proxy
}.

(** What a handler does to the outside: a call of a response callback,
    a datagram handed to the socket, an event emitted, a message or an
    error handed to the proxy, an exception that leaves the handler. *)
Inductive Effect :=
  | Called (callback : nat) (outcome : Outcome)
  | DgramSend (buffer : Buffer) (toPort : Z)
  | Emitted (event : string) (error : option Error)
  | ProxySend (forwarded : Message)
  | ProxyCallback (error : Error)
  | Uncaught.

(** The session with its surroundings. [reqs] maps a request id to the
    request object registered under it, and [reqs_order] lists the ids
    [reqs] has a property for in the order in which the properties were
    created, which an object keeps and [for ... in] goes by. [heap] holds
    the request objects, which the registry, the timers and the pending
    sends all refer to. [dgram_refd] tells whether the socket is ref'd, [timers]
    holds the armed timers with the request each closes over, [sends]
    the calls of [dgram.send] whose callback is still to run (with their
    [noWait]) and [log] what has been done to the outside so far. *)
Record Session := mkSession {
  config : Config;
  msgSecurityParameters : option SecurityParameters;
  reqs : gmap Z nat;
  reqs_order : list Z;
  reqCount : Z;
  dgram_refd : bool;
  heap : gmap nat Req;
  timers : gmap nat nat;
  timer_seq : nat;
  sends : list (nat * bool);
  log : list Effect
}.

Definition set_msgSecurityParameters (v : option SecurityParameters) (s : Session) : Session :=
  mkSession (config s) v (reqs s) (reqs_order s) (reqCount s) (dgram_refd s) (heap s) (timers s)
    (timer_seq s) (sends s) (log s).

Definition set_reqs (v : gmap Z nat) (s : Session) : Session :=
  mkSession (config s) (msgSecurityParameters s) v (reqs_order s) (reqCount s) (dgram_refd s)
    (heap s) (timers s) (timer_seq s) (sends s) (log s).

Definition set_reqs_order (v : list Z) (s : Session) : Session :=
  mkSession (config s) (msgSecurityParameters s) (reqs s) v (reqCount s) (dgram_refd s)
    (heap s) (timers s) (timer_seq s) (sends s) (log s).

Definition set_reqCount (v : Z) (s : Session) : Session :=
  mkSession (config s) (msgSecurityParameters s) (reqs s) (reqs_order s) v (dgram_refd s)
    (heap s) (timers s) (timer_seq s) (sends s) (log s).

Definition set_dgram_refd (v : bool) (s : Session) : Session :=
  mkSession (config s) (msgSecurityParameters s) (reqs s) (reqs_order s) (reqCount s) v (heap s)
    (timers s) (timer_seq s) (sends s) (log s).

Definition set_heap (v : gmap nat Req) (s : Session) : Session :=
  mkSession (config s) (msgSecurityParameters s) (reqs s) (reqs_order s) (reqCount s)
    (dgram_refd s) v (timers s) (timer_seq s) (sends s) (log s).

Definition set_timers (v : gmap nat nat) (s : Session) : Session :=
  mkSession (config s) (msgSecurityParameters s) (reqs s) (reqs_order s) (reqCount s) (dgram_refd s)
    (heap s) v (timer_seq s) (sends s) (log s).

Definition set_timer_seq (v : nat) (s : Session) : Session :=
  mkSession (config s) (msgSecurityParameters s) (reqs s) (reqs_order s) (reqCount s) (dgram_refd s)
    (heap s) (timers s) v (sends s) (log s).

Definition set_sends (v : list (nat * bool)) (s : Session) : Session :=
  mkSession (config s) (msgSecurityParameters s) (reqs s) (reqs_order s) (reqCount s) (dgram_refd s)
    (heap s) (timers s) (timer_seq s) v (log s).

Definition add_log (e : Effect) (s : Session) : Session :=
  mkSession (config s) (msgSecurityParameters s) (reqs s) (reqs_order s) (reqCount s) (dgram_refd s)
    (heap s) (timers s) (timer_seq s) (sends s) (log s ++ [e]).

(** The constructor: no request, a count of 0, and the socket unref'd
    ([this.dgram.unref()]); [objects] are the request objects around. *)
Definition new_Session (cfg : Config) (objects : gmap nat Req) : Session :=
  mkSession cfg None ∅ [] 0 false objects ∅ 0 [] [].

(** [req.responseCb(...)]. *)
Definition respond (req : Req) (outcome : Outcome) (s : Session) : Session :=
  add_log (Called (responseCb req) outcome) s.

(** ** The registry *)

(** [registerRequest(req)], for the request object at [l]. *)
Definition registerRequest (s : Session) (l : nat) : Session :=
  match heap s !! l with
  | None => s
  | Some req =>
      let s1 :=
        match reqs s !! getId req with
        | None =>
            set_reqCount (reqCount s + 1)
              (set_dgram_refd (if reqCount s <=? 0 then true else dgram_refd s)
                 (set_reqs (<[getId req := l]> (reqs s))
                    (set_reqs_order (reqs_order s ++ [getId req]) s)))
        | Some _ => s
        end in
      let h := timer_seq s1 in
      let req' :=
        set_timeout (if Qle_bool 1 (backoff req) then js_times (timeout req) (backoff req)
                     else timeout req)
          (set_timer (Some h) req) in
      set_heap (<[l := req']> (heap s1))
        (set_timer_seq (S h) (set_timers (<[h := l]> (timers s1)) s1))
  end.

(** [unregisterRequest(id)]: the session afterwards and the request
    object found, if any. *)
Definition unregisterRequest (s : Session) (id : Z) : Session * option nat :=
  match reqs s !! id with
  | Some l =>
      let armed := match heap s !! l with Some req => timer req | None => None end in
      let s1 := set_reqs (delete id (reqs s))
                  (set_reqs_order (List.filter (fun id' => negb (id' =? id)) (reqs_order s))
                     s) in
      let s2 := match armed with
                | Some h => set_timers (delete h (timers s1)) s1
                | None => s1
                end in
      let s3 := set_heap (alter (set_timer None) l (heap s2)) s2 in
      let s4 := set_reqCount (reqCount s3 - 1) s3 in
      let s5 := if reqCount s4 <=? 0 then set_dgram_refd false s4 else s4 in
      (s5, Some l)
  | None => (s, None)
  end.

Section WithCodec.

Variable codec : Codec.

(** [send(req, noWait)]: the datagram goes to the socket and the callback
    given to [dgram.send] is left to run later; an exception of
    [toBuffer] is handed to the response callback. *)
Definition send (s : Session) (l : nat) (noWait : bool) : Session :=
  match heap s !! l with
  | None => s
  | Some req =>
      match toBuffer codec (message req) with
      | inr buffer =>
          set_sends (sends s ++ [(l, noWait)]) (add_log (DgramSend buffer (port req)) s)
      | inl error => respond req (Failure error) s
      end
  end.

(** The callback given to [dgram.send], for the [k]-th pending send. *)
Definition send_completed (s : Session) (k : nat) (error : option Error) : Session :=
  match sends s !! k with
  | None => s
  | Some pending =>
      let l : nat := fst pending in
      let noWait : bool := snd pending in
      let s1 := set_sends (delete k (sends s)) s in
      match heap s1 !! l with
      | None => s1
      | Some req =>
          match error with
          | Some e => respond req (Failure e) s1
          | None =>
              if noWait then respond req (Success NoData) s1
              else registerRequest s1 l
          end
      end
  end.

(** The callback given to [setTimeout] in [registerRequest], for the
    timer [h]; a timer that was cleared or has fired does nothing. *)
Definition timer_fired (s : Session) (h : nat) : Session :=
  match timers s !! h with
  | None => s
  | Some l =>
      let s1 := set_timers (delete h (timers s)) s in
      match heap s1 !! l with
      | None => s1
      | Some req =>
          let s2 := set_heap (<[l := set_retries (retries req - 1) req]> (heap s1)) s1 in
          if 0 <? retries req then send s2 l false
          else
            respond req (Failure (RequestTimedOutError "Request timed out"))
              (fst (unregisterRequest s2 (getId req)))
      end
  end.

(** Whether the property name of an id is an array index: a whole
    number from 0 to 2^32 - 2. *)
Definition index_id (id : Z) : bool := (0 <=? id) && (id <=? 4294967294).

(** The ids of the registry in the order [for (const id in this.reqs)]
    visits them: those that are array indices in ascending order, then
    the others in the order in which their properties were created. *)
Definition registered_ids (s : Session) : list Z :=
  merge_sort Z.le (List.filter index_id (reqs_order s))
  ++ List.filter (fun id => negb (index_id id)) (reqs_order s).

(** [cancelRequests(error)]: [for (const id in this.reqs)] visits the ids
    in the order of [registered_ids] and skips those deleted meanwhile. *)
Definition cancel_one (error : Error) (s : Session) (id : Z) : Session :=
  match reqs s !! id with
  | None => s
  | Some l =>
      match heap s !! l with
      | None => s
      | Some req => respond req (Failure error) (fst (unregisterRequest s (getId req)))
      end
  end.

Definition cancelRequests (s : Session) (error : Error) : Session :=
  fold_left (cancel_one error) (registered_ids s) s.

(** [onClose()]. *)
Definition onClose (s : Session) : Session :=
  add_log (Emitted "close" None) (cancelRequests s (OtherError "Socket forcibly closed")).

(** ** Replies *)

(** [onSimpleGetResponse(req, message)], the [onResponse] of every
    request. *)
Definition onSimpleGetResponse (s : Session) (req : Req) (reply : Message) : Session :=
  let p := pdu reply in
  if 0 <? errorStatus p then
    let '(statusString, statusCode) :=
      match ErrorStatus.name (errorStatus p) with
      | Some name => (name, StatusCode (errorStatus p))
      | None => (pretty ErrorStatus.GeneralError, StatusText "GeneralError")
      end in
    if (errorIndex p <=? 0) || (Z.of_nat (length (pdu_varbinds p)) <? errorIndex p) then
      respond req (Failure (RequestFailedError statusString statusCode)) s
    else
      match pdu_varbinds p !! Z.to_nat (errorIndex p - 1) with
      | Some varbind =>
          respond req (Failure (RequestFailedError (statusString +:+ ": " +:+ oid varbind)
                                  statusCode)) s
      | None => add_log Uncaught s
      end
  else
    match run_feedCb (feedCb req) (pdu_varbinds (pdu (message req))) (pdu_varbinds p) with
    | Responded outcome => respond req outcome s
    | Thrown => add_log Uncaught s
    end.

(** [/\.0$/] replaced by the empty string. *)
Fixpoint strip_dot_zero (s : string) : string :=
  match s with
  | EmptyString => EmptyString
  | String c s' =>
      if Ascii.eqb c dot && String.eqb s' "0" then EmptyString
      else String c (strip_dot_zero s')
  end.

Definition usm_suffix (o : string) : string :=
  strip_dot_zero (replace_first (UsmStatsBase +:+ ".") o).

(** [userSecurityModelError(req, oid)]. *)
Definition userSecurityModelError (s : Session) (req : Req) (o : string) : Session :=
  let errorType := default "Unexpected Report PDU"%string (UsmStats (usm_suffix o)) in
  respond req (Failure (ResponseInvalidError errorType
                          (Some ResponseInvalidCode.EAuthFailure))) s.

(** [new Req(this, message, feedCb, responseCb, options)] followed by the
    assignments of [sendV3Req], and [send] of the new object. *)
Definition sendV3Req (s : Session) (p : Pdu) (f : FeedCb) (cb : nat) (toPort : Z)
    (allow : bool) : Session :=
  let m := createRequestV3 codec (session_user (config s)) (msgSecurityParameters s) p in
  let req := mkReq m f cb (session_retries (config s)) (Finite (session_timeout (config s)))
               (session_backoff (config s)) toPort (Some p) allow None in
  let l := fresh (dom (heap s)) in
  send (set_heap (<[l := req]> (heap s)) s) l false.

(** [onProxyResponse(req, message)]. *)
Definition onProxyResponse (s : Session) (req : Req) (reply : Message) : Session :=
  if negb (version reply =? Version3) then
    add_log (ProxyCallback (RequestFailedError "Only SNMP version 3 contexts are supported"
                              StatusUndefined)) s
  else add_log (ProxySend reply) s.

Definition show_community (c : option string) : string := default "undefined"%string c.

Definition set_contextName (v : string) (p : Pdu) : Pdu :=
  mkPdu (pdu_type p) (pdu_id p) (pdu_varbinds p) (errorStatus p) (errorIndex p) v.

(** The branch of [onMsg] taken for a Report PDU. *)
Definition onReport (s : Session) (req : Req) (reply : Message) : Session :=
  match msgSecurity reply with
  | None => add_log Uncaught s
  | Some sp =>
      let fresh_params :=
        mkSecurityParameters (msgAuthoritativeEngineID sp) (msgAuthoritativeEngineBoots sp)
          (msgAuthoritativeEngineTime sp) None None None in
      match proxy (config s) with
      | Some px =>
          set_msgSecurityParameters
            (Some (mkSecurityParameters (msgAuthoritativeEngineID sp)
                     (msgAuthoritativeEngineBoots sp) (msgAuthoritativeEngineTime sp)
                     (Some (proxy_user_name px)) (Some EmptyString) (Some EmptyString))) s
      | None =>
          let s1 := set_msgSecurityParameters (Some fresh_params) s in
          match originalPdu req, allowReport req with
          | Some original, true =>
              let timeSyncNeeded :=
                (msgAuthoritativeEngineBoots sp =? 0) && (msgAuthoritativeEngineTime sp =? 0) in
              sendV3Req s1 (set_contextName (session_context (config s1)) original)
                (feedCb req) (responseCb req) (port req) timeSyncNeeded
          | _, _ =>
              match pdu_varbinds (pdu reply) with
              | first :: _ =>
                  if starts_with UsmStatsBase (oid first)
                  then userSecurityModelError s1 req (oid first)
                  else respond req (Failure (ResponseInvalidError "Unexpected Report PDU"
                                               (Some ResponseInvalidCode.EUnexpectedReport))) s1
              | [] => respond req (Failure (ResponseInvalidError "Unexpected Report PDU"
                                              (Some ResponseInvalidCode.EUnexpectedReport))) s1
              end
          end
      end
  end.

(** [onMsg(buffer)], on what [Message.createFromBuffer(buffer)] gave: a
    message, or the error it threw. *)
Definition onMsg (s : Session) (decoded : Error + Message) : Session :=
  match decoded with
  | inl error => add_log (Emitted "error" (Some error)) s
  | inr reply =>
      match unregisterRequest s (reqId reply) with
      | (s1, None) => s1
      | (s1, Some l) =>
          match heap s1 !! l with
          | None => s1
          | Some req =>
              match processIncomingSecurity codec reply (session_user (config s1)) with
              | Some error => respond req (Failure error) s1
              | None =>
                  if negb (version reply =? version (message req)) then
                    respond req (Failure (ResponseInvalidError
                      ("Version in request '" +:+ pretty (version (message req))
                       +:+ "' does not match version in response '"
                       +:+ pretty (version reply) +:+ "'")
                      (Some ResponseInvalidCode.EVersionNoMatch))) s1
                  else if negb (bool_decide (community reply = community (message req))) then
                    respond req (Failure (ResponseInvalidError
                      ("Community '" +:+ show_community (community (message req))
                       +:+ "' in request does not match community '"
                       +:+ show_community (community reply) +:+ "' in response")
                      (Some ResponseInvalidCode.ECommunityNoMatch))) s1
                  else if pdu_type (pdu reply) =? PduType.Report then onReport s1 req reply
                  else if bool_decide (is_Some (proxy (config s1))) then
                    onProxyResponse s1 req reply
                  else if pdu_type (pdu reply) =? PduType.GetResponse then
                    onSimpleGetResponse s1 req reply
                  else
                    respond req (Failure (ResponseInvalidError
                      ("Unknown PDU type '" +:+ pretty (pdu_type (pdu reply))
                       +:+ "' in response")
                      (Some ResponseInvalidCode.EUnknownPduType))) s1
              end
          end
      end
  end.

(** ** The events the handlers are driven by *)

Inductive Event :=
  | SendCompleted (k : nat) (error : option Error)
  | TimerFired (h : nat)
  | Datagram (decoded : Error + Message)
  | SocketClosed.

Definition handle (s : Session) (ev : Event) : Session :=
  match ev with
  | SendCompleted k error => send_completed s k error
  | TimerFired h => timer_fired s h
  | Datagram decoded => onMsg s decoded
  | SocketClosed => onClose s
  end.

Definition run (s : Session) (evs : list Event) : Session := fold_left handle evs s.

End WithCodec.

(** The calls of the registry alone. *)
Inductive RegistryCall :=
  | Register (l : nat)
  | Unregister (id : Z).

Definition registry_call (s : Session) (c : RegistryCall) : Session :=
  match c with
  | Register l => registerRequest s l
  | Unregister id => fst (unregisterRequest s id)
  end.

(** The session after a sequence of registry calls on a fresh session. *)
Definition after_calls (cfg : Config) (objects : gmap nat Req)
    (calls : list RegistryCall) : Session :=
  fold_left registry_call calls (new_Session cfg objects).

(** What the registry keeps true: the count is the number of registered
    requests, and the socket is ref'd exactly when the count is positive. *)
Definition registry_inv (s : Session) : Prop :=
  reqCount s = Z.of_nat (size (reqs s)) /\ dgram_refd s = (0 <? reqCount s).

(** What reaches the session: a call of [send] on a request object (by
    [simpleGet], [sendV3Req], [sendV3Discovery] or [trap]), or an event. *)
Inductive Action :=
  | CallSend (l : nat) (noWait : bool)
  | Occurs (ev : Event).

Definition act (codec : Codec) (s : Session) (a : Action) : Session :=
  match a with
  | CallSend l noWait => send codec s l noWait
  | Occurs ev => handle codec s ev
  end.

(** The session a fresh one becomes under a sequence of actions. *)
Definition reached (codec : Codec) (cfg : Config) (objects : gmap nat Req)
    (actions : list Action) : Session :=
  fold_left (act codec) actions (new_Session cfg objects).

(** The request object at [l] carries a message that [toBuffer] encodes. *)
Definition encodes (codec : Codec) (h : gmap nat Req) (l : nat) : Prop :=
  exists req buffer, h !! l = Some req /\ toBuffer codec (message req) = inr buffer.

(** Every request a pending send or the registry refers to was encoded
    by [send] before. *)
Definition sent_inv (codec : Codec) (s : Session) : Prop :=
  Forall (fun pending => encodes codec (heap s) (fst pending)) (sends s) /\
  map_Forall (fun _ l => encodes codec (heap s) l) (reqs s).

(** The outcomes a response callback was called with, in order. *)
Definition delivered (callback : nat) (effects : list Effect) : list Outcome :=
  omap (fun e => match e with
                 | Called cb outcome => if (cb =? callback)%nat then Some outcome else None
                 | _ => None
                 end) effects.

(** ** Sample values *)

(** A codec that encodes every message to the empty buffer and accepts
    every reply; a v2c session with one retry; a get request with id 7
    and its reply. *)
Definition sample_codec : Codec :=
  mkCodec (fun _ => inr []) (fun _ _ => None)
    (fun _ params p => mkMessage Version3 None (pdu_id p) p params).

Definition sample_config : Config :=
  mkConfig Version2c None (Some "public"%string) 161 162 1 (5000 # 1) (1 # 1)
    EmptyString None.

Definition sample_message (type : Z) (varbinds : list Varbind) : Message :=
  mkMessage Version2c (Some "public"%string) 7 (mkPdu type 7 varbinds 0 0 EmptyString) None.

Definition sample_request (tries : Z) : Req :=
  mkReq (sample_message PduType.GetRequest [request_varbind "1.3.6.1.2.1.1.5.0"])
    (GetFeed false) 0 tries (Finite (5000 # 1)) (1 # 1) 161 None false None.

Definition sample_reply : Message :=
  sample_message PduType.GetResponse [text_varbind "1.3.6.1.2.1.1.5.0" "host"].





(** The sample request with one retry, sent for the first time on a
    fresh session. *)
Definition sample_sent : Session :=
  send sample_codec (new_Session sample_config {[0%nat := sample_request 1]}) 0 false.

End SessionEngine.
Export SessionEngine.

(* ===================================================================== *)
(** * object-parser.mjs: decoding the value of a varbind *)
(* ===================================================================== *)

Module VarbindDecoding.

(** What the calls on the BER reader give where the value starts; [None]
    is an exception raised by the reader. [readString_buffer] is
    [readString(ObjectType.OctetString, true)], which gives a Buffer or
    [null]. *)
Record BerReader := mkBerReader {
  readBoolean : option Value;
  readInt : option ReadInt;
  readString : option Value;
  readString_buffer : option (option Buffer);
  readNull : option Value;
  readOID : option Value
}.

(** What the reader made over an Opaque value gives after its first
    [readSequence(ObjectType.OctetString)]: the result of the second
    [readSequence()] ([None]: not a number), of [readLength()] ([None]:
    [null]), and [reader.buffer] and [reader.offset] as they are then. *)
Record TauReader := mkTauReader {
  firstTau : option Z;
  sizeLen : option nat;
  reader_buffer : Buffer;
  reader_offset : nat
}.

(** The ways [readVarbindValue] ends without a value: an exception of a
    reader, an error of [readInt32] or [readUint32], the Error
    'IPv4 address length not equal to 4', the Error
    'Unknown Opaque TAU type', the TypeError 'Unknown ObjectType <type>',
    the TypeError of reading [.length] of [null], the RangeError of
    [readInt32BE]. *)
Inductive DecodeError :=
  | ReaderRaised
  | ParseFailed (e : ParseError)
  | Ipv4Length
  | UnknownTau
  | UnknownObjectType (type : Z)
  | NullDereferenced
  | BufferRangeError.

(** [buffer.slice(start, end)] for [0 <= start]. *)
Definition slice (buffer : Buffer) (first last : nat) : Buffer :=
  take (last - first) (drop first buffer).

Definition from_reader (read : option Value) : DecodeError + Value :=
  match read with
  | Some v => inr v
  | None => inl ReaderRaised
  end.

Definition number_from (read : option ReadInt) (parse : ReadInt -> ParseError + Z)
  : DecodeError + Value :=
  match read with
  | None => inl ReaderRaised
  | Some r =>
      match parse r with
      | inl e => inl (ParseFailed e)
      | inr n => inr (VNumber n)
      end
  end.

Definition float_from (buffer : Buffer) (offset : nat) : DecodeError + Value :=
  match readInt64BEasFloat buffer offset with
  | Some n => inr (VNumber n)
  | None => inl BufferRangeError
  end.

(** [readVarbindValue(buffer, type)]; [opaque] is
    [new (require('asn1-ber').Ber).Reader(opaqueBuffer)] followed by its
    reads, [None] when one of them raises (or [require] itself, where the
    module system has none). *)
Definition readVarbindValue (reader : BerReader)
    (opaque : option Buffer -> option TauReader) (type : Z) : DecodeError + Value :=
  if type =? ObjectType.Boolean then from_reader (readBoolean reader)
  else if type =? ObjectType.Integer then number_from (readInt reader) readInt32
  else if type =? ObjectType.OctetString then from_reader (readString reader)
  else if type =? ObjectType.Null then from_reader (readNull reader)
  else if type =? ObjectType.OID then from_reader (readOID reader)
  else if type =? ObjectType.IpAddress then
    match readString_buffer reader with
    | None => inl ReaderRaised
    | Some None => inl NullDereferenced
    | Some (Some bytes) =>
        if negb (length bytes =? 4)%nat then inl Ipv4Length else inr (VBuffer bytes)
    end
  else if type =? ObjectType.Counter then number_from (readInt reader) readUint32
  else if type =? ObjectType.Gauge then number_from (readInt reader) readUint32
  else if type =? ObjectType.TimeTicks then number_from (readInt reader) readUint32
  else if type =? ObjectType.Opaque then
    match readString_buffer reader with
    | None => inl ReaderRaised
    | Some opaqueBuffer =>
        match opaque opaqueBuffer with
        | None => inl ReaderRaised
        | Some tau =>
            if bool_decide (firstTau tau = Some 9) then
              let size := default 0%nat (sizeLen tau) in
              float_from (slice (reader_buffer tau) (reader_offset tau)
                            (reader_offset tau + size)) 0
            else inl UnknownTau
        end
    end
  else if type =? ObjectType.Counter64 then
    match readString_buffer reader with
    | None => inl ReaderRaised
    | Some None => inl NullDereferenced
    | Some (Some buf) => float_from buf (Nat.max 0 (length buf - 8))
    end
  else if (type =? ObjectType.NoSuchObject) || (type =? ObjectType.NoSuchInstance)
          || (type =? ObjectType.EndOfMibView) then from_reader (readNull reader)
  else inl (UnknownObjectType type).

(** The last eight bytes of a buffer, or all of it when it is shorter. *)
Definition last_eight (buffer : Buffer) : Buffer := drop (length buffer - 8) buffer.

(** The types [readVarbindValue] has a branch for. *)
Definition decoded_types : list Z :=
  [ObjectType.Boolean; ObjectType.Integer; ObjectType.OctetString; ObjectType.Null;
   ObjectType.OID; ObjectType.IpAddress; ObjectType.Counter; ObjectType.Gauge;
   ObjectType.TimeTicks; ObjectType.Opaque; ObjectType.Counter64;
   ObjectType.NoSuchObject; ObjectType.NoSuchInstance; ObjectType.EndOfMibView].

End VarbindDecoding.
Export VarbindDecoding.

(* ===================================================================== *)
(** * Dotted strings put together again *)
(* ===================================================================== *)

Module DottedStrings.

(** [pieces.join('.')]. *)
Fixpoint join_dot (pieces : list string) : string :=
  match pieces with
  | [] => EmptyString
  | [p] => p
  | p :: rest => p +:+ String dot (join_dot rest)
  end.

Fixpoint has_dot (s : string) : bool :=
  match s with
  | EmptyString => false
  | String c s' => Ascii.eqb c dot || has_dot s'
  end.

End DottedStrings.
Export DottedStrings.

(* ===================================================================== *)
(** * What the feed callbacks let through *)
(* ===================================================================== *)

Module FeedChecks.


End FeedChecks.
Export FeedChecks.

(* ===================================================================== *)
(** * session.mjs: the other callbacks of table and tableColumns *)
(* ===================================================================== *)

Module TableCallbacks.

(** What the response callback of a table request is called with. *)
Inductive TableOutcome :=
  | TableDelivered (cells : gmap string (gmap string Value))
  | TableFailed (e : Error).

(** [tableResponseCb(req, error)]: the call of [req.responseCb]. *)
Definition tableResponseCb (req : TableReq) (walkError : option Error) : TableOutcome :=
  match walkError with
  | Some e => TableFailed e
  | None =>
      match error req with
      | Some e => TableFailed e
      | None => TableDelivered (table req)
      end
  end.

(** [table[row][key]]. *)
Definition cell (cells : gmap string (gmap string Value)) (row key : string) : option Value :=
  match cells !! row with
  | Some r => r !! key
  | None => None
  end.

(** The [req] object of [tableColumns]: [columns] is the array of the
    columns still to walk, each as the text it adds to [rowOid]. *)
Record ColumnsReq := mkColumnsReq {
  c_baseOid : string;
  c_rowOid : string;
  c_maxRepetitions : Z;
  c_columns : list string;
  c_table : gmap string (gmap string Value);
  c_error : option Error
}.

Definition c_set_error (req : ColumnsReq) (e : Error) : ColumnsReq :=
  mkColumnsReq (c_baseOid req) (c_rowOid req) (c_maxRepetitions req) (c_columns req)
    (c_table req) (Some e).

(** [if (!req.table[row]) req.table[row] = {}; req.table[row][key] = v]. *)
Definition c_set_cell (req : ColumnsReq) (row key : string) (v : Value) : option ColumnsReq :=
  match write_cell (c_table req) row key v with
  | Some cells =>
      Some (mkColumnsReq (c_baseOid req) (c_rowOid req) (c_maxRepetitions req) (c_columns req)
              cells (c_error req))
  | None => None
  end.

(** The body of the loop of [tableColumnsFeedCb] for one varbind; [None]
    is a write that [write_cell] leaves out. *)
Definition tableColumnsFeedCb_body (req : ColumnsReq) (varbind : Varbind)
  : option (bool * ColumnsReq) :=
  if isVarbindError varbind then
    Some (true, c_set_error req (RequestFailedError (varbindError varbind) StatusUndefined))
  else
    let oid' := replace_first (c_rowOid req) (oid varbind) in
    if negb (String.eqb oid' EmptyString) && negb (String.eqb oid' (oid varbind)) then
      match match_column_row oid' with
      | Some (col, row) =>
          if 0 <? decimal_value col
          then match c_set_cell req row col (value varbind) with
               | Some req' => Some (false, req')
               | None => None
               end
          else Some (false, req)
      | None => Some (false, req)
      end
    else Some (false, req).

(** [tableColumnsFeedCb(req, varbinds)]: whether [true] is returned, and
    the [req] it leaves. *)
Fixpoint tableColumnsFeedCb (req : ColumnsReq) (varbinds : list Varbind)
  : option (bool * ColumnsReq) :=
  match varbinds with
  | [] => Some (false, req)
  | varbind :: rest =>
      match tableColumnsFeedCb_body req varbind with
      | Some (false, req') => tableColumnsFeedCb req' rest
      | other => other
      end
  end.

(** Whether an OID holds the text [p] somewhere. *)
Definition occurs_in (p s : string) : Prop :=
  exists before after, s = before +:+ p +:+ after.

End TableCallbacks.
Export TableCallbacks.

(* ===================================================================== *)
(** * session.mjs: what every reached session keeps true *)
(* ===================================================================== *)

Module SessionInvariants.

(** Every registry entry is filed under the id of its request. *)
Definition keyed (s : Session) : Prop :=
  map_Forall (fun id l => exists req, heap s !! l = Some req /\ getId req = id) (reqs s).

(** The armed timers were all handed out before the next handle. *)
Definition timers_fresh (s : Session) : Prop :=
  forall h l, timers s !! h = Some l -> (h < timer_seq s)%nat.

(** The order of creation lists the ids of the registry, each once. *)
Definition ordered (s : Session) : Prop :=
  NoDup (reqs_order s) /\ forall id, id ∈ reqs_order s <-> is_Some (reqs s !! id).

Definition well_formed (s : Session) : Prop :=
  registry_inv s /\ keyed s /\ timers_fresh s /\ ordered s.

(** A step that leaves the registry alone: the entries, their order, the
    count and the state of the socket are as before, every request
    object keeps its message, and no timer is added. *)
Definition same_registry (s s' : Session) : Prop :=
  (reqs s' = reqs s /\ reqs_order s' = reqs_order s) /\
  reqCount s' = reqCount s /\ dgram_refd s' = dgram_refd s /\
  (forall l req, heap s !! l = Some req ->
     exists req', heap s' !! l = Some req' /\ message req' = message req /\
                  responseCb req' = responseCb req) /\
  (forall h l, timers s' !! h = Some l -> timers s !! h = Some l) /\
  (timer_seq s <= timer_seq s')%nat.

(** The response callback of the request registered under [id]. *)
Definition callback_of (s : Session) (id : Z) : option nat :=
  match reqs s !! id with
  | Some l => responseCb <$> heap s !! l
  | None => None
  end.

(** The sample request under another id and with another response
    callback. *)
Definition sample_request_with (id : Z) (callback : nat) : Req :=
  mkReq (mkMessage Version2c (Some "public"%string) id
           (mkPdu PduType.GetRequest id [request_varbind "1.3.6.1.2.1.1.5.0"] 0 0 EmptyString)
           None)
    (GetFeed false) callback 1 (Finite (5000 # 1)) (1 # 1) 161 None false None.

(** The request [registerRequest] leaves after being called [k] times
    for the request object at [l]. *)
Definition registered_times (k : nat) (l : nat) (s : Session) : Session :=
  Nat.iter k (fun s' => registerRequest s' l) s.

End SessionInvariants.
Export SessionInvariants.

(* ===================================================================== *)
(** * constants.mjs: the constant objects and their reverse entries *)
(* ===================================================================== *)

Module ConstantTables.

(** What a property of a constant object holds: a string or a number
    ([JNaN] is NaN). *)
Inductive JsValue :=
  | JString (s : string)
  | JNumber (n : Z)
  | JNaN.

#[global] Instance JsValue_eq_dec : EqDecision JsValue.
Proof. solve_decision. Defined.

(** An object: its own properties in the order they were created, each
    key once. *)
Definition JsObject : Type := list (string * JsValue).

(** The own property [key] of [object], which is what [object[key]]
    reads for a key the object owns; [None] is no such property. *)
Fixpoint obj_get (object : JsObject) (key : string) : option JsValue :=
  match object with
  | [] => None
  | (k, v) :: rest => if String.eqb k key then Some v else obj_get rest key
  end.

(** The own property [key] set to [v]: a property that exists keeps its
    place, a new one comes last. *)
Fixpoint obj_put (object : JsObject) (key : string) (v : JsValue) : JsObject :=
  match object with
  | [] => [(key, v)]
  | (k, x) :: rest =>
      if String.eqb k key then (k, v) :: rest else (k, x) :: obj_put rest key v
  end.

(** [object[key] = v]. Under ['__proto__'], for an object that does not
    own that key, the write goes to the setter of the prototype, which
    drops a string or a number: the object stays as it is. *)
Definition obj_set (object : JsObject) (key : string) (v : JsValue) : JsObject :=
  match obj_get object key with
  | None => if String.eqb key "__proto__" then object else obj_put object key v
  | Some _ => obj_put object key v
  end.

(** An array index: the canonical numeral of an integer below 2^32 - 1. *)
Definition is_array_index (key : string) : bool :=
  match key with
  | EmptyString => false
  | String c rest =>
      all_chars is_digit key
      && (String.eqb rest EmptyString || negb (Ascii.eqb c "0"))
      && (decimal_value key <=? 4294967294)
  end.

(** The order of two array indices. *)
Definition index_le (a b : string) : Prop := decimal_value a <= decimal_value b.

#[global] Instance index_le_dec (a b : string) : Decision (index_le a b) :=
  decide (decimal_value a <= decimal_value b).

(** The keys in the order [for (const key in object)] visits them: the
    array indices in ascending order, then the other keys in the order of
    their creation. *)
Definition own_keys (object : JsObject) : list string :=
  let keys := map fst object in
  merge_sort index_le (List.filter is_array_index keys)
  ++ List.filter (fun key => negb (is_array_index key)) keys.

(** White space that [parseInt] skips, among the 8-bit characters. *)
Definition is_space (c : ascii) : bool :=
  let code := charCode c in
  ((9 <=? code) && (code <=? 13)) || (code =? 32) || (code =? 160).

Fixpoint skip_spaces (s : string) : string :=
  match s with
  | EmptyString => EmptyString
  | String c rest => if is_space c then skip_spaces rest else s
  end.

(** [parseInt(key, 10)]: white space is skipped, a sign is taken, and the
    digits that follow are read; without a digit the result is NaN. *)
Definition parseInt10 (key : string) : JsValue :=
  let s := skip_spaces key in
  let '(negative, s) :=
    match s with
    | String "-" rest => (true, rest)
    | String "+" rest => (false, rest)
    | _ => (false, s)
    end in
  let '(digits, _) := span_digits s in
  if String.eqb digits EmptyString then JNaN
  else JNumber (round53 (if negative : bool then - decimal_value digits
                         else decimal_value digits)).

(** The property key a value is turned into. A number of 10^21 or more
    is written with an exponent, which is not embedded ([None]). *)
Definition to_key (v : option JsValue) : option string :=
  match v with
  | Some (JString s) => Some s
  | Some (JNumber n) => if Z.abs n <? 10 ^ 21 then Some (pretty n) else None
  | Some JNaN => Some "NaN"%string
  | None => Some "undefined"%string
  end.

(** One round of the second loop:
    [object[object[keys[i]]] = parseInt(keys[i], 10)]. *)
Definition expand_step (object : option JsObject) (key : string) : option JsObject :=
  match object with
  | None => None
  | Some o =>
      match to_key (obj_get o key) with
      | Some name => Some (obj_set o name (parseInt10 key))
      | None => None
      end
  end.

(** [expandConstantObject(object)]: the object as the call leaves it. *)
Definition expandConstantObject (object : JsObject) : option JsObject :=
  fold_left expand_step (own_keys object) (Some object).

(** A key made of digits that stands for a number a double holds
    exactly. *)
Definition numeral_key (key : string) : bool :=
  negb (String.eqb key EmptyString) && all_chars is_digit key
  && (decimal_value key <? 2 ^ 53).

(** An entry of a table of names: a numeral as the key and, as the
    value, a string that is no key of the table and not ['__proto__']. *)
Definition names_a_number (keys : list string) (entry : string * JsValue) : bool :=
  numeral_key (fst entry)
  && match snd entry with
     | JString name =>
         negb (existsb (String.eqb name) keys) && negb (String.eqb name "__proto__")
     | _ => false
     end.

(** What the second loop has done to [table] once it went through the
    keys [done]: the entries are kept, the names of the keys gone through
    hold their numbers, and nothing else was added. *)
Definition expanded_over (table : JsObject) (done : list string) (o : JsObject) : Prop :=
  (forall key v, obj_get table key = Some v -> obj_get o key = Some v) /\
  (forall k name, k ∈ done -> obj_get table k = Some (JString name) ->
     obj_get o name = Some (JNumber (decimal_value k))) /\
  (forall key, is_Some (obj_get o key) ->
     is_Some (obj_get table key) \/
     exists k, k ∈ done /\ obj_get table k = Some (JString key)).

(** The literal [UsmStats] of constants.mjs. *)
Definition UsmStats_literal : JsObject :=
  [("1", JString "Unsupported Security Level");
   ("2", JString "Not In Time Window");
   ("3", JString "Unknown User Name");
   ("4", JString "Unknown Engine ID");
   ("5", JString "Wrong Digest (incorrect password, community or key)");
   ("6", JString "Decryption Error")]%string.

End ConstantTables.
Export ConstantTables.

(* ===================================================================== *)
(** * session.mjs: making a session *)
(* ===================================================================== *)

Module SessionSetup.

(** The options the constructor reads for the fields embedded here;
    [None] is a property that is absent. The options left out (transport,
    sourceAddress, sourcePort, idBitsSize, engineID) set fields that
    nothing embedded reads; what they make the calls of the constructor
    do is the [thrown] of [construct]. *)
Record Options := mkOptions {
  opt_version : option Z;
  opt_port : option Z;
  opt_trapPort : option Z;
  opt_retries : option Z;
  opt_timeout : option Q;
  opt_backoff : option Q;
  opt_context : option string;
  opt_backwardsGetNexts : option bool;
  opt_reportOidMismatchErrors : option bool
}.

Definition no_options : Options :=
  mkOptions None None None None None None None None None.

(** [Object.assign({}, options, { version })]. *)
Definition with_version (v : Z) (options : Options) : Options :=
  mkOptions (Some v) (opt_port options) (opt_trapPort options) (opt_retries options)
    (opt_timeout options) (opt_backoff options) (opt_context options)
    (opt_backwardsGetNexts options) (opt_reportOidMismatchErrors options).

(** A number read for its truth value: an absent property and 0 are
    falsy. *)
Definition nonzero (n : option Z) : option Z :=
  match n with
  | Some v => if v =? 0 then None else Some v
  | None => None
  end.

Definition nonzeroQ (q : option Q) : option Q :=
  match q with
  | Some v => if Qeq_bool v 0 then None else Some v
  | None => None
  end.

(** The fields the constructor sets: those of [Config], and the two
    flags the feed callbacks capture. *)
Record Constructed := mkConstructed {
  settings : Config;
  flag_backwardsGetNexts : bool;
  flag_reportOidMismatchErrors : bool
}.

(** The fields [new Session(target, authenticator, options)] sets. *)
Definition Session_constructor (authenticator : option string) (options : Options)
  : Constructed :=
  let version := default Version1 (nonzero (opt_version options)) in
  mkConstructed
    (mkConfig version
       (if version =? Version3 then authenticator else None)
       (if version =? Version3 then None
        else Some (default "public"%string (truthy authenticator)))
       (default 161 (nonzero (opt_port options)))
       (default 162 (nonzero (opt_trapPort options)))
       (match opt_retries options with Some r => r | None => 1 end)
       (default (5000 # 1) (nonzeroQ (opt_timeout options)))
       (match opt_backoff options with
        | Some b => if Qle_bool 1 b then b else 1%Q
        | None => 1%Q
        end)
       (default EmptyString (truthy (opt_context options)))
       None)
    (default true (opt_backwardsGetNexts options))
    (default false (opt_reportOidMismatchErrors options)).

(** [new Session(target, authenticator, options)] as an expression.
    Once the fields are set, the constructor calls [new Engine],
    [dgram.createSocket] (which throws for a transport it does not know)
    and, for a source address or port, [dgram.bind]; [thrown] is the
    exception that one of these calls raises, if any, and [inl] is the
    error thrown. *)
Definition construct (thrown : option Error) (authenticator : option string)
    (options : Options) : Error + Constructed :=
  match thrown with
  | Some e => inl e
  | None => inr (Session_constructor authenticator options)
  end.

(** [Session.create(target, community, options)]; [inl] is the error
    thrown. *)
Definition create (thrown : option Error) (community : option string)
    (options : option Options) : Error + Constructed :=
  let version :=
    match options with
    | Some o => default Version1 (nonzero (opt_version o))
    | None => Version1
    end in
  if negb (version =? Version1) && negb (version =? Version2c) then
    inl (ResponseInvalidError
           ("SNMP community session requested but version '" +:+ pretty version
            +:+ "' specified in options not valid")
           (Some ResponseInvalidCode.EVersionNoMatch))
  else construct thrown community (with_version version (default no_options options)).

(** [Session.createV3(target, user, options)]. *)
Definition createV3 (thrown : option Error) (user : option string)
    (options : option Options) : Error + Constructed :=
  let refused :=
    match options with
    | Some o =>
        match nonzero (opt_version o) with
        | Some v => negb (v =? Version3)
        | None => false
        end
    | None => false
    end in
  if refused then
    inl (ResponseInvalidError
           "SNMP v3 session requested but a different version was specified in options"
           (Some ResponseInvalidCode.EVersionNoMatch))
  else construct thrown user (with_version Version3 (default no_options options)).

End SessionSetup.
Export SessionSetup.

(* ===================================================================== *)
(** * Theorems *)
(* ===================================================================== *)

Example oidFollowsOid_ex1 : oidFollowsOid "1.3.6.1.2" "1.3.6.1.3" = Some true.
Proof. reflexivity. Qed.
Example oidFollowsOid_ex2 : oidFollowsOid "1.3.6.1.3" "1.3.6.1.2" = Some false.
Proof. reflexivity. Qed.
Example oidInSubtree_ex1 : oidInSubtree "1.3.6.1.2.1.1" "1.3.6.1.2.1.1.3.0" = true.
Proof. reflexivity. Qed.
Example oidInSubtree_ex2 : oidInSubtree "1.3.6.1.2.1.1" "1.3.6.1.2.1.2.0" = false.
Proof. reflexivity. Qed.
Example split_dot_ex : split_dot "1.3..6." = ["1"; "3"; ""; "6"; ""]%string.
Proof. reflexivity. Qed.

(** ** Numbers *)

Lemma round53_exact x : Z.abs x < 2 ^ 53 -> round53 x = x.
Proof.
  intros Hx. unfold round53.
  destruct (Z.ltb_spec (Z.abs x) (2 ^ 53)); [reflexivity | lia].
Qed.

Lemma js_add_exact a b : Z.abs (a + b) < 2 ^ 53 -> js_add a b = a + b.
Proof. apply round53_exact. Qed.

Lemma js_mul_exact a b : Z.abs (a * b) < 2 ^ 53 -> js_mul a b = a * b.
Proof. apply round53_exact. Qed.

(** ** The OID algebra *)

Section OidFollows.

Lemma string_drop_length i s :
  String.length (string_drop i s) = (String.length s - i)%nat.
Proof.
  revert s; induction i as [|i IH]; intros [|c s]; simpl; auto with lia.
Qed.

Lemma string_drop_step i s c r :
  string_drop i s = String c r -> string_drop (S i) s = r.
Proof.
  revert s; induction i as [|i IH]; intros [|c' s] H; simpl in *; try discriminate.
  - congruence.
  - destruct i; simpl in *; [destruct s; congruence|].
    destruct s as [|c'' s]; [discriminate|]. apply (IH (String c'' s)). exact H.
Qed.

Lemma string_drop_all s : string_drop (String.length s) s = EmptyString.
Proof. induction s; simpl; auto. Qed.

Lemma getNumber_scan_unread s rest i n :
  string_drop i s = rest -> (i <= String.length s)%nat ->
  let '(v, i') := getNumber_scan rest i n in
  v = fst (scan rest n) /\ string_drop i' s = snd (scan rest n) /\
  (i' <= String.length s)%nat.
Proof.
  revert i n; induction rest as [|c rest IH]; intros i n Hd Hi; simpl.
  - auto.
  - pose proof (string_drop_step _ _ _ _ Hd) as Hs.
    pose proof (string_drop_length i s) as Hl. rewrite Hd in Hl. simpl in Hl.
    destruct (charCode c =? dotCharCode).
    + split; [reflexivity|]. split; [exact Hs|]. lia.
    + apply IH; [exact Hs | lia].
Qed.

Lemma scan_shorter rest n :
  rest <> EmptyString ->
  (String.length (snd (scan rest n)) < String.length rest)%nat.
Proof.
  intros Hne. destruct rest as [|c rest]; [congruence|]. clear Hne.
  simpl. destruct (charCode c =? dotCharCode); simpl; [lia|].
  generalize (js_add (if n =? 0 then n else js_mul n 10) (charCode c - 48)).
  induction rest as [|c' rest IH]; intros m; simpl; [lia|].
  destruct (charCode c' =? dotCharCode); simpl; [lia|].
  specialize (IH (js_add (if m =? 0 then m else js_mul m 10) (charCode c' - 48))). lia.
Qed.

Lemma unread_empty it :
  item_ok it -> ((len it <=? idx it)%nat = true <-> unread it = EmptyString).
Proof.
  intros [Hl Hi]. unfold unread.
  pose proof (string_drop_length (idx it) (str it)) as Hd.
  rewrite Nat.leb_le. split; intros H.
  - destruct (string_drop (idx it) (str it)); [reflexivity|]. simpl in Hd. lia.
  - rewrite H in Hd. simpl in Hd. lia.
Qed.

Lemma getNumber_unread it :
  item_ok it ->
  match unread it with
  | EmptyString => getNumber it = (None, it)
  | _ => exists it', getNumber it = (Some (fst (scan (unread it) 0)), it') /\
                     item_ok it' /\ unread it' = snd (scan (unread it) 0)
  end.
Proof.
  intros Hok. pose proof (unread_empty it Hok) as He. unfold getNumber.
  destruct (unread it) as [|c r] eqn:Hu.
  - destruct (len it <=? idx it)%nat; [reflexivity|].
    destruct He as [_ He]. specialize (He eq_refl). discriminate.
  - destruct (len it <=? idx it)%nat eqn:Hle.
    + destruct He as [He _]. specialize (He eq_refl). discriminate.
    + destruct Hok as [Hl Hi].
      pose proof (getNumber_scan_unread (str it) (String c r) (idx it) 0 Hu) as Hs.
      fold (unread it). rewrite Hu.
      destruct (getNumber_scan (String c r) (idx it) 0) as [v i'].
      destruct Hs as (Hv & Hd & Hi'); [lia|].
      eexists. split; [rewrite Hv; reflexivity|].
      split; [split; simpl; lia|]. exact Hd.
Qed.

Lemma oidFollowsOid_loop_unread fuel oid next :
  item_ok oid -> item_ok next ->
  oidFollowsOid_loop fuel oid next = follows_unread fuel (unread oid) (unread next).
Proof.
  revert oid next; induction fuel as [|fuel IH]; intros oid next Ho Hn; [reflexivity|].
  simpl. pose proof (getNumber_unread oid Ho) as Go.
  pose proof (getNumber_unread next Hn) as Gn.
  destruct (unread oid) as [|co ro] eqn:Huo.
  - rewrite Go. destruct (getNumber next); reflexivity.
  - destruct Go as (oid' & -> & Ho' & Huo').
    destruct (unread next) as [|cn rn] eqn:Hun.
    + rewrite Gn. reflexivity.
    + destruct Gn as (next' & -> & Hn' & Hun').
      destruct (scan (String co ro) 0) as [o a'] eqn:Ea.
      destruct (scan (String cn rn) 0) as [n b'] eqn:Eb.
      simpl fst in *. simpl snd in *.
      destruct (o <? n); [reflexivity|]. destruct (n <? o); [reflexivity|].
      rewrite IH by assumption. rewrite Huo', Hun'. reflexivity.
Qed.

Lemma oidFollowsOid_unread a b :
  oidFollowsOid a b = follows_unread (S (String.length a)) a b.
Proof.
  unfold oidFollowsOid. rewrite oidFollowsOid_loop_unread.
  - reflexivity.
  - split; simpl; lia.
  - split; simpl; lia.
Qed.

Lemma follows_unread_total fuel a b :
  (String.length a < fuel)%nat -> exists r, follows_unread fuel a b = Some r.
Proof.
  revert a b; induction fuel as [|fuel IH]; intros a b Hf; [lia|].
  simpl. destruct a as [|ca ra]; [eauto|]. destruct b as [|cb rb]; [eauto|].
  destruct (scan (String ca ra) 0) as [o a'] eqn:Ea.
  destruct (scan (String cb rb) 0) as [n b'] eqn:Eb.
  destruct (o <? n); [eauto|]. destruct (n <? o); [eauto|].
  apply IH. pose proof (scan_shorter (String ca ra) 0 ltac:(discriminate)) as Hs.
  rewrite Ea in Hs. simpl in *. lia.
Qed.

Lemma follows_unread_refl fuel a :
  (String.length a < fuel)%nat -> follows_unread fuel a a = Some true.
Proof.
  revert a; induction fuel as [|fuel IH]; intros a Hf; [lia|].
  simpl. destruct a as [|ca ra]; [reflexivity|].
  destruct (scan (String ca ra) 0) as [o a'] eqn:Ea.
  rewrite Z.ltb_irrefl. apply IH.
  pose proof (scan_shorter (String ca ra) 0 ltac:(discriminate)) as Hs.
  rewrite Ea in Hs. simpl in *. lia.
Qed.

(** The loop always reaches an answer within its bound. *)
Lemma oidFollowsOid_total a b : exists r, oidFollowsOid a b = Some r.
Proof. rewrite oidFollowsOid_unread. apply follows_unread_total. lia. Qed.

Lemma split_dot_nonempty s : split_dot s <> [].
Proof.
  destruct s as [|c s]; simpl; [discriminate|].
  destruct (Ascii.eqb c dot); [discriminate|].
  destruct (split_dot s); discriminate.
Qed.

Lemma charCode_inj c d : charCode c = charCode d -> c = d.
Proof.
  unfold charCode. intros H. apply N2Z.inj in H.
  rewrite <- (ascii_N_embedding c), <- (ascii_N_embedding d). congruence.
Qed.

Lemma charCode_dot c : (charCode c =? dotCharCode) = Ascii.eqb c dot.
Proof.
  destruct (Ascii.eqb_spec c dot) as [->|Hne].
  - apply Z.eqb_refl.
  - apply Z.eqb_neq. intros H. apply Hne. apply charCode_inj. exact H.
Qed.

Lemma is_digit_range c : is_digit c = true -> 0 <= charCode c - 48 <= 9.
Proof. unfold is_digit. rewrite andb_true_iff, !Z.leb_le. lia. Qed.

Lemma decimal_go_mono p n :
  all_chars is_digit p = true -> 0 <= n -> n <= decimal_go n p.
Proof.
  revert n; induction p as [|c p IH]; intros n Hd Hn; simpl in *; [lia|].
  apply andb_true_iff in Hd as [Hc Hp]. apply is_digit_range in Hc.
  specialize (IH (n * 10 + (charCode c - 48)) Hp). lia.
Qed.

(** One call of [getNumber] reads the first dot-separated piece. *)
Lemma scan_split s : forall n p ps,
  split_dot s = p :: ps -> all_chars is_digit p = true ->
  0 <= n -> decimal_go n p < 2 ^ 53 ->
  fst (scan s n) = decimal_go n p /\
  (ps = [] -> snd (scan s n) = EmptyString) /\
  (ps <> [] -> split_dot (snd (scan s n)) = ps).
Proof.
  induction s as [|c s IH]; intros n p ps Hs Hd Hn Hb; simpl in Hs.
  - injection Hs as <- <-. simpl. split; [reflexivity|]. split; [reflexivity|].
    intros H. exfalso. apply H. reflexivity.
  - simpl. rewrite charCode_dot. destruct (Ascii.eqb c dot) eqn:Ec.
    + injection Hs as <- <-. simpl. split; [reflexivity|]. split; [|auto].
      intros H. exfalso. exact (split_dot_nonempty s H).
    + destruct (split_dot s) as [|p' ps'] eqn:Es; [exfalso; exact (split_dot_nonempty s Es)|].
      injection Hs as <- <-. simpl in Hd, Hb.
      apply andb_true_iff in Hd as [Hc Hp]. pose proof (is_digit_range c Hc) as Hr.
      pose proof (decimal_go_mono p' (n * 10 + (charCode c - 48)) Hp ltac:(lia)) as Hm.
      assert (Hjs : js_add (if n =? 0 then n else js_mul n 10) (charCode c - 48)
                    = n * 10 + (charCode c - 48)).
      { destruct (Z.eqb_spec n 0) as [->|Hn0].
        - rewrite js_add_exact; lia.
        - rewrite js_mul_exact by lia. rewrite js_add_exact; lia. }
      rewrite Hjs. change (decimal_go n (String c p'))
        with (decimal_go (n * 10 + (charCode c - 48)) p').
      apply IH; [reflexivity | exact Hp | lia | exact Hb].
Qed.

Lemma follows_unread_spec fuel : forall a b ca cb,
  stands_for a ca -> stands_for b cb -> (String.length a < fuel)%nat ->
  follows_unread fuel a b
  = Some (follows_spec (map decimal_value ca) (map decimal_value cb)).
Proof.
  induction fuel as [|fuel IH]; intros a b ca cb Ha Hb Hf; [lia|].
  assert (Hpiece : forall s cs, stands_for s cs ->
            (s = EmptyString /\ cs = []) \/
            (exists c r p ps, s = String c r /\ cs = p :: ps /\ split_dot s = p :: ps /\
               all_chars is_digit p = true /\ decimal_value p < 2 ^ 53 /\
               forallb is_component ps = true)).
  { intros s cs [H|[Hs Hc]]; [left; exact H|]. right.
    destruct cs as [|p ps]; [exfalso; exact (split_dot_nonempty s Hs)|].
    simpl in Hc. apply andb_true_iff in Hc as [Hp Hps].
    unfold is_component in Hp. apply andb_true_iff in Hp as [Hp Hv].
    apply andb_true_iff in Hp as [Hne Hd]. apply Z.ltb_lt in Hv.
    destruct s as [|c r].
    - simpl in Hs. injection Hs as <- <-. simpl in Hne. discriminate.
    - exists c, r, p, ps. repeat split; auto. }
  simpl.
  destruct (Hpiece a ca Ha) as [[-> ->]|(c1 & r1 & p & ps & -> & -> & Hsa & Hda & Hva & Hpa)];
    [reflexivity|].
  destruct (Hpiece b cb Hb) as [[-> ->]|(c2 & r2 & q & qs & -> & -> & Hsb & Hdb & Hvb & Hqb)];
    [reflexivity|].
  destruct (scan_split _ 0 p ps Hsa Hda ltac:(lia) Hva) as (Ho & Hae & Hane).
  destruct (scan_split _ 0 q qs Hsb Hdb ltac:(lia) Hvb) as (Hn & Hbe & Hbne).
  destruct (scan (String c1 r1) 0) as [o a'] eqn:Ea.
  destruct (scan (String c2 r2) 0) as [n b'] eqn:Eb.
  simpl fst in *; simpl snd in *. subst o n. simpl map. simpl follows_spec.
  fold (decimal_value p). fold (decimal_value q).
  destruct (decimal_value p <? decimal_value q); [reflexivity|].
  destruct (decimal_value q <? decimal_value p); [reflexivity|].
  apply IH.
  - destruct ps as [|p' ps']; [left; auto|]. right. split; [apply Hane; discriminate|exact Hpa].
  - destruct qs as [|q' qs']; [left; auto|]. right. split; [apply Hbne; discriminate|exact Hqb].
  - pose proof (scan_shorter (String c1 r1) 0 ltac:(discriminate)) as Hsh.
    rewrite Ea in Hsh. simpl in *. lia.
Qed.

End OidFollows.

(** C8: [oidFollowsOid(a, b)] compares the dotted-decimal components
    (numbers a double holds exactly) as unsigned integers from the left:
    it answers true at the first
    component of [b] that exceeds the one of [a], false at the first that
    is smaller, and true when the components of either run out. So it is
    true for '1.3.6.1.2' against '1.3.6.1.3', false the other way round,
    and true for every string against itself. The loop always returns. *)
Theorem oidFollowsOid_compares_components :
  (forall a b : string, dotted_decimal a = true -> dotted_decimal b = true ->
     oidFollowsOid a b = Some (follows_spec (oid_components a) (oid_components b))) /\
  oidFollowsOid "1.3.6.1.2" "1.3.6.1.3" = Some true /\
  oidFollowsOid "1.3.6.1.3" "1.3.6.1.2" = Some false /\
  (forall x : string, oidFollowsOid x x = Some true) /\
  (forall a b : string, exists r, oidFollowsOid a b = Some r).
Proof.
  split; [|split; [reflexivity|split; [reflexivity|split]]].
  - intros a b Ha Hb. rewrite oidFollowsOid_unread. unfold oid_components.
    apply follows_unread_spec.
    + right. split; [reflexivity | exact Ha].
    + right. split; [reflexivity | exact Hb].
    + lia.
  - intros x. rewrite oidFollowsOid_unread. apply follows_unread_refl. lia.
  - apply oidFollowsOid_total.
Qed.

Lemma oidFollowsOid_compares_components_witness :
  oidFollowsOid "1.3.6.1.2.1.2" "1.3.6.1.2.1"
  = Some (follows_spec (oid_components "1.3.6.1.2.1.2") (oid_components "1.3.6.1.2.1")).
Proof.
  apply (proj1 oidFollowsOid_compares_components); reflexivity.
Defined.


(** ** Value decoding *)

Section ValueDecoding.

Lemma byte_val_range b : 0 <= byte_val b <= 255.
Proof.
  unfold byte_val. pose proof (Byte.to_N_bounded b) as H. lia.
Qed.

Example readInt64BEasFloat_small :
  readInt64BEasFloat [x01; x00; xff; xff; xff; xff] 0 = Some 1103806595071.
Proof. reflexivity. Qed.

(** The top bit of an eight-byte buffer is taken as a sign: the high word
    is read with [readInt32BE] and only the low word is brought back to
    the unsigned range. *)
Example readInt64BEasFloat_top_bit :
  readInt64BEasFloat [x80; x00; x00; x00; x00; x00; x00; x00] 0
  = Some (- 9223372036854775808) /\
  be_unsigned [x80; x00; x00; x00; x00; x00; x00; x00] = 9223372036854775808.
Proof. split; reflexivity. Qed.

(** C10: [readUint32] never raises its 'out of 32-bit unsigned range'
    RangeError: whenever [readInt] yields an integer the result is that
    integer reduced modulo 2^32 by [>>> 0], which lies in
    [0, 4294967295], so the range check that follows cannot fail. *)
Theorem readUint32_range_check_unreachable :
  (forall z : Z,
     readUint32 (IntegerRead z) = inr (z mod 2 ^ 32) /\
     0 <= z mod 2 ^ 32 <= 4294967295) /\
  (forall (r : ReadInt) (z : Z), readUint32 r <> inl (OutOf32BitUnsignedRange z)).
Proof.
  assert (Hr : forall z, 0 <= to_uint32 z <= 4294967295).
  { intros z. unfold to_uint32. pose proof (Z.mod_pos_bound z (2 ^ 32) ltac:(lia)). lia. }
  split.
  - intros z. specialize (Hr z). split; [|exact Hr].
    unfold readUint32.
    destruct (Z.ltb_spec (to_uint32 z) 0); [lia|].
    destruct (Z.ltb_spec 4294967295 (to_uint32 z)); [lia|]. reflexivity.
  - intros [z'|] z; simpl; [|discriminate].
    specialize (Hr z').
    destruct (Z.ltb_spec (to_uint32 z') 0); [lia|].
    destruct (Z.ltb_spec 4294967295 (to_uint32 z')); [lia|]. discriminate.
Qed.

Lemma readInt64BEasFloat_eight b0 b1 b2 b3 b4 b5 b6 b7 :
  be_unsigned [b0; b1; b2; b3; b4; b5; b6; b7] < 2 ^ 53 ->
  readInt64BEasFloat [b0; b1; b2; b3; b4; b5; b6; b7] 0
  = Some (be_unsigned [b0; b1; b2; b3; b4; b5; b6; b7]).
Proof.
  unfold readInt64BEasFloat, readInt32BE, readUInt32BE, be_unsigned. simpl.
  pose proof (byte_val_range b0). pose proof (byte_val_range b1).
  pose proof (byte_val_range b2). pose proof (byte_val_range b3).
  pose proof (byte_val_range b4). pose proof (byte_val_range b5).
  pose proof (byte_val_range b6). pose proof (byte_val_range b7).
  generalize dependent (byte_val b0). generalize dependent (byte_val b1).
  generalize dependent (byte_val b2). generalize dependent (byte_val b3).
  generalize dependent (byte_val b4). generalize dependent (byte_val b5).
  generalize dependent (byte_val b6). generalize dependent (byte_val b7).
  intros v7 H7 v6 H6 v5 H5 v4 H4 v3 H3 v2 H2 v1 H1 v0 H0 Hv.
  set (hi := ((v0 * 256 + v1) * 256 + v2) * 256 + v3) in *.
  set (lo := ((v4 * 256 + v5) * 256 + v6) * 256 + v7) in *.
  assert (Hhi : 0 <= hi < 2 ^ 21) by (unfold hi, lo in *; lia).
  assert (Hlo : 0 <= lo < 2 ^ 32) by (unfold lo; lia).
  assert (Hval : (((((((0 * 256 + v0) * 256 + v1) * 256 + v2) * 256 + v3) * 256 + v4)
                     * 256 + v5) * 256 + v6) * 256 + v7 = hi * 2 ^ 32 + lo)
    by (unfold hi, lo; lia).
  rewrite Hval in *. clearbody hi lo. clear Hval.
  change (2 ^ 32) with 4294967296 in Hv, Hlo |- *.
  destruct (Z.ltb_spec hi (2 ^ 31)); [|lia].
  rewrite (js_mul_exact hi) by lia.
  destruct (Z.ltb_spec lo (2 ^ 31)).
  - rewrite (js_add_exact (hi * 4294967296) lo) by lia.
    destruct (Z.ltb_spec lo 0); [lia|]. f_equal.
  - rewrite (js_add_exact (hi * 4294967296) (lo - 4294967296)) by lia.
    destruct (Z.ltb_spec (lo - 4294967296) 0); [|lia].
    rewrite js_add_exact by lia. f_equal. lia.
Qed.

(** C7, the statement as given fails: above 2^53 the result is a double
    and no longer the exact integer. *)
Lemma readInt64BEasFloat_not_always_the_value :
  readInt64BEasFloat [x00; x20; x00; x00; x00; x00; x00; x01] 0 = Some 9007199254740992 /\
  be_unsigned [x00; x20; x00; x00; x00; x00; x00; x01] = 9007199254740993 /\
  ~ (forall buffer : Buffer, (length buffer <= 8)%nat ->
       readInt64BEasFloat buffer 0 = Some (be_unsigned buffer)).
Proof.
  split; [reflexivity|]. split; [reflexivity|].
  intros H. specialize (H [x00; x20; x00; x00; x00; x00; x00; x01] ltac:(simpl; lia)).
  vm_compute in H. discriminate.
Qed.

(** C7, amended: for every buffer of at most 8 bytes whose big-endian
    unsigned value is below 2^53, [readInt64BEasFloat(buffer, 0)] returns
    exactly that value, shorter buffers being padded on the left with
    zero bytes. *)
Theorem readInt64BEasFloat_exact_below_2_53 (buffer : Buffer) :
  (length buffer <= 8)%nat -> be_unsigned buffer < 2 ^ 53 ->
  readInt64BEasFloat buffer 0 = Some (be_unsigned buffer).
Proof.
  intros Hlen Hv.
  assert (Hpad : exists b0 b1 b2 b3 b4 b5 b6 b7,
             pad_loop 8 buffer = [b0; b1; b2; b3; b4; b5; b6; b7] /\
             be_unsigned [b0; b1; b2; b3; b4; b5; b6; b7] = be_unsigned buffer).
  { do 9 (destruct buffer as [|? buffer];
          [do 8 eexists; split; [reflexivity | unfold be_unsigned; simpl;
             change (byte_val x00) with 0; lia]|]).
    simpl in Hlen. lia. }
  destruct Hpad as (b0 & b1 & b2 & b3 & b4 & b5 & b6 & b7 & Hp & Hb).
  rewrite <- Hb in *.
  pose proof (readInt64BEasFloat_eight b0 b1 b2 b3 b4 b5 b6 b7 Hv) as H8.
  unfold readInt64BEasFloat in *. rewrite Hp.
  change (pad_loop 8 [b0; b1; b2; b3; b4; b5; b6; b7])
    with [b0; b1; b2; b3; b4; b5; b6; b7] in H8. exact H8.
Qed.

Lemma readInt64BEasFloat_exact_below_2_53_witness :
  readInt64BEasFloat [x01; x00; xff; xff; xff; xff] 0
  = Some (be_unsigned [x01; x00; xff; xff; xff; xff]).
Proof.
  apply readInt64BEasFloat_exact_below_2_53; [simpl; lia | vm_compute; reflexivity].
Defined.

End ValueDecoding.

(** ** GetBulk reassembly *)

Section BulkProof.

Variable reportOidMismatchErrors : bool.
Variable backwardsGetNexts : bool.
Variable nr : nat.
Variable reqVarbinds : list Varbind.
Variable replyVarbinds : list Varbind.

Local Abbreviation n := (length reqVarbinds).
Local Abbreviation m := (length replyVarbinds).
Local Abbreviation r := (length reqVarbinds - nr)%nat.
Local Abbreviation passes := (slot_passes reportOidMismatchErrors backwardsGetNexts).

Lemma at_index_nat {A} (l : list A) (k : nat) : at_index l (Z.of_nat k) = l !! k.
Proof.
  unfold at_index. destruct (Z.ltb_spec (Z.of_nat k) 0); [lia|].
  by rewrite Nat2Z.id.
Qed.

Lemma first_round_passes reqRest : forall replyRest i acc,
  (forall k rq rp, reqRest !! k = Some rq -> replyRest !! k = Some rp ->
     passes (oid rq) rp = true) ->
  exists vs,
    first_round reportOidMismatchErrors backwardsGetNexts (Z.of_nat nr) i reqRest replyRest acc
    = inr ((i + length reqRest `min` length replyRest)%nat, acc ++ vs) /\
    length vs = (length reqRest `min` length replyRest)%nat /\
    (forall k rp, (k < length reqRest)%nat -> replyRest !! k = Some rp ->
       vs !! k = Some (first_round_entry (Z.of_nat nr) (i + k) rp)).
Proof.
  induction reqRest as [|rq reqRest IH]; intros replyRest i acc Hp.
  - exists []. simpl. rewrite app_nil_r, Nat.add_0_r.
    split; [destruct replyRest; reflexivity|]. split; [reflexivity|]. intros; lia.
  - destruct replyRest as [|rp replyRest].
    + exists []. simpl. rewrite app_nil_r, Nat.add_0_r.
      split; [reflexivity|]. split; [reflexivity|]. intros k ? _ H. discriminate.
    + pose proof (Hp 0%nat rq rp eq_refl eq_refl) as H0.
      destruct (IH replyRest (S i) (acc ++ [first_round_entry (Z.of_nat nr) i rp])) as (vs & Hf & Hl & Hk).
      { intros k rq' rp' H1 H2. apply (Hp (S k)); assumption. }
      exists (first_round_entry (Z.of_nat nr) i rp :: vs).
      simpl. unfold slot_passes in H0.
      assert (Hgo : first_round reportOidMismatchErrors backwardsGetNexts (Z.of_nat nr) i
                 (rq :: reqRest) (rp :: replyRest) acc
               = first_round reportOidMismatchErrors backwardsGetNexts (Z.of_nat nr) (S i)
                   reqRest replyRest (acc ++ [first_round_entry (Z.of_nat nr) i rp])).
      { simpl. destruct (isVarbindError rp).
        - apply negb_true_iff in H0. rewrite H0. reflexivity.
        - apply negb_true_iff in H0. rewrite H0. reflexivity. }
      simpl in Hgo. rewrite Hgo, Hf. split; [|split].
      * rewrite <- app_assoc. simpl. do 2 f_equal. lia.
      * simpl. lia.
      * intros [|k] rp' Hlt Hrp'; simpl in *.
        -- injection Hrp' as <-. rewrite Nat.add_0_r. reflexivity.
        -- rewrite (Hk k rp') by (assumption || lia). do 2 f_equal. lia.
Qed.

Hypothesis Hrep : (nr < n)%nat.

Lemma first_round_assembled :
  (n <= m)%nat ->
  (forall i rq rp, reqVarbinds !! i = Some rq -> replyVarbinds !! i = Some rp ->
     passes (oid rq) rp = true) ->
  exists vs,
    first_round reportOidMismatchErrors backwardsGetNexts (Z.of_nat nr) 0
      reqVarbinds replyVarbinds [] = inr (n, vs) /\
    assembled nr r replyVarbinds n n vs.
Proof.
  intros Hnm Hp.
  destruct (first_round_passes reqVarbinds replyVarbinds 0 [] Hp) as (vs & Hf & Hl & Hk).
  exists vs. simpl in Hf. rewrite Hf. rewrite Nat.min_l in * by lia.
  split; [reflexivity|]. split; [exact Hl|]. split.
  - intros j Hj. destruct (replyVarbinds !! j) as [rp|] eqn:Hrp.
    + rewrite (Hk j rp) by (assumption || lia). simpl.
      unfold first_round_entry. destruct (Z.ltb_spec (Z.of_nat j) (Z.of_nat nr)); [reflexivity|lia].
    + apply lookup_ge_None in Hrp. lia.
  - intros j [Hj1 Hj2].
    destruct (lookup_lt_is_Some_2 replyVarbinds j ltac:(lia)) as [rp Hrp].
    exists [rp]. split.
    + rewrite (Hk j rp) by (assumption || lia). simpl.
      unfold first_round_entry. destruct (Z.ltb_spec (Z.of_nat j) (Z.of_nat nr)); [lia|reflexivity].
    + intros [|k]; simpl.
      * rewrite Nat.add_0_r. rewrite decide_True by lia. by rewrite Hrp.
      * rewrite decide_False by nia. reflexivity.
Qed.

Lemma drop_cons_inv {A} (l : list A) i x rest :
  drop i l = x :: rest -> l !! i = Some x /\ drop (S i) l = rest /\ (i < length l)%nat.
Proof.
  intros H. assert (Hx : l !! i = Some x).
  { rewrite <- (Nat.add_0_r i), <- lookup_drop, H. reflexivity. }
  split; [exact Hx|]. split.
  - rewrite (drop_S l x i Hx) in H. congruence.
  - apply lookup_lt_Some in Hx. exact Hx.
Qed.

Lemma later_rounds_assembled rest : forall i vs,
  (forall i prev cur, (n <= i)%nat ->
     replyVarbinds !! (i - r)%nat = Some prev -> replyVarbinds !! i = Some cur ->
     passes (oid prev) cur = true) ->
  drop i replyVarbinds = rest -> (n <= i <= m)%nat ->
  assembled nr r replyVarbinds n i vs ->
  exists vs',
    later_rounds reportOidMismatchErrors backwardsGetNexts (Z.of_nat nr) n
      replyVarbinds i rest vs = Responded (Success (Bulk vs')) /\
    assembled nr r replyVarbinds n m vs'.
Proof.
  induction rest as [|cur rest IH]; intros i vs Hp Hd Hi Hinv.
  - exists vs. split; [reflexivity|].
    assert (i = m) as <-; [|exact Hinv].
    pose proof (length_drop replyVarbinds i) as Hl. rewrite Hd in Hl. simpl in Hl. lia.
  - destruct (drop_cons_inv _ _ _ _ Hd) as (Hcur & Hd' & Hlt).
    set (j0 := ((i - nr) mod r + nr)%nat).
    assert (Hr : (0 < r)%nat) by lia.
    assert (Hmod : ((i - nr) mod r < r)%nat) by (apply Nat.mod_upper_bound; lia).
    assert (Hdiv : (i - nr = r * ((i - nr) / r) + (i - nr) mod r)%nat)
      by (apply Nat.div_mod_eq).
    set (k0 := ((i - nr) / r)%nat) in *.
    assert (Hi0 : (j0 + k0 * r = i)%nat) by (unfold j0; lia).
    assert (Hj0 : (nr <= j0 < n)%nat) by (unfold j0; lia).
    destruct (lookup_lt_is_Some_2 replyVarbinds (i - r) ltac:(lia)) as [prev Hprev].
    pose proof (Hp i prev cur ltac:(lia) Hprev Hcur) as Hpass.
    destruct Hinv as (Hlen & Hnr & Hrp).
    destruct (Hrp j0 Hj0) as (b & Hb & Hbk).
    assert (Hblen : length b = k0).
    { assert (Hge : (k0 >= length b)%nat).
      { apply lookup_ge_None. rewrite Hbk. rewrite decide_False by lia. reflexivity. }
      destruct (decide (k0 = length b)) as [|Hne]; [congruence|].
      assert (Hk : b !! length b = None) by (apply lookup_ge_None; lia).
      rewrite Hbk in Hk. rewrite decide_True in Hk by nia.
      apply lookup_ge_None in Hk. nia. }
    assert (Hstep :
      later_rounds reportOidMismatchErrors backwardsGetNexts (Z.of_nat nr) n
        replyVarbinds i (cur :: rest) vs
      = later_rounds reportOidMismatchErrors backwardsGetNexts (Z.of_nat nr) n
          replyVarbinds (S i) rest (<[j0 := Repeated (b ++ [cur])]> vs)).
    { simpl.
      replace (Z.of_nat i - (Z.of_nat n - Z.of_nat nr)) with (Z.of_nat (i - r)) by lia.
      rewrite at_index_nat, Hprev.
      replace (Z.of_nat n - Z.of_nat nr) with (Z.of_nat r) by lia.
      replace (Z.of_nat i - Z.of_nat nr) with (Z.of_nat (i - nr)) by lia.
      unfold js_rem. destruct (Z.eqb_spec (Z.of_nat r) 0) as [Hz|_]; [lia|].
      rewrite Z.rem_mod_nonneg by lia. rewrite <- Nat2Z.inj_mod, <- Nat2Z.inj_add.
      fold j0. unfold push_at. rewrite at_index_nat, Hb, !Nat2Z.id.
      unfold slot_passes in Hpass.
      destruct (isVarbindError cur); apply negb_true_iff in Hpass; rewrite Hpass; reflexivity. }
    rewrite Hstep. apply IH; [exact Hp | exact Hd' | lia |].
    split; [rewrite length_insert; exact Hlen|]. split.
    + intros j Hj. rewrite list_lookup_insert_ne by lia. apply Hnr. exact Hj.
    + intros j Hj. destruct (decide (j = j0)) as [->|Hne].
      * exists (b ++ [cur]). split; [apply list_lookup_insert_eq; lia|].
        intros k. destruct (lt_eq_lt_dec k k0) as [[Hk|Hk]|Hk].
        -- rewrite lookup_app_l by lia. rewrite Hbk.
           rewrite decide_True by nia. rewrite decide_True by nia. reflexivity.
        -- subst k. rewrite lookup_app_r by lia. rewrite Hblen, Nat.sub_diag. simpl.
           rewrite decide_True by lia. rewrite Hi0. by rewrite Hcur.
        -- rewrite lookup_ge_None_2 by (rewrite length_app; simpl; lia).
           rewrite decide_False by nia. reflexivity.
      * destruct (Hrp j Hj) as (b' & Hb' & Hbk').
        exists b'. split; [rewrite list_lookup_insert_ne by congruence; exact Hb'|].
        intros k. rewrite Hbk'.
        assert (Hneq : (j + k * r <> i)%nat).
        { intros Heq. apply Hne. unfold j0.
          replace (i - nr)%nat with ((j - nr) + k * r)%nat by lia.
          rewrite Nat.Div0.mod_add. rewrite Nat.mod_small by lia. lia. }
        destruct (decide (j + k * r < i)%nat); destruct (decide (j + k * r < S i)%nat);
          try reflexivity; lia.
Qed.

(** Conversely, a success means that every check was made and passed. *)
Lemma first_round_checked reqRest : forall replyRest i acc i' vs,
  first_round reportOidMismatchErrors backwardsGetNexts (Z.of_nat nr) i reqRest replyRest acc
  = inr (i', vs) ->
  forall k rq rp, reqRest !! k = Some rq -> replyRest !! k = Some rp ->
    passes (oid rq) rp = true.
Proof.
  induction reqRest as [|rq0 reqRest IH]; intros replyRest i acc i' vs Hf k rq rp Hq Hp.
  - discriminate.
  - destruct replyRest as [|rp0 replyRest]; [discriminate|]. simpl in Hf.
    assert (Hhead : passes (oid rq0) rp0 = true /\
              first_round reportOidMismatchErrors backwardsGetNexts (Z.of_nat nr) (S i)
                reqRest replyRest (acc ++ [first_round_entry (Z.of_nat nr) i rp0])
              = inr (i', vs)).
    { unfold slot_passes. destruct (isVarbindError rp0).
      - destruct (reportOidMismatchErrors && negb (String.eqb (oid rq0) (oid rp0)));
          [discriminate | auto].
      - destruct (negb backwardsGetNexts && negb (follows (oid rq0) (oid rp0)));
          [discriminate | auto]. }
    destruct Hhead as [H0 Hrest]. destruct k as [|k]; simpl in Hq, Hp.
    + injection Hq as <-. injection Hp as <-. exact H0.
    + exact (IH _ _ _ _ _ Hrest k rq rp Hq Hp).
Qed.

Lemma later_rounds_checked rest : forall i vs vs',
  later_rounds reportOidMismatchErrors backwardsGetNexts (Z.of_nat nr) n
    replyVarbinds i rest vs = Responded (Success (Bulk vs')) ->
  drop i replyVarbinds = rest -> (n <= i)%nat ->
  forall i' prev cur, (i <= i')%nat ->
    replyVarbinds !! (i' - r)%nat = Some prev -> replyVarbinds !! i' = Some cur ->
    passes (oid prev) cur = true.
Proof.
  induction rest as [|cur0 rest IH]; intros i vs vs' Hl Hd Hi i' prev cur Hi' Hprev Hcur.
  - exfalso. apply lookup_lt_Some in Hcur.
    pose proof (length_drop replyVarbinds i) as Hlen. rewrite Hd in Hlen. simpl in Hlen. lia.
  - destruct (drop_cons_inv _ _ _ _ Hd) as (Hcur0 & Hd' & Hlt).
    simpl in Hl.
    replace (Z.of_nat i - (Z.of_nat n - Z.of_nat nr)) with (Z.of_nat (i - r)) in Hl by lia.
    rewrite at_index_nat in Hl.
    destruct (replyVarbinds !! (i - r)%nat) as [prev0|] eqn:Hprev0; [|discriminate].
    assert (Hhead : passes (oid prev0) cur0 = true /\
              exists vs1, later_rounds reportOidMismatchErrors backwardsGetNexts (Z.of_nat nr) n
                            replyVarbinds (S i) rest vs1 = Responded (Success (Bulk vs'))).
    { unfold slot_passes. destruct (isVarbindError cur0).
      - destruct (reportOidMismatchErrors && negb (String.eqb (oid prev0) (oid cur0)));
          [discriminate|]. split; [reflexivity|].
        destruct (push_at _ _ _) as [vs1|]; [eauto | discriminate].
      - destruct (negb backwardsGetNexts && negb (follows (oid prev0) (oid cur0)));
          [discriminate|]. split; [reflexivity|].
        destruct (push_at _ _ _) as [vs1|]; [eauto | discriminate]. }
    destruct Hhead as (H0 & vs1 & Hrest).
    destruct (decide (i' = i)) as [->|Hne].
    + rewrite Hprev0 in Hprev. rewrite Hcur0 in Hcur.
      injection Hprev as <-. injection Hcur as <-. exact H0.
    + exact (IH _ _ _ Hrest Hd' ltac:(lia) i' prev cur ltac:(lia) Hprev Hcur).
Qed.

End BulkProof.


Lemma assembled_delivered nr reqVarbinds replyVarbinds vs :
  (nr < length reqVarbinds)%nat ->
  assembled nr (length reqVarbinds - nr) replyVarbinds (length reqVarbinds)
    (length replyVarbinds) vs ->
  delivered_shape nr reqVarbinds replyVarbinds vs.
Proof.
  intros Hnr (Hlen & Hsingle & Hrep). unfold delivered_shape.
  assert (Hall : forall j, (nr <= j < length reqVarbinds)%nat ->
            exists b, vs !! j = Some (Repeated b) /\
              forall k, b !! k = replyVarbinds !! (j + k * (length reqVarbinds - nr))%nat).
  { intros j Hj. destruct (Hrep j Hj) as (b & Hb & Hk). exists b. split; [exact Hb|].
    intros k. rewrite Hk. case_decide; [reflexivity|].
    symmetry. apply lookup_ge_None. lia. }
  split; [exact Hlen|]. split; [exact Hsingle|]. split; [exact Hall|].
  intros i cur Hi Hcur.
  set (r := (length reqVarbinds - nr)%nat) in *.
  assert (Hmod : ((i - nr) mod r < r)%nat) by (apply Nat.mod_upper_bound; lia).
  pose proof (Nat.div_mod_eq (i - nr) r) as Hdiv.
  destruct (Hall ((i - nr) mod r + nr)%nat ltac:(lia)) as (b & Hb & Hk).
  exists b. split; [exact Hb|]. rewrite Hk, <- Hcur. f_equal. lia.
Qed.

(** C1, the statement as given fails: a reply that is shorter than the
    request passes every check and is delivered as it is, so the array has
    fewer entries than the request has slots. *)
Lemma getBulk_feedCb_short_reply_is_delivered :
  getBulk_feedCb false true 1
    [request_varbind "1.3.6.1.2.1.1.3"; request_varbind "1.3.6.1.2.1.2.2.1.2"]
    [text_varbind "1.3.6.1.2.1.1.3.0" "NR"]
  = Responded (Success (Bulk [Single (text_varbind "1.3.6.1.2.1.1.3.0" "NR")])) /\
  ~ (forall (reportOidMismatchErrors backwardsGetNexts : bool) (nonRepeaters : nat)
       (reqVarbinds replyVarbinds : list Varbind),
       (nonRepeaters < length reqVarbinds)%nat ->
       checks_pass reportOidMismatchErrors backwardsGetNexts
         (length reqVarbinds - nonRepeaters) reqVarbinds replyVarbinds ->
       exists varbinds,
         getBulk_feedCb reportOidMismatchErrors backwardsGetNexts (Z.of_nat nonRepeaters)
           reqVarbinds replyVarbinds = Responded (Success (Bulk varbinds)) /\
         delivered_shape nonRepeaters reqVarbinds replyVarbinds varbinds).
Proof.
  split; [reflexivity|]. intros H.
  destruct (H false true 1%nat
              [request_varbind "1.3.6.1.2.1.1.3"; request_varbind "1.3.6.1.2.1.2.2.1.2"]
              [text_varbind "1.3.6.1.2.1.1.3.0" "NR"]) as (vs & Hvs & Hlen & _).
  - simpl. lia.
  - split; intros; unfold slot_passes; destruct (isVarbindError _); reflexivity.
  - vm_compute in Hvs. injection Hvs as <-. simpl in Hlen. discriminate.
Qed.

(** C1, amended: for a request of [nonRepeaters + repeaters] varbinds
    with [repeaters >= 1] and a reply with at least as many varbinds as
    the request that passes the per-slot checks, the feed callback of
    getBulk delivers an array of as many entries as the request has: the
    first [nonRepeaters] are the reply varbinds of those slots, each later
    entry is the list opened by the first-round varbind of its slot, and
    the reply varbind at an index [i] at or beyond the request length,
    checked against the one at [i - repeaters], is appended to the list at
    [(i - nonRepeaters) mod repeaters + nonRepeaters]; and an array is
    delivered for such a reply only when every one of these checks has
    passed. For nonRepeaters=1, repeaters=2 and the reply
    [NR, R1a, R2a, R1b, R2b] the result is [NR, [R1a, R1b], [R2a, R2b]]. *)
Theorem getBulk_feedCb_reassembles :
  (forall (reportOidMismatchErrors backwardsGetNexts : bool) (nonRepeaters : nat)
     (reqVarbinds replyVarbinds : list Varbind),
     (nonRepeaters < length reqVarbinds)%nat ->
     (length reqVarbinds <= length replyVarbinds)%nat ->
     checks_pass reportOidMismatchErrors backwardsGetNexts
       (length reqVarbinds - nonRepeaters) reqVarbinds replyVarbinds ->
     exists varbinds,
       getBulk_feedCb reportOidMismatchErrors backwardsGetNexts (Z.of_nat nonRepeaters)
         reqVarbinds replyVarbinds = Responded (Success (Bulk varbinds)) /\
       delivered_shape nonRepeaters reqVarbinds replyVarbinds varbinds) /\
  (forall (reportOidMismatchErrors backwardsGetNexts : bool) (nonRepeaters : nat)
     (reqVarbinds replyVarbinds : list Varbind) (varbinds : list BulkEntry),
     (nonRepeaters < length reqVarbinds)%nat ->
     (length reqVarbinds <= length replyVarbinds)%nat ->
     getBulk_feedCb reportOidMismatchErrors backwardsGetNexts (Z.of_nat nonRepeaters)
       reqVarbinds replyVarbinds = Responded (Success (Bulk varbinds)) ->
     checks_pass reportOidMismatchErrors backwardsGetNexts
       (length reqVarbinds - nonRepeaters) reqVarbinds replyVarbinds) /\
  getBulk_feedCb false true 1
    [request_varbind "1.3.6.1.2.1.1.3"; request_varbind "1.3.6.1.2.1.2.2.1.2";
     request_varbind "1.3.6.1.2.1.2.2.1.3"]
    [text_varbind "1.3.6.1.2.1.1.3.0" "NR"; text_varbind "1.3.6.1.2.1.2.2.1.2.1" "R1a";
     text_varbind "1.3.6.1.2.1.2.2.1.3.1" "R2a"; text_varbind "1.3.6.1.2.1.2.2.1.2.2" "R1b";
     text_varbind "1.3.6.1.2.1.2.2.1.3.2" "R2b"]
  = Responded (Success (Bulk
      [Single (text_varbind "1.3.6.1.2.1.1.3.0" "NR");
       Repeated [text_varbind "1.3.6.1.2.1.2.2.1.2.1" "R1a";
                 text_varbind "1.3.6.1.2.1.2.2.1.2.2" "R1b"];
       Repeated [text_varbind "1.3.6.1.2.1.2.2.1.3.1" "R2a";
                 text_varbind "1.3.6.1.2.1.2.2.1.3.2" "R2b"]])).
Proof.
  split; [|split; [|reflexivity]].
  - intros report backwards nr req reply Hnr Hlen [Hfirst Hlater].
    destruct (first_round_assembled report backwards nr req reply Hnr Hlen Hfirst)
      as (vs0 & Hf & Hinv).
    destruct (later_rounds_assembled report backwards nr req reply Hnr
                (drop (length req) reply) (length req) vs0 Hlater eq_refl ltac:(lia) Hinv)
      as (vs & Hl & Hinv').
    exists vs. split.
    + unfold getBulk_feedCb. rewrite Hf. exact Hl.
    + apply assembled_delivered; assumption.
  - intros report backwards nr req reply vs Hnr Hlen Hok. unfold getBulk_feedCb in Hok.
    destruct (first_round report backwards (Z.of_nat nr) 0 req reply []) as [e|[i vs0]] eqn:Hf;
      [discriminate|].
    split.
    + intros k rq rp. exact (first_round_checked report backwards nr req reply 0 [] i vs0 Hf k rq rp).
    + destruct (first_round_passes report backwards nr req reply 0 []
                  (first_round_checked report backwards nr req reply 0 [] i vs0 Hf))
        as (vs1 & Hf' & _).
      rewrite Hf in Hf'. injection Hf' as Hi _. rewrite Nat.min_l in Hi by lia. simpl in Hi.
      subst i. intros i prev cur Hge.
      exact (later_rounds_checked report backwards nr req reply Hnr _ _ _ _ Hok eq_refl
               (le_n _) i prev cur Hge).
Qed.

Lemma getBulk_feedCb_reassembles_witness :
  exists varbinds,
    getBulk_feedCb true false 1
      [request_varbind "1.3.6.1.2.1.1.3"; request_varbind "1.3.6.1.2.1.2.2.1.2";
       request_varbind "1.3.6.1.2.1.2.2.1.3"]
      [text_varbind "1.3.6.1.2.1.1.3.0" "NR"; text_varbind "1.3.6.1.2.1.2.2.1.2.1" "R1a";
       text_varbind "1.3.6.1.2.1.2.2.1.3.1" "R2a"; text_varbind "1.3.6.1.2.1.2.2.1.2.2" "R1b";
       text_varbind "1.3.6.1.2.1.2.2.1.3.2" "R2b"]
    = Responded (Success (Bulk varbinds)) /\
    delivered_shape 1
      [request_varbind "1.3.6.1.2.1.1.3"; request_varbind "1.3.6.1.2.1.2.2.1.2";
       request_varbind "1.3.6.1.2.1.2.2.1.3"]
      [text_varbind "1.3.6.1.2.1.1.3.0" "NR"; text_varbind "1.3.6.1.2.1.2.2.1.2.1" "R1a";
       text_varbind "1.3.6.1.2.1.2.2.1.3.1" "R2a"; text_varbind "1.3.6.1.2.1.2.2.1.2.2" "R1b";
       text_varbind "1.3.6.1.2.1.2.2.1.3.2" "R2b"]
      varbinds.
Proof.
  apply (proj1 getBulk_feedCb_reassembles true false 1%nat).
  - simpl. lia.
  - simpl. lia.
  - split.
    + intros [|[|[|i]]] rq rp Hq Hr; simpl in Hq, Hr; try discriminate;
        injection Hq as <-; injection Hr as <-; vm_compute; reflexivity.
    + intros [|[|[|[|[|i]]]]] prev cur Hi Hprev Hcur; simpl in Hi, Hprev, Hcur;
        try lia; try discriminate;
        injection Hprev as <-; injection Hcur as <-; vm_compute; reflexivity.
Defined.

(** ** The subtree feed *)

Section SubtreeProofs.

Lemma components_match_prefix a b :
  components_match a b = true <-> a `prefix_of` b.
Proof.
  revert b; induction a as [|x a IH]; intros b; simpl.
  - split; [intros _; apply prefix_nil | reflexivity].
  - destruct b as [|y b].
    + split; [discriminate|]. intros [k Hk]. discriminate.
    + destruct (String.eqb_spec y x) as [->|Hne].
      * rewrite IH. split; [apply prefix_cons|]. apply prefix_cons_inv_2.
      * split; [discriminate|]. intros H. apply prefix_cons_inv_1 in H. congruence.
Qed.

(** [oidInSubtree] holds exactly when the candidate has at least as many
    dot-separated components as the base and agrees with it on each
    component of the base. *)
Lemma oidInSubtree_spec base cand :
  oidInSubtree base cand = true <->
  (length (split_dot base) <= length (split_dot cand))%nat /\
  forall i c, split_dot base !! i = Some c -> split_dot cand !! i = Some c.
Proof.
  unfold oidInSubtree.
  destruct (Nat.ltb_spec (length (split_dot cand)) (length (split_dot base))) as [Hlt|Hle].
  - split; [discriminate|]. intros [H _]. lia.
  - rewrite components_match_prefix. split.
    + intros [k Hk]. split; [exact Hle|]. intros i c Hc. rewrite Hk.
      apply lookup_app_l_Some. exact Hc.
    + intros [_ H]. exists (drop (length (split_dot base)) (split_dot cand)).
      rewrite <- (take_drop (length (split_dot base)) (split_dot cand)) at 1.
      f_equal. apply list_eq. intros i.
      destruct (decide (i < length (split_dot base))%nat) as [Hi|Hi].
      * rewrite lookup_take_lt by lia.
        destruct (lookup_lt_is_Some_2 (split_dot base) i Hi) as [c Hc].
        rewrite Hc. apply H. exact Hc.
      * rewrite lookup_take_ge by lia. symmetry. apply lookup_ge_None. lia.
Qed.

(** The loop never reads past the end of the array. *)
Lemma subtreeCb_loop_defined baseOid i : forall done varbinds,
  (i <= length varbinds)%nat ->
  exists done' varbinds', subtreeCb_loop baseOid i done varbinds = Some (done', varbinds').
Proof.
  induction i as [|i IH]; intros done varbinds Hi; simpl; [eauto|].
  destruct (lookup_lt_is_Some_2 varbinds i ltac:(lia)) as [vb ->].
  destruct (negb (oidInSubtree baseOid (oid vb))); apply IH; [|lia].
  unfold pop. rewrite length_take. lia.
Qed.

Lemma subtreeCb_defined feedCb baseOid varbinds :
  exists result, subtreeCb feedCb baseOid varbinds = Some result.
Proof.
  unfold subtreeCb.
  destruct (subtreeCb_loop_defined baseOid (length varbinds) false varbinds (le_n _))
    as (done & vbs & ->).
  destruct (0 <? length vbs)%nat; eauto.
Qed.

(** The loop pops once for each out-of-subtree varbind it meets, and
    what it pops is the end of the array. *)
Lemma subtreeCb_loop_takes baseOid l i : forall k done,
  (i <= k <= length l)%nat ->
  subtreeCb_loop baseOid i done (take k l)
  = Some (done || (0 <? outside_count baseOid (take i l))%nat,
          take (k - outside_count baseOid (take i l)) l).
Proof.
  induction i as [|i IH]; intros k done Hk; simpl.
  - rewrite take_0. unfold outside_count. simpl.
    rewrite orb_false_r, Nat.sub_0_r. reflexivity.
  - destruct (lookup_lt_is_Some_2 l i ltac:(lia)) as [vb Hvb].
    rewrite lookup_take_lt by lia. rewrite Hvb.
    assert (Hc : outside_count baseOid (take (S i) l)
                 = (outside_count baseOid (take i l)
                    + (if negb (oidInSubtree baseOid (oid vb)) then 1 else 0))%nat).
    { rewrite (take_S_r l i vb Hvb). unfold outside_count.
      rewrite List.filter_app, length_app. simpl.
      destruct (negb (oidInSubtree baseOid (oid vb))); reflexivity. }
    rewrite Hc.
    assert (Hbound : (outside_count baseOid (take i l) <= i)%nat).
    { unfold outside_count.
      etransitivity; [apply List.filter_length_le|]. rewrite length_take. lia. }
    destruct (negb (oidInSubtree baseOid (oid vb))).
    + unfold pop. rewrite length_take, Nat.min_l by lia.
      rewrite take_take, Nat.min_l by lia.
      rewrite IH by lia. f_equal. f_equal.
      * destruct (Nat.ltb_spec 0 (outside_count baseOid (take i l) + 1)); [|lia].
        rewrite orb_true_r. reflexivity.
      * f_equal. lia.
    + rewrite IH by lia. rewrite Nat.add_0_r. reflexivity.
Qed.

(** When the out-of-subtree varbinds all come last, the callback hands
    on exactly the varbinds of the subtree, and any out-of-subtree varbind
    stops the walk. *)
Lemma subtreeCb_ordered_batch feedCb baseOid inside outside :
  Forall (fun vb => oidInSubtree baseOid (oid vb) = true) inside ->
  Forall (fun vb => oidInSubtree baseOid (oid vb) = false) outside ->
  subtreeCb feedCb baseOid (inside ++ outside)
  = Some (mkSubtreeResult
            (if (0 <? length inside)%nat then Some inside else None)
            ((if (0 <? length inside)%nat then feedCb inside else false)
             || (0 <? length outside)%nat)).
Proof.
  intros Hin Hout. unfold subtreeCb.
  pose proof (subtreeCb_loop_takes baseOid (inside ++ outside)
                (length (inside ++ outside)) (length (inside ++ outside)) false
                ltac:(lia)) as Hl.
  rewrite firstn_all in Hl. rewrite Hl. clear Hl.
  assert (Hc : outside_count baseOid (inside ++ outside) = length outside).
  { unfold outside_count. rewrite List.filter_app, length_app.
    assert (H1 : List.filter (fun vb => negb (oidInSubtree baseOid (oid vb))) inside = []).
    { clear -Hin. induction Hin as [|vb l Hvb _ IH]; simpl; [reflexivity|].
      rewrite Hvb. simpl. exact IH. }
    assert (H2 : List.filter (fun vb => negb (oidInSubtree baseOid (oid vb))) outside = outside).
    { clear -Hout. induction Hout as [|vb l Hvb _ IH]; simpl; [reflexivity|].
      rewrite Hvb. simpl. f_equal. exact IH. }
    rewrite H1, H2. reflexivity. }
  rewrite Hc. simpl. rewrite length_app.
  replace (length inside + length outside - length outside)%nat with (length inside) by lia.
  rewrite take_app_length.
  destruct (0 <? length inside)%nat; [|reflexivity].
  destruct (feedCb inside); reflexivity.
Qed.

End SubtreeProofs.

(** C6, the code at a batch in which an out-of-subtree varbind is
    followed by one inside the subtree: the walk is stopped, but [pop]
    took the last varbind off instead of the one that was tested, so the
    caller's feed callback receives an out-of-subtree varbind and loses one
    that lies in the subtree. *)
Theorem subtreeCb_pops_the_last_varbind :
  subtreeCb (fun _ => false) "1.3.6.1.2.1.1"
    [text_varbind "1.3.6.1.2.1.1.1.0" "a"; text_varbind "1.3.6.1.2.1.2.1.0" "b";
     text_varbind "1.3.6.1.2.1.1.2.0" "c"]
  = Some (mkSubtreeResult
            (Some [text_varbind "1.3.6.1.2.1.1.1.0" "a"; text_varbind "1.3.6.1.2.1.2.1.0" "b"])
            true) /\
  in_subtree "1.3.6.1.2.1.1"
    [text_varbind "1.3.6.1.2.1.1.1.0" "a"; text_varbind "1.3.6.1.2.1.2.1.0" "b";
     text_varbind "1.3.6.1.2.1.1.2.0" "c"]
  = [text_varbind "1.3.6.1.2.1.1.1.0" "a"; text_varbind "1.3.6.1.2.1.1.2.0" "c"].
Proof. split; reflexivity. Qed.

(** ** The table builder *)

Section TableProofs.

Lemma prefix_append p rest : String.prefix p (p +:+ rest) = true.
Proof.
  induction p as [|c p IH]; simpl; [destruct rest; reflexivity|].
  destruct (ascii_dec c c); [exact IH | congruence].
Qed.

Lemma string_drop_append p rest : string_drop (String.length p) (p +:+ rest) = rest.
Proof. induction p as [|c p IH]; simpl; [reflexivity | exact IH]. Qed.

Lemma replace_first_prefix p rest : replace_first p (p +:+ rest) = rest.
Proof.
  assert (Hunfold : forall s, replace_first p s
            = if String.prefix p s then string_drop (String.length p) s
              else match s with
                   | EmptyString => EmptyString
                   | String c s' => String c (replace_first p s')
                   end) by (intros [|c s]; reflexivity).
  rewrite Hunfold, prefix_append, string_drop_append. reflexivity.
Qed.



Lemma span_digits_column col suffix :
  all_chars is_digit col = true ->
  span_digits (col +:+ String dot suffix) = (col, String dot suffix).
Proof.
  induction col as [|c col IH]; intros Hd; simpl in *; [reflexivity|].
  apply andb_true_iff in Hd as [Hc Hd]. rewrite Hc, (IH Hd). reflexivity.
Qed.

Lemma match_column_row_cell col suffix :
  col <> EmptyString -> all_chars is_digit col = true ->
  suffix <> EmptyString -> all_chars no_line_terminator suffix = true ->
  match_column_row (col +:+ String dot suffix) = Some (col, suffix).
Proof.
  intros Hc Hd Hs Hl. unfold match_column_row. rewrite span_digits_column by exact Hd.
  destruct (String.eqb_spec col EmptyString) as [|_]; [congruence|].
  destruct (String.eqb_spec suffix EmptyString) as [|_]; [congruence|].
  rewrite Hl. reflexivity.
Qed.

(** A string of digits and dots names no member of [Object.prototype]. *)
Lemma digits_and_dots_not_inherited s :
  all_chars (fun c => is_digit c || Ascii.eqb c dot) s = true -> inherited_name s = false.
Proof.
  destruct s as [|c s]; [reflexivity|]. simpl. intros H.
  apply andb_true_iff in H as [H _].
  unfold inherited_name, Object_prototype_names. simpl.
  repeat match goal with
         | |- context [Ascii.eqb c ?x] =>
             destruct (Ascii.eqb_spec c x) as [->|_]; [discriminate H|]
         end.
  reflexivity.
Qed.

Lemma digits_not_proto s : all_chars is_digit s = true -> s <> "__proto__"%string.
Proof. intros H ->. discriminate H. Qed.

End TableProofs.



(** ** The registry *)

Section RegistryProofs.

Lemma size_pos_lookup (m : gmap Z nat) id l : m !! id = Some l -> (0 < size m)%nat.
Proof.
  intros H. destruct (decide (size m = 0)%nat) as [H0|]; [|lia].
  apply map_size_empty_iff in H0. subst m. rewrite lookup_empty in H. discriminate.
Qed.

Lemma new_Session_inv cfg objects : registry_inv (new_Session cfg objects).
Proof. split; reflexivity. Qed.

Lemma registerRequest_inv s l : registry_inv s -> registry_inv (registerRequest s l).
Proof.
  intros [Hc Hr]. unfold registerRequest.
  destruct (heap s !! l) as [req|]; [|split; assumption].
  destruct (reqs s !! getId req) as [l'|] eqn:Hl; [split; assumption|].
  unfold registry_inv. simpl. rewrite map_size_insert_None by exact Hl. split; [lia|].
  destruct (Z.leb_spec (reqCount s) 0) as [Hle|Hgt].
  - symmetry. apply Z.ltb_lt. lia.
  - rewrite Hr. destruct (Z.ltb_spec 0 (reqCount s)); [|lia].
    symmetry. apply Z.ltb_lt. lia.
Qed.

Lemma unregisterRequest_inv s id :
  registry_inv s -> registry_inv (fst (unregisterRequest s id)).
Proof.
  intros [Hc Hr]. unfold unregisterRequest.
  destruct (reqs s !! id) as [l|] eqn:Hl; [|split; assumption].
  pose proof (size_pos_lookup _ _ _ Hl) as Hpos.
  assert (Hsize : size (delete id (reqs s)) = pred (size (reqs s)))
    by (apply map_size_delete_Some; eauto).
  unfold registry_inv.
  destruct (match heap s !! l with Some req => timer req | None => None end) as [h|];
    simpl; (destruct (Z.leb_spec (reqCount s - 1) 0) as [Hle|Hgt]; simpl; rewrite Hsize;
      (split; [lia|]);
      [ symmetry; apply Z.ltb_ge; lia
      | rewrite Hr; destruct (Z.ltb_spec 0 (reqCount s)); [|lia];
        symmetry; apply Z.ltb_lt; lia ]).
Qed.

Lemma registry_calls_inv calls : forall s,
  registry_inv s -> registry_inv (fold_left registry_call calls s).
Proof.
  induction calls as [|c calls IH]; intros s Hs; simpl; [exact Hs|].
  apply IH. destruct c as [l|id]; simpl.
  - apply registerRequest_inv. exact Hs.
  - apply unregisterRequest_inv. exact Hs.
Qed.

End RegistryProofs.

(** C3: after any sequence of registerRequest and unregisterRequest
    calls on a fresh session the socket is ref'd if and only if the count
    of outstanding requests is above 0, and that count is the number of
    registered requests; from such a state registerRequest refs the
    socket when it takes the count from 0 to 1 and unregisterRequest
    unrefs it when it takes the count to 0. *)
Theorem transport_active_iff_outstanding :
  (forall (cfg : Config) (objects : gmap nat Req) (calls : list RegistryCall),
     (dgram_refd (after_calls cfg objects calls) = true
      <-> 0 < reqCount (after_calls cfg objects calls)) /\
     reqCount (after_calls cfg objects calls)
     = Z.of_nat (size (reqs (after_calls cfg objects calls)))) /\
  (forall (cfg : Config) (objects : gmap nat Req) (calls : list RegistryCall)
     (l : nat) (req : Req),
     heap (after_calls cfg objects calls) !! l = Some req ->
     reqCount (after_calls cfg objects calls) = 0 ->
     dgram_refd (after_calls cfg objects calls) = false /\
     reqCount (registerRequest (after_calls cfg objects calls) l) = 1 /\
     dgram_refd (registerRequest (after_calls cfg objects calls) l) = true) /\
  (forall (cfg : Config) (objects : gmap nat Req) (calls : list RegistryCall)
     (id : Z) (l : nat),
     reqs (after_calls cfg objects calls) !! id = Some l ->
     reqCount (after_calls cfg objects calls) = 1 ->
     dgram_refd (after_calls cfg objects calls) = true /\
     reqCount (fst (unregisterRequest (after_calls cfg objects calls) id)) = 0 /\
     dgram_refd (fst (unregisterRequest (after_calls cfg objects calls) id)) = false).
Proof.
  assert (Hreach : forall cfg objects calls, registry_inv (after_calls cfg objects calls))
    by (intros; apply registry_calls_inv, new_Session_inv).
  split; [|split].
  - intros cfg objects calls. destruct (Hreach cfg objects calls) as [Hc Hr].
    split; [|exact Hc]. rewrite Hr. apply Z.ltb_lt.
  - intros cfg objects calls l req Hl H0.
    pose proof (Hreach cfg objects calls) as Hinv.
    set (s := after_calls cfg objects calls) in *.
    pose proof (registerRequest_inv s l Hinv) as [Hc' Hr'].
    destruct Hinv as [Hc Hr].
    assert (Hempty : reqs s = ∅) by (apply map_size_empty_iff; lia).
    split; [rewrite Hr, H0; reflexivity|].
    assert (Hcount : reqCount (registerRequest s l) = 1).
    { unfold registerRequest. rewrite Hl, Hempty, lookup_empty. simpl. lia. }
    split; [exact Hcount|]. rewrite Hr', Hcount. reflexivity.
  - intros cfg objects calls id l Hl H1.
    pose proof (Hreach cfg objects calls) as Hinv.
    set (s := after_calls cfg objects calls) in *.
    pose proof (unregisterRequest_inv s id Hinv) as [Hc' Hr'].
    destruct Hinv as [Hc Hr].
    split; [rewrite Hr, H1; reflexivity|].
    assert (Hcount : reqCount (fst (unregisterRequest s id)) = 0).
    { rewrite Hc'. unfold unregisterRequest. rewrite Hl.
      assert (Hsize : size (delete id (reqs s)) = pred (size (reqs s)))
        by (apply map_size_delete_Some; eauto).
      destruct (match heap s !! l with Some req => timer req | None => None end);
        simpl; destruct (reqCount s - 1 <=? 0); simpl; rewrite Hsize; lia. }
    split; [exact Hcount|]. rewrite Hr', Hcount. reflexivity.
Qed.

Lemma transport_active_iff_outstanding_witness :
  (dgram_refd (after_calls sample_config {[0%nat := sample_request 1]} []) = false /\
   reqCount (registerRequest
               (after_calls sample_config {[0%nat := sample_request 1]} []) 0) = 1 /\
   dgram_refd (registerRequest
                 (after_calls sample_config {[0%nat := sample_request 1]} []) 0) = true) /\
  (dgram_refd (after_calls sample_config {[0%nat := sample_request 1]} [Register 0]) = true /\
   reqCount (fst (unregisterRequest
       (after_calls sample_config {[0%nat := sample_request 1]} [Register 0]) 7)) = 0 /\
   dgram_refd (fst (unregisterRequest
       (after_calls sample_config {[0%nat := sample_request 1]} [Register 0]) 7)) = false).
Proof.
  split.
  - apply (proj1 (proj2 transport_active_iff_outstanding)
             sample_config {[0%nat := sample_request 1]} [] 0%nat (sample_request 1));
      reflexivity.
  - apply (proj2 (proj2 transport_active_iff_outstanding)
             sample_config {[0%nat := sample_request 1]} [Register 0] 7 0%nat);
      reflexivity.
Defined.

(** ** Registered requests were encoded before *)

Section SentBefore.

Variable codec : Codec.

Lemma encodes_insert h l req req' l0 :
  h !! l = Some req -> message req' = message req ->
  encodes codec h l0 -> encodes codec (<[l := req']> h) l0.
Proof.
  intros Hl Hm (r & b & Hr & Hb). destruct (decide (l0 = l)) as [->|Hne].
  - exists req', b. rewrite lookup_insert_eq. split; [reflexivity|].
    rewrite Hm. congruence.
  - exists r, b. rewrite lookup_insert_ne by auto. auto.
Qed.

Lemma encodes_alter h l l0 :
  encodes codec h l0 -> encodes codec (alter (set_timer None) l h) l0.
Proof.
  intros (r & b & Hr & Hb). destruct (decide (l0 = l)) as [->|Hne].
  - exists (set_timer None r), b. rewrite lookup_alter_eq, Hr. auto.
  - exists r, b. rewrite lookup_alter_ne by auto. auto.
Qed.

Lemma encodes_fresh h req l0 :
  encodes codec h l0 -> encodes codec (<[fresh (dom h) := req]> h) l0.
Proof.
  intros (r & b & Hr & Hb). exists r, b. split; [|exact Hb].
  rewrite lookup_insert_ne; [exact Hr|].
  intros Heq. apply (is_fresh (dom h)). rewrite Heq. apply elem_of_dom. eauto.
Qed.

Lemma sent_inv_heap s s' :
  (forall l, encodes codec (heap s) l -> encodes codec (heap s') l) ->
  sends s' = sends s -> reqs s' = reqs s ->
  sent_inv codec s -> sent_inv codec s'.
Proof.
  intros Hk Hs Hr [H1 H2]. split.
  - rewrite Hs. eapply Forall_impl; [exact H1|]. intros p. apply Hk.
  - rewrite Hr. eapply map_Forall_impl; [exact H2|]. intros ? l1. apply Hk.
Qed.

Lemma registerRequest_sent s l :
  encodes codec (heap s) l -> sent_inv codec s -> sent_inv codec (registerRequest s l).
Proof.
  intros Henc [H1 H2]. unfold registerRequest.
  destruct (heap s !! l) as [req|] eqn:Hl; [|split; assumption].
  assert (Hk : forall req' l0, message req' = message req ->
            encodes codec (heap s) l0 -> encodes codec (<[l := req']> (heap s)) l0)
    by (intros req' l0 Hm; apply (encodes_insert _ _ req); assumption).
  destruct (reqs s !! getId req) eqn:Hid; simpl.
  - split.
    + eapply Forall_impl; [exact H1|]. intros p. apply Hk. reflexivity.
    + eapply map_Forall_impl; [exact H2|]. intros ? l1. apply Hk. reflexivity.
  - split.
    + eapply Forall_impl; [exact H1|]. intros p. apply Hk. reflexivity.
    + apply map_Forall_insert_2.
      * apply Hk; [reflexivity | exact Henc].
      * eapply map_Forall_impl; [exact H2|]. intros ? l1. apply Hk. reflexivity.
Qed.

Lemma unregisterRequest_sent s id :
  sent_inv codec s -> sent_inv codec (fst (unregisterRequest s id)).
Proof.
  intros [H1 H2]. unfold unregisterRequest.
  destruct (reqs s !! id) as [l|] eqn:Hid; [|split; assumption].
  destruct (match heap s !! l with Some req => timer req | None => None end);
    simpl; destruct (reqCount s - 1 <=? 0); simpl;
    (split;
     [eapply Forall_impl; [exact H1|]; intros p; apply encodes_alter
     |apply map_Forall_delete; eapply map_Forall_impl; [exact H2|];
      intros ? l1; apply encodes_alter]).
Qed.

Lemma unregisterRequest_heap s id l0 :
  encodes codec (heap s) l0 -> encodes codec (heap (fst (unregisterRequest s id))) l0.
Proof.
  intros Henc. unfold unregisterRequest.
  destruct (reqs s !! id) as [l|] eqn:Hid; [|exact Henc].
  destruct (match heap s !! l with Some req => timer req | None => None end);
    simpl; destruct (reqCount s - 1 <=? 0); simpl; apply encodes_alter; exact Henc.
Qed.

Lemma send_sent s l noWait : sent_inv codec s -> sent_inv codec (send codec s l noWait).
Proof.
  intros [H1 H2]. unfold send.
  destruct (heap s !! l) as [req|] eqn:Hl; [|split; assumption].
  destruct (toBuffer codec (message req)) as [e|b] eqn:Hb; [split; assumption|].
  split; [|exact H2]. simpl. apply Forall_app. split; [exact H1|].
  constructor; [|constructor]. exists req, b. auto.
Qed.

Lemma send_completed_sent s k error :
  sent_inv codec s -> sent_inv codec (send_completed s k error).
Proof.
  intros [H1 H2]. unfold send_completed.
  destruct (sends s !! k) as [pending|] eqn:Hk; [|split; assumption].
  assert (Hinv : sent_inv codec (set_sends (delete k (sends s)) s))
    by (split; [apply Forall_delete; exact H1 | exact H2]).
  simpl. destruct (heap s !! pending.1) as [req|] eqn:Hl; [|exact Hinv].
  destruct error as [e|]; [exact Hinv|].
  destruct pending.2; [exact Hinv|].
  apply registerRequest_sent; [|exact Hinv].
  exact (Forall_lookup_1 _ _ _ _ H1 Hk).
Qed.

Lemma timer_fired_sent s h : sent_inv codec s -> sent_inv codec (timer_fired codec s h).
Proof.
  intros Hinv. unfold timer_fired.
  destruct (timers s !! h) as [l|] eqn:Ht; [|exact Hinv].
  simpl. destruct (heap s !! l) as [req|] eqn:Hl; [|exact Hinv].
  assert (Hinv2 : sent_inv codec
            (set_heap (<[l := set_retries (retries req - 1) req]> (heap s))
               (set_timers (delete h (timers s)) s))).
  { apply (sent_inv_heap s); [|reflexivity|reflexivity|exact Hinv].
    intros l0. apply (encodes_insert _ _ req); [exact Hl | reflexivity]. }
  destruct (0 <? retries req).
  - apply send_sent. exact Hinv2.
  - apply (unregisterRequest_sent _ (getId req)) in Hinv2. exact Hinv2.
Qed.

Lemma cancel_one_sent error s id :
  sent_inv codec s -> sent_inv codec (cancel_one error s id).
Proof.
  intros Hinv. unfold cancel_one.
  destruct (reqs s !! id) as [l|]; [|exact Hinv].
  destruct (heap s !! l) as [req|]; [|exact Hinv].
  apply (unregisterRequest_sent _ (getId req)) in Hinv. exact Hinv.
Qed.

Lemma cancelRequests_sent s error :
  sent_inv codec s -> sent_inv codec (cancelRequests s error).
Proof.
  unfold cancelRequests. generalize (registered_ids s).
  intros ids. revert s. induction ids as [|id ids IH]; intros s Hinv; simpl; [exact Hinv|].
  apply IH. apply cancel_one_sent. exact Hinv.
Qed.

Lemma onSimpleGetResponse_sent s req reply :
  sent_inv codec s -> sent_inv codec (onSimpleGetResponse s req reply).
Proof.
  intros Hinv. unfold onSimpleGetResponse.
  destruct (0 <? errorStatus (pdu reply)).
  - destruct (ErrorStatus.name (errorStatus (pdu reply)));
      destruct ((errorIndex (pdu reply) <=? 0)
                || (Z.of_nat (length (pdu_varbinds (pdu reply))) <? errorIndex (pdu reply)));
      try exact Hinv;
      destruct (pdu_varbinds (pdu reply) !! Z.to_nat (errorIndex (pdu reply) - 1));
      exact Hinv.
  - destruct (run_feedCb _ _ _); exact Hinv.
Qed.

Lemma sendV3Req_sent s p f cb toPort allow :
  sent_inv codec s -> sent_inv codec (sendV3Req codec s p f cb toPort allow).
Proof.
  intros Hinv. unfold sendV3Req. apply send_sent.
  apply (sent_inv_heap s); [|reflexivity|reflexivity|exact Hinv].
  intros l0. apply encodes_fresh.
Qed.

Lemma onReport_sent s req reply :
  sent_inv codec s -> sent_inv codec (onReport codec s req reply).
Proof.
  intros Hinv. unfold onReport.
  destruct (msgSecurity reply) as [sp|]; [|exact Hinv].
  destruct (proxy (config s)); [exact Hinv|].
  destruct (originalPdu req) as [original|]; [destruct (allowReport req)|].
  - apply sendV3Req_sent. exact Hinv.
  - destruct (pdu_varbinds (pdu reply)) as [|first rest]; [exact Hinv|].
    destruct (starts_with UsmStatsBase (oid first)); exact Hinv.
  - destruct (pdu_varbinds (pdu reply)) as [|first rest]; [exact Hinv|].
    destruct (starts_with UsmStatsBase (oid first)); exact Hinv.
Qed.

Lemma onMsg_sent s decoded : sent_inv codec s -> sent_inv codec (onMsg codec s decoded).
Proof.
  intros Hinv. unfold onMsg. destruct decoded as [error|reply]; [exact Hinv|].
  pose proof (unregisterRequest_sent s (reqId reply) Hinv) as Hinv1.
  destruct (unregisterRequest s (reqId reply)) as [s1 [l|]]; simpl in Hinv1; [|exact Hinv1].
  destruct (heap s1 !! l) as [req|]; [|exact Hinv1].
  destruct (processIncomingSecurity codec reply (session_user (config s1)));
    [exact Hinv1|].
  destruct (negb (version reply =? version (message req))); [exact Hinv1|].
  destruct (negb (bool_decide (community reply = community (message req))));
    [exact Hinv1|].
  destruct (pdu_type (pdu reply) =? PduType.Report); [apply onReport_sent; exact Hinv1|].
  destruct (bool_decide (is_Some (proxy (config s1)))).
  - unfold onProxyResponse. destruct (negb (version reply =? Version3)); exact Hinv1.
  - destruct (pdu_type (pdu reply) =? PduType.GetResponse);
      [apply onSimpleGetResponse_sent; exact Hinv1 | exact Hinv1].
Qed.

Lemma handle_sent s ev : sent_inv codec s -> sent_inv codec (handle codec s ev).
Proof.
  intros Hinv. destruct ev as [k error|h|decoded|]; simpl.
  - apply send_completed_sent. exact Hinv.
  - apply timer_fired_sent. exact Hinv.
  - apply onMsg_sent. exact Hinv.
  - unfold onClose. apply cancelRequests_sent. exact Hinv.
Qed.

(** In every session reached from a fresh one, the message of a
    registered request is one that [toBuffer] encodes. *)
Lemma reached_sent cfg objects actions :
  sent_inv codec (reached codec cfg objects actions).
Proof.
  unfold reached.
  assert (Hnew : sent_inv codec (new_Session cfg objects))
    by (split; [constructor | apply map_Forall_empty]).
  revert Hnew. generalize (new_Session cfg objects).
  induction actions as [|a actions IH]; intros s Hinv; simpl; [exact Hinv|].
  apply IH. destruct a as [l noWait|ev]; simpl.
  - apply send_sent. exact Hinv.
  - apply handle_sent. exact Hinv.
Qed.

End SentBefore.

(** ** Timers *)

(** C4: in a session reached from a fresh one, when the timer of a
    registered request fires and no retry is left (retries = 0), exactly
    one call is made, of its response callback with RequestTimedOutError,
    and its entry leaves the registry, which is empty afterwards when it
    held this request only; when retries are left, the counter is
    decremented and the stored message, which encodes as it did before,
    is sent again, the request stays registered and no response callback
    is called. *)
Theorem timer_fire_times_out_or_resends
    (codec : Codec) (cfg : Config) (objects : gmap nat Req) (actions : list Action)
    (h l : nat) (req : Req) :
  let s := reached codec cfg objects actions in
  timers s !! h = Some l -> heap s !! l = Some req -> reqs s !! getId req = Some l ->
  (retries req <= 0 ->
     log (timer_fired codec s h)
     = log s ++ [Called (responseCb req) (Failure (RequestTimedOutError "Request timed out"))] /\
     reqs (timer_fired codec s h) = delete (getId req) (reqs s) /\
     reqs (timer_fired codec s h) !! getId req = None /\
     (reqs s = {[getId req := l]} -> reqs (timer_fired codec s h) = ∅)) /\
  (0 < retries req ->
     exists buffer,
       toBuffer codec (message req) = inr buffer /\
       log (timer_fired codec s h) = log s ++ [DgramSend buffer (port req)] /\
       heap (timer_fired codec s h) !! l = Some (set_retries (retries req - 1) req) /\
       retries (set_retries (retries req - 1) req) = retries req - 1 /\
       message (set_retries (retries req - 1) req) = message req /\
       reqs (timer_fired codec s h) = reqs s /\
       sends (timer_fired codec s h) = sends s ++ [(l, false)]).
Proof.
  intros s Ht Hh Hr.
  assert (Henc : exists buffer, toBuffer codec (message req) = inr buffer).
  { destruct (reached_sent codec cfg objects actions) as [_ Hreg].
    destruct (Hreg _ _ Hr) as (req0 & buffer & Hreq0 & Hbuffer).
    exists buffer. fold s in Hreq0. congruence. }
  unfold timer_fired. rewrite Ht. simpl. rewrite Hh. split.
  - intros Hret. destruct (Z.ltb_spec 0 (retries req)); [lia|].
    unfold unregisterRequest. simpl. rewrite Hr.
    destruct (match <[l:=set_retries (retries req - 1) req]> (heap s) !! l with
              | Some req0 => timer req0 | None => None end);
      simpl; destruct (reqCount s - 1 <=? 0); simpl;
      (split; [reflexivity|]); (split; [reflexivity|]);
      (split; [apply lookup_delete_eq|]);
      intros ->; apply delete_singleton_eq.
  - intros Hret. destruct Henc as [buffer Hb]. exists buffer.
    destruct (Z.ltb_spec 0 (retries req)); [|lia].
    unfold send. simpl. rewrite lookup_insert_eq. simpl. rewrite Hb. simpl.
    rewrite lookup_insert_eq. repeat split.
Qed.

Lemma timer_fire_times_out_or_resends_witness :
  (log (timer_fired sample_codec
          (reached sample_codec sample_config {[0%nat := sample_request 0]}
             [CallSend 0 false; Occurs (SendCompleted 0 None)]) 0)
   = [DgramSend [] 161;
      Called 0 (Failure (RequestTimedOutError "Request timed out"))] /\
   reqs (timer_fired sample_codec
          (reached sample_codec sample_config {[0%nat := sample_request 0]}
             [CallSend 0 false; Occurs (SendCompleted 0 None)]) 0)
   = ∅) /\
  (log (timer_fired sample_codec
          (reached sample_codec sample_config {[0%nat := sample_request 2]}
             [CallSend 0 false; Occurs (SendCompleted 0 None)]) 0)
   = [DgramSend [] 161; DgramSend [] 161] /\
   retries <$> (heap (timer_fired sample_codec
                        (reached sample_codec sample_config {[0%nat := sample_request 2]}
                           [CallSend 0 false; Occurs (SendCompleted 0 None)]) 0) !! 0%nat)
   = Some 1).
Proof.
  split.
  - destruct (timer_fire_times_out_or_resends sample_codec sample_config
                {[0%nat := sample_request 0]}
                [CallSend 0 false; Occurs (SendCompleted 0 None)]
                0 0 (set_timer (Some 0%nat) (sample_request 0))) as [H _];
      [vm_compute; reflexivity | vm_compute; reflexivity | vm_compute; reflexivity |].
    destruct H as (Hlog & _ & _ & Hempty); [simpl; lia|].
    split; [exact Hlog | apply Hempty; vm_compute; reflexivity].
  - destruct (timer_fire_times_out_or_resends sample_codec sample_config
                {[0%nat := sample_request 2]}
                [CallSend 0 false; Occurs (SendCompleted 0 None)]
                0 0 (set_timer (Some 0%nat) (sample_request 2))) as [_ H];
      [vm_compute; reflexivity | vm_compute; reflexivity | vm_compute; reflexivity |].
    destruct (H ltac:(simpl; lia)) as (buffer & Hb & Hlog & Hheap & Hretries & _).
    assert (Hbuffer : buffer = []) by (simpl in Hb; congruence).
    rewrite Hbuffer in Hlog. split; [exact Hlog|].
    rewrite Hheap. simpl. reflexivity.
Defined.

(** ** Reports *)

Section ReportProofs.



Lemma prefix_inv p : forall s, String.prefix p s = true -> exists rest, s = p +:+ rest.
Proof.
  induction p as [|a p IH]; intros s H.
  - exists s. reflexivity.
  - destruct s as [|b s]; simpl in H; [discriminate|].
    destruct (ascii_dec a b) as [->|]; [|discriminate].
    destruct (IH s H) as [rest ->]. exists rest. reflexivity.
Qed.

Lemma split_dot_append_dot a b :
  split_dot (a +:+ String dot b) = split_dot a ++ split_dot b.
Proof.
  induction a as [|c a IH]; simpl.
  - reflexivity.
  - destruct (Ascii.eqb c dot).
    + rewrite IH. reflexivity.
    + rewrite IH. destruct (split_dot a) as [|x xs] eqn:E.
      * exfalso. revert E. apply split_dot_nonempty.
      * reflexivity.
Qed.

Lemma oidInSubtree_below base rest :
  oidInSubtree base (base +:+ String dot rest) = true.
Proof.
  unfold oidInSubtree. rewrite split_dot_append_dot, length_app.
  destruct (Nat.ltb_spec (length (split_dot base) + length (split_dot rest))
              (length (split_dot base))); [lia|].
  apply components_match_prefix. apply prefix_app_r. reflexivity.
Qed.






End ReportProofs.

Section ReportBranch.

Variable codec : Codec.



End ReportBranch.





(** ** The registry entry is gone before the callback is called *)

Section RemovalBeforeCall.

Variable codec : Codec.

Lemma send_reqs s l noWait : reqs (send codec s l noWait) = reqs s.
Proof.
  unfold send. destruct (heap s !! l) as [req|]; [|reflexivity].
  destruct (toBuffer codec (message req)); reflexivity.
Qed.

Lemma sendV3Req_reqs s p f cb toPort allow :
  reqs (sendV3Req codec s p f cb toPort allow) = reqs s.
Proof. unfold sendV3Req. rewrite send_reqs. reflexivity. Qed.

Lemma onReport_reqs s req reply : reqs (onReport codec s req reply) = reqs s.
Proof.
  unfold onReport. destruct (msgSecurity reply) as [sp|]; [|reflexivity].
  destruct (proxy (config s)); [reflexivity|].
  destruct (originalPdu req) as [original|].
  - destruct (allowReport req).
    + rewrite sendV3Req_reqs. reflexivity.
    + destruct (pdu_varbinds (pdu reply)) as [|first rest]; [reflexivity|].
      destruct (starts_with UsmStatsBase (oid first)); reflexivity.
  - destruct (pdu_varbinds (pdu reply)) as [|first rest]; [reflexivity|].
    destruct (starts_with UsmStatsBase (oid first)); reflexivity.
Qed.

Lemma onSimpleGetResponse_reqs s req reply :
  reqs (onSimpleGetResponse s req reply) = reqs s.
Proof.
  unfold onSimpleGetResponse. destruct (0 <? errorStatus (pdu reply)).
  - destruct (ErrorStatus.name (errorStatus (pdu reply)));
      destruct ((errorIndex (pdu reply) <=? 0)
                || (Z.of_nat (length (pdu_varbinds (pdu reply))) <? errorIndex (pdu reply)));
      try reflexivity;
      destruct (pdu_varbinds (pdu reply) !! Z.to_nat (errorIndex (pdu reply) - 1));
      reflexivity.
  - destruct (run_feedCb _ _ _); reflexivity.
Qed.

(** Reply dispatch: whatever [onMsg] goes on to call, the entry of the
    reply's id has left the registry. *)
Lemma onMsg_removes_entry s reply :
  reqs (onMsg codec s (inr reply)) !! reqId reply = None.
Proof.
  unfold onMsg, unregisterRequest.
  destruct (reqs s !! reqId reply) as [l|] eqn:Hl; [|exact Hl].
  assert (Hgone : forall s', reqs s' = delete (reqId reply) (reqs s) ->
            reqs s' !! reqId reply = None)
    by (intros s' ->; apply lookup_delete_eq).
  match goal with
  | |- reqs (match ?h with Some req => _ | None => ?s1 end) !! _ = None =>
      assert (Hs1 : reqs s1 = delete (reqId reply) (reqs s));
      [ destruct (match heap s !! l with Some req => timer req | None => None end);
        simpl; destruct (reqCount s - 1 <=? 0); reflexivity
      | destruct h as [req|]; [|apply Hgone; exact Hs1] ]
  end.
  destruct (processIncomingSecurity codec reply _); [apply Hgone; exact Hs1|].
  destruct (negb (version reply =? version (message req))); [apply Hgone; exact Hs1|].
  destruct (negb (bool_decide (community reply = community (message req))));
    [apply Hgone; exact Hs1|].
  destruct (pdu_type (pdu reply) =? PduType.Report).
  { apply Hgone. rewrite onReport_reqs. exact Hs1. }
  destruct (bool_decide _).
  { apply Hgone. unfold onProxyResponse. destruct (negb _); exact Hs1. }
  destruct (pdu_type (pdu reply) =? PduType.GetResponse).
  { apply Hgone. rewrite onSimpleGetResponse_reqs. exact Hs1. }
  apply Hgone. exact Hs1.
Qed.

End RemovalBeforeCall.

(** ** Deliveries over time *)

(** On the usual course of events the reply clears the timer and the
    callback is called once. *)
Example reply_then_stale_timer :
  delivered 0
    (log (run sample_codec sample_sent
            [SendCompleted 0 None; Datagram (inr sample_reply); TimerFired 0]))
  = [Success (Varbinds [text_varbind "1.3.6.1.2.1.1.5.0" "host"])].
Proof. vm_compute. reflexivity. Qed.

(** C2, the code on two courses of events. In the first the timer fires
    with one retry left and the message is handed to the socket again;
    the reply arrives before the callback of that [dgram.send] runs, is
    dispatched and delivered; the callback of [dgram.send] then registers
    the request anew, and when the new timer fires without a retry left a
    timeout is delivered to the same response callback. In the second the
    retransmission fails in the callback of [dgram.send], which calls the
    response callback without unregistering the request, and the
    cancellation at the close of the socket calls it again. *)
Theorem request_outcome_delivered_twice :
  delivered 0
    (log (run sample_codec sample_sent
            [SendCompleted 0 None; TimerFired 0; Datagram (inr sample_reply);
             SendCompleted 0 None; TimerFired 1]))
  = [Success (Varbinds [text_varbind "1.3.6.1.2.1.1.5.0" "host"]);
     Failure (RequestTimedOutError "Request timed out")] /\
  delivered 0
    (log (run sample_codec sample_sent
            [SendCompleted 0 None; TimerFired 0;
             SendCompleted 0 (Some (OtherError "send ENETUNREACH")); SocketClosed]))
  = [Failure (OtherError "send ENETUNREACH");
     Failure (OtherError "Socket forcibly closed")].
Proof. split; vm_compute; reflexivity. Qed.

(* ===================================================================== *)
(** * Further properties of the code *)
(* ===================================================================== *)

(** ** Decoding values *)

Section DecodingProofs.

Lemma pad_loop_long rounds (buffer : Buffer) :
  (8 <= length buffer)%nat -> pad_loop rounds buffer = buffer.
Proof.
  intros H. destruct rounds; simpl; [reflexivity|].
  destruct (Nat.ltb_spec (length buffer) 8); [lia | reflexivity].
Qed.

Lemma pad_loop_length (buffer : Buffer) : (8 <= length (pad_loop 8 buffer))%nat.
Proof.
  do 9 (destruct buffer as [|? buffer]; [simpl; lia|]).
  rewrite pad_loop_long; simpl; lia.
Qed.

Lemma pad_loop_length_long (buffer : Buffer) :
  length (pad_loop 8 buffer) = Nat.max 8 (length buffer).
Proof.
  do 9 (destruct buffer as [|? buffer]; [simpl; lia|]).
  rewrite pad_loop_long; simpl; lia.
Qed.

Lemma readUInt32BE_Some (buffer : Buffer) offset :
  is_Some (readUInt32BE buffer offset) <-> (offset + 4 <= length buffer)%nat.
Proof.
  unfold readUInt32BE.
  pose proof (length_drop buffer offset) as Hl.
  destruct (drop offset buffer) as [|b0 [|b1 [|b2 [|b3 rest]]]]; simpl in Hl;
    (split; [intros [x Hx]; try discriminate; lia | intros H; try lia; eauto]).
Qed.

Lemma readInt32BE_Some (buffer : Buffer) offset :
  is_Some (readInt32BE buffer offset) <-> (offset + 4 <= length buffer)%nat.
Proof.
  rewrite <- readUInt32BE_Some. unfold readInt32BE.
  destruct (readUInt32BE buffer offset); split; intros [x Hx]; try discriminate; eauto.
Qed.

Lemma readInt64BEasFloat_short (buffer : Buffer) :
  (length buffer <= 8)%nat -> be_unsigned buffer < 2 ^ 53 ->
  readInt64BEasFloat buffer 0 = Some (be_unsigned buffer).
Proof.
  intros Hlen Hv.
  assert (Hpad : exists b0 b1 b2 b3 b4 b5 b6 b7,
             pad_loop 8 buffer = [b0; b1; b2; b3; b4; b5; b6; b7] /\
             be_unsigned [b0; b1; b2; b3; b4; b5; b6; b7] = be_unsigned buffer).
  { do 9 (destruct buffer as [|? buffer];
          [do 8 eexists; split; [reflexivity | unfold be_unsigned; simpl;
             change (byte_val x00) with 0; lia]|]).
    simpl in Hlen. lia. }
  destruct Hpad as (b0 & b1 & b2 & b3 & b4 & b5 & b6 & b7 & Hp & Hb).
  rewrite <- Hb in *.
  pose proof (readInt64BEasFloat_eight b0 b1 b2 b3 b4 b5 b6 b7 Hv) as H8.
  unfold readInt64BEasFloat in *. rewrite Hp.
  change (pad_loop 8 [b0; b1; b2; b3; b4; b5; b6; b7])
    with [b0; b1; b2; b3; b4; b5; b6; b7] in H8. exact H8.
Qed.

(** Reading at the offset [length - 8] of a long buffer is reading its
    last eight bytes. *)
Lemma readInt64BEasFloat_last_eight (buffer : Buffer) :
  readInt64BEasFloat buffer (Nat.max 0 (length buffer - 8))
  = readInt64BEasFloat (last_eight buffer) 0.
Proof.
  unfold last_eight. destruct (decide (length buffer <= 8)%nat) as [Hs|Hl].
  - replace (length buffer - 8)%nat with 0%nat by lia. reflexivity.
  - unfold readInt64BEasFloat.
    rewrite (pad_loop_long 8 buffer) by lia.
    rewrite (pad_loop_long 8 (drop (length buffer - 8) buffer))
      by (rewrite length_drop; lia).
    unfold readInt32BE, readUInt32BE. rewrite !drop_drop.
    rewrite Nat.max_r by lia. rewrite Nat.add_0_r. reflexivity.
Qed.

Lemma readInt64BEasFloat_Some_iff (buffer : Buffer) (offset : nat) :
  is_Some (readInt64BEasFloat buffer offset)
  <-> (offset + 8 <= Nat.max 8 (length buffer))%nat.
Proof.
  rewrite <- pad_loop_length_long.
  unfold readInt64BEasFloat.
  pose proof (readInt32BE_Some (pad_loop 8 buffer) (offset + 4)) as Hlow.
  pose proof (readInt32BE_Some (pad_loop 8 buffer) offset) as Hhigh.
  destruct (readInt32BE (pad_loop 8 buffer) (offset + 4)) as [low|].
  - destruct (readInt32BE (pad_loop 8 buffer) offset) as [high|].
    + split; [intros _|eauto]. destruct Hlow as [Hlow _].
      specialize (Hlow ltac:(eauto)). lia.
    + split; [intros [x Hx]; discriminate|]. intros Hb.
      destruct Hhigh as [_ Hhigh]. destruct Hhigh as [x Hx]; [lia | discriminate].
  - split; [intros [x Hx]; discriminate|]. intros Hb.
    destruct Hlow as [_ Hlow]. destruct Hlow as [x Hx]; [lia | discriminate].
Qed.

End DecodingProofs.

(** X1: [readInt64BEasFloat(buffer, offset)] returns a number exactly when
    eight bytes lie at [offset] in the buffer as padded to eight bytes;
    otherwise [readInt32BE] raises its RangeError. At offset 0 it returns
    a number for every buffer, the empty one included. *)
Theorem readInt64BEasFloat_defined_iff_in_bounds :
  (forall (buffer : Buffer) (offset : nat),
     is_Some (readInt64BEasFloat buffer offset)
     <-> (offset + 8 <= Nat.max 8 (length buffer))%nat) /\
  (forall buffer : Buffer, is_Some (readInt64BEasFloat buffer 0)) /\
  readInt64BEasFloat [] 0 = Some 0.
Proof.
  split; [exact readInt64BEasFloat_Some_iff|]. split; [|reflexivity].
  intros buffer. apply readInt64BEasFloat_Some_iff. lia.
Qed.

(** X2: A Counter64 value is decoded from the last eight bytes of its octet
    string, whatever the length of the string: the call never ends in a
    RangeError, and when those bytes hold a value below 2^53 the value is
    returned exactly. *)
Theorem readVarbindValue_Counter64_last_eight
    (reader : BerReader) (opaque : option Buffer -> option TauReader) (buf : Buffer) :
  readString_buffer reader = Some (Some buf) ->
  exists n,
    readVarbindValue reader opaque ObjectType.Counter64 = inr (VNumber n) /\
    readInt64BEasFloat (last_eight buf) 0 = Some n /\
    (be_unsigned (last_eight buf) < 2 ^ 53 -> n = be_unsigned (last_eight buf)).
Proof.
  intros Hread.
  assert (Hlen : (length (last_eight buf) <= 8)%nat)
    by (unfold last_eight; rewrite length_drop; lia).
  destruct (proj2 (readInt64BEasFloat_Some_iff (last_eight buf) 0) ltac:(lia))
    as [n Hn].
  exists n. split; [|split].
  - unfold readVarbindValue. simpl. rewrite Hread. unfold float_from.
    rewrite readInt64BEasFloat_last_eight, Hn. reflexivity.
  - exact Hn.
  - intros Hv. rewrite (readInt64BEasFloat_short _ Hlen Hv) in Hn. congruence.
Qed.

Lemma readVarbindValue_Counter64_last_eight_witness :
  exists n,
    readVarbindValue
      (mkBerReader None None None
         (Some (Some [xff; x00; x00; x00; x00; x00; x00; x00; x01; x02])) None None)
      (fun _ => None) ObjectType.Counter64 = inr (VNumber n) /\
    readInt64BEasFloat (last_eight [xff; x00; x00; x00; x00; x00; x00; x00; x01; x02]) 0
    = Some n /\
    (be_unsigned (last_eight [xff; x00; x00; x00; x00; x00; x00; x00; x01; x02]) < 2 ^ 53 ->
     n = be_unsigned (last_eight [xff; x00; x00; x00; x00; x00; x00; x00; x01; x02])).
Proof.
  apply (readVarbindValue_Counter64_last_eight
           (mkBerReader None None None
              (Some (Some [xff; x00; x00; x00; x00; x00; x00; x00; x01; x02])) None None)
           (fun _ => None) [xff; x00; x00; x00; x00; x00; x00; x00; x01; x02]).
  reflexivity.
Defined.

(** X3: A value that [readVarbindValue] returns lies in the range of its
    type: an Integer within the signed 32-bit range, a Counter, Gauge or
    TimeTicks within the unsigned 32-bit range, an IpAddress of exactly
    four bytes, a Counter64 or Opaque a number. *)
Theorem readVarbindValue_value_in_range
    (reader : BerReader) (opaque : option Buffer -> option TauReader)
    (type : Z) (v : Value) :
  readVarbindValue reader opaque type = inr v ->
  (type = ObjectType.Integer ->
     exists n, v = VNumber n /\ -2147483648 <= n <= 2147483647) /\
  (type = ObjectType.Counter \/ type = ObjectType.Gauge \/ type = ObjectType.TimeTicks ->
     exists n, v = VNumber n /\ 0 <= n <= 4294967295) /\
  (type = ObjectType.IpAddress -> exists bytes, v = VBuffer bytes /\ length bytes = 4%nat) /\
  (type = ObjectType.Counter64 \/ type = ObjectType.Opaque -> exists n, v = VNumber n).
Proof.
  intros Hv.
  assert (Hsigned : number_from (readInt reader) readInt32 = inr v ->
            exists n, v = VNumber n /\ -2147483648 <= n <= 2147483647).
  { unfold number_from. destruct (readInt reader) as [[z|]|]; simpl; try discriminate.
    destruct (Z.ltb_spec z (-2147483648)); simpl; [discriminate|].
    destruct (Z.ltb_spec 2147483647 z); simpl; [discriminate|].
    intros [= <-]. exists z. split; [reflexivity | lia]. }
  assert (Hunsigned : number_from (readInt reader) readUint32 = inr v ->
            exists n, v = VNumber n /\ 0 <= n <= 4294967295).
  { unfold number_from. destruct (readInt reader) as [[z|]|]; simpl; try discriminate.
    pose proof (Z.mod_pos_bound z (2 ^ 32) ltac:(lia)) as Hb. unfold to_uint32.
    destruct (Z.ltb_spec (z mod 2 ^ 32) 0); simpl; [discriminate|].
    destruct (Z.ltb_spec 4294967295 (z mod 2 ^ 32)); simpl; [discriminate|].
    intros [= <-]. exists (z mod 2 ^ 32). split; [reflexivity | lia]. }
  assert (Hfloat : forall buffer offset, float_from buffer offset = inr v ->
            exists n, v = VNumber n).
  { intros buffer offset. unfold float_from.
    destruct (readInt64BEasFloat buffer offset); [|discriminate].
    intros [= <-]. eauto. }
  repeat split.
  - intros ->. apply Hsigned. exact Hv.
  - intros [-> | [-> | ->]]; apply Hunsigned; exact Hv.
  - intros ->. unfold readVarbindValue in Hv. simpl in Hv.
    destruct (readString_buffer reader) as [[bytes|]|]; try discriminate.
    destruct (Nat.eqb_spec (length bytes) 4); simpl in Hv; [|discriminate].
    injection Hv as <-. eauto.
  - intros [-> | ->]; unfold readVarbindValue in Hv; simpl in Hv.
    + destruct (readString_buffer reader) as [[buf|]|]; try discriminate. eauto.
    + destruct (readString_buffer reader) as [opaqueBuffer|]; [|discriminate].
      destruct (opaque opaqueBuffer) as [tau|]; [|discriminate].
      destruct (bool_decide (firstTau tau = Some 9)); [|discriminate]. eauto.
Qed.

Lemma readVarbindValue_value_in_range_witness :
  exists n, VNumber 4294967295 = VNumber n /\ 0 <= n <= 4294967295.
Proof.
  apply (readVarbindValue_value_in_range
           (mkBerReader None (Some (IntegerRead (-1))) None None None None)
           (fun _ => None) ObjectType.Gauge (VNumber 4294967295) eq_refl).
  right. left. reflexivity.
Defined.

(** X4: [readVarbindValue] raises its 'Unknown ObjectType' TypeError exactly
    for the types it has no branch for. BitString is one of them, though
    [ObjectType] names it. *)
Theorem readVarbindValue_unknown_type_iff
    (reader : BerReader) (opaque : option Buffer -> option TauReader) (type : Z) :
  (readVarbindValue reader opaque type = inl (UnknownObjectType type)
   <-> type ∉ decoded_types) /\
  ObjectType.name ObjectType.BitString = Some "BitString"%string /\
  readVarbindValue reader opaque ObjectType.BitString
  = inl (UnknownObjectType ObjectType.BitString).
Proof.
  split; [|split; reflexivity]. split.
  - intros Hres Hin. apply list_elem_of_In in Hin. simpl in Hin.
    unfold readVarbindValue, number_from, from_reader, float_from in Hres.
    decompose [or] Hin; subst; try contradiction; simpl in Hres;
      repeat match type of Hres with
             | context [match ?x with _ => _ end] => destruct x
             end; discriminate.
  - intros Hnot.
    assert (Hne : forall c, In c decoded_types -> (type =? c) = false).
    { intros c Hc. apply Z.eqb_neq. intros ->. apply Hnot.
      apply list_elem_of_In. exact Hc. }
    unfold readVarbindValue. rewrite !Hne by (simpl; tauto). reflexivity.
Qed.

(** ** Subtrees of OIDs *)

Section SubtreeOrder.

Lemma join_split_dot s : join_dot (split_dot s) = s.
Proof.
  induction s as [|c s IH]; simpl; [reflexivity|].
  destruct (Ascii.eqb_spec c dot) as [->|Hne].
  - pose proof (split_dot_nonempty s) as Hs.
    destruct (split_dot s) as [|p ps]; [congruence|].
    change (join_dot (EmptyString :: p :: ps)) with (String dot (join_dot (p :: ps))).
    rewrite IH. reflexivity.
  - pose proof (split_dot_nonempty s) as Hs.
    destruct (split_dot s) as [|p ps]; [congruence|].
    destruct ps as [|q ps]; simpl in *; rewrite <- IH; reflexivity.
Qed.

Lemma split_dot_inj a b : split_dot a = split_dot b -> a = b.
Proof.
  intros H. rewrite <- (join_split_dot a), <- (join_split_dot b), H. reflexivity.
Qed.

Lemma append_cons c (a b : string) : String c a +:+ b = String c (a +:+ b).
Proof. reflexivity. Qed.

Lemma append_assoc (a b c : string) : (a +:+ b) +:+ c = a +:+ (b +:+ c).
Proof.
  induction a as [|x a IH]; [reflexivity|]. rewrite !append_cons. f_equal. exact IH.
Qed.

Lemma join_dot_app a b :
  a <> [] -> b <> [] -> join_dot (a ++ b) = join_dot a +:+ String dot (join_dot b).
Proof.
  intros Ha Hb. induction a as [|p a IH]; [congruence|].
  destruct a as [|q a].
  - destruct b as [|r b]; [congruence|]. reflexivity.
  - change (join_dot ((p :: q :: a) ++ b))
      with (p +:+ String dot (join_dot ((q :: a) ++ b))).
    rewrite IH by discriminate.
    change (join_dot (p :: q :: a)) with (p +:+ String dot (join_dot (q :: a))).
    rewrite append_assoc. reflexivity.
Qed.

Lemma oidInSubtree_prefix base cand :
  oidInSubtree base cand = true <-> split_dot base `prefix_of` split_dot cand.
Proof.
  unfold oidInSubtree.
  destruct (Nat.ltb_spec (length (split_dot cand)) (length (split_dot base))) as [Hlt|Hle].
  - split; [discriminate|]. intros H. apply prefix_length in H. lia.
  - apply components_match_prefix.
Qed.

Lemma oidInSubtree_cases base cand :
  oidInSubtree base cand = true
  <-> cand = base \/ exists rest, cand = base +:+ String dot rest.
Proof.
  split.
  - intros H. apply oidInSubtree_prefix in H. destruct H as [k Hk].
    destruct k as [|p k].
    + left. rewrite app_nil_r in Hk. apply split_dot_inj. exact Hk.
    + right. exists (join_dot (p :: k)).
      rewrite <- (join_split_dot cand), Hk.
      rewrite join_dot_app; [|apply split_dot_nonempty|discriminate].
      rewrite join_split_dot. reflexivity.
  - intros [->|[rest ->]].
    + apply oidInSubtree_prefix. reflexivity.
    + apply oidInSubtree_below.
Qed.

Lemma scan_below a : forall rest n,
  scan (a +:+ String dot rest) n
  = (fst (scan a n),
     if has_dot a then snd (scan a n) +:+ String dot rest else rest) /\
  (has_dot a = false -> snd (scan a n) = EmptyString).
Proof.
  induction a as [|c a IH]; intros rest n.
  - split; reflexivity.
  - rewrite append_cons. simpl. rewrite charCode_dot.
    destruct (Ascii.eqb c dot); simpl.
    + split; [reflexivity | discriminate].
    + apply IH.
Qed.

Lemma follows_unread_below fuel : forall a rest,
  (String.length a < fuel)%nat ->
  follows_unread fuel a (a +:+ String dot rest) = Some true.
Proof.
  induction fuel as [|fuel IH]; intros a rest Hf; [lia|].
  destruct a as [|c a]; [reflexivity|].
  change (follows_unread (S fuel) (String c a) (String c a +:+ String dot rest))
    with (let '(o, a') := scan (String c a) 0 in
          let '(n, b') := scan (String c a +:+ String dot rest) 0 in
          if o <? n then Some true
          else if n <? o then Some false
          else follows_unread fuel a' b').
  destruct (scan_below (String c a) rest 0) as [Hs He].
  pose proof (scan_shorter (String c a) 0 ltac:(discriminate)) as Hshort.
  rewrite Hs. destruct (scan (String c a) 0) as [o a'] eqn:Ea. simpl fst. simpl snd.
  simpl in Hshort.
  rewrite Z.ltb_irrefl.
  destruct (has_dot (String c a)) eqn:Hd.
  - apply IH. simpl in Hf. lia.
  - simpl in He. rewrite (He eq_refl). destruct fuel; [simpl in Hf; lia | reflexivity].
Qed.

End SubtreeOrder.

(** X6: [oidInSubtree(base, candidate)] holds exactly when the candidate is
    the base itself or the base followed by a dot and anything more; so
    an OID that merely begins with the characters of the base
    ('1.3.60' for the base '1.3.6') is not in the subtree. *)
Theorem oidInSubtree_iff_dot_extension :
  (forall base cand : string,
     oidInSubtree base cand = true
     <-> cand = base \/ exists rest, cand = base +:+ String dot rest) /\
  oidInSubtree "1.3.6" "1.3.60" = false.
Proof. split; [exact oidInSubtree_cases | reflexivity]. Qed.

(** X7: [oidInSubtree] orders strings: every OID is in its own subtree, a
    subtree of a subtree is a subtree, and two OIDs that are in each
    other's subtree are the same string. *)
Theorem oidInSubtree_partial_order :
  (forall a : string, oidInSubtree a a = true) /\
  (forall a b c : string,
     oidInSubtree a b = true -> oidInSubtree b c = true -> oidInSubtree a c = true) /\
  (forall a b : string,
     oidInSubtree a b = true -> oidInSubtree b a = true -> a = b).
Proof.
  split; [|split].
  - intros a. apply oidInSubtree_prefix. reflexivity.
  - intros a b c Hab Hbc. apply oidInSubtree_prefix.
    apply oidInSubtree_prefix in Hab. apply oidInSubtree_prefix in Hbc.
    etransitivity; eassumption.
  - intros a b Hab Hba. apply split_dot_inj.
    apply oidInSubtree_prefix in Hab. apply oidInSubtree_prefix in Hba.
    apply (anti_symm prefix); assumption.
Qed.

(** X8: Every OID in the subtree of a base is one that [oidFollowsOid]
    accepts as following the base, whatever the strings hold. *)
Theorem oidInSubtree_follows (base cand : string) :
  oidInSubtree base cand = true -> oidFollowsOid base cand = Some true.
Proof.
  intros H. rewrite oidFollowsOid_unread.
  apply oidInSubtree_cases in H. destruct H as [->|[rest ->]].
  - apply follows_unread_refl. lia.
  - apply follows_unread_below. lia.
Qed.

Lemma oidInSubtree_follows_witness :
  oidFollowsOid "1.3.6.1.2.1.2" "1.3.6.1.2.1.2.2.1.10.3" = Some true.
Proof. apply oidInSubtree_follows. reflexivity. Defined.

(** ** The feed callbacks of get, set, inform and getNext *)

Section FeedProofs.

Lemma map_oid_cons_inv (a b : Varbind) (l l' : list Varbind) :
  map oid (a :: l) = map oid (b :: l') -> oid a = oid b /\ map oid l = map oid l'.
Proof. simpl. intros [= H1 H2]. auto. Qed.

(** The loop of get, set and inform hands on the whole reply when no
    check fails. *)
Lemma match_round_success check place reqRest : forall replyRest i acc,
  length reqRest = length replyRest ->
  (check = true -> map oid reqRest = map oid replyRest) ->
  match_round check place i reqRest replyRest acc = Success (Varbinds (acc ++ replyRest)).
Proof.
  induction reqRest as [|rq reqRest IH]; intros [|rp replyRest] i acc Hl Hc;
    simpl in Hl; try discriminate.
  - simpl. rewrite app_nil_r. reflexivity.
  - simpl. destruct check; simpl.
    + destruct (map_oid_cons_inv _ _ _ _ (Hc eq_refl)) as [Ho Hm].
      rewrite Ho, String.eqb_refl. simpl.
      rewrite IH by (auto || lia). rewrite <- app_assoc. reflexivity.
    + rewrite IH by (lia || discriminate). rewrite <- app_assoc. reflexivity.
Qed.

(** With the check on, the loop stops at the first position where the
    OIDs differ and names it. *)
Lemma match_round_failure place reqRest : forall replyRest i acc,
  length reqRest = length replyRest ->
  map oid reqRest <> map oid replyRest ->
  exists k rq rp,
    reqRest !! k = Some rq /\ replyRest !! k = Some rp /\ oid rq <> oid rp /\
    map oid (take k reqRest) = map oid (take k replyRest) /\
    match_round true place i reqRest replyRest acc
    = Failure (ResponseInvalidError
                 (oid_message (oid rq) place (i + k) "does not match" (oid rp) (i + k))
                 (Some ResponseInvalidCode.EReqResOidNoMatch)).
Proof.
  induction reqRest as [|rq reqRest IH]; intros [|rp replyRest] i acc Hl Hne;
    simpl in Hl; try discriminate.
  - congruence.
  - destruct (String.eqb_spec (oid rq) (oid rp)) as [Heq|Hdiff].
    + destruct (IH replyRest (S i) (acc ++ [rp])) as (k & a & b & Ha & Hb & Hab & Hpre & Hres).
      { lia. } { simpl in Hne. congruence. }
      exists (S k), a, b. repeat split; try assumption.
      * simpl. rewrite Heq, Hpre. reflexivity.
      * simpl. rewrite Heq, String.eqb_refl. simpl. rewrite Hres.
        replace (S i + k)%nat with (i + S k)%nat by lia. reflexivity.
    + exists 0%nat, rq, rp. repeat split; try assumption; try reflexivity.
      simpl. destruct (String.eqb_spec (oid rq) (oid rp)); [congruence|].
      simpl. rewrite Nat.add_0_r. reflexivity.
Qed.

Lemma match_round_success_inv check place reqRest : forall replyRest i acc data,
  length reqRest = length replyRest ->
  match_round check place i reqRest replyRest acc = Success data ->
  data = Varbinds (acc ++ replyRest) /\ (check = true -> map oid reqRest = map oid replyRest).
Proof.
  intros replyRest i acc data Hl Hres.
  destruct check.
  - destruct (list_eq_dec (map oid reqRest) (map oid replyRest)) as [Heq|Hne].
    + rewrite match_round_success in Hres by auto. injection Hres as <-. auto.
    + destruct (match_round_failure place reqRest replyRest i acc Hl Hne)
        as (k & a & b & _ & _ & _ & _ & Hf).
      rewrite Hf in Hres. discriminate.
  - rewrite match_round_success in Hres by (auto || discriminate).
    injection Hres as <-. split; [reflexivity | discriminate].
Qed.




End FeedProofs.

(** X9: The feed callbacks of [get] and [set] (the same code) hand the
    response callback the reply's varbinds exactly when the reply has as
    many varbinds as the request and, with reportOidMismatchErrors on,
    carries the request's OIDs in order; otherwise the callback gets a
    ResponseInvalidError with the code EReqResOidNoMatch, which for an
    OID that differs names the first position where it does. *)
Theorem get_feedCb_succeeds_iff (reportOidMismatchErrors : bool)
    (reqVarbinds replyVarbinds : list Varbind) :
  (get_feedCb reportOidMismatchErrors reqVarbinds replyVarbinds
   = Responded (Success (Varbinds replyVarbinds))
   <-> length reqVarbinds = length replyVarbinds /\
       (reportOidMismatchErrors = true -> map oid reqVarbinds = map oid replyVarbinds)) /\
  (length reqVarbinds <> length replyVarbinds ->
   get_feedCb reportOidMismatchErrors reqVarbinds replyVarbinds
   = Responded (Failure (ResponseInvalidError "Requested OIDs do not match response OIDs"
                           (Some ResponseInvalidCode.EReqResOidNoMatch)))) /\
  (length reqVarbinds = length replyVarbinds -> reportOidMismatchErrors = true ->
   map oid reqVarbinds <> map oid replyVarbinds ->
   exists k rq rp,
     reqVarbinds !! k = Some rq /\ replyVarbinds !! k = Some rp /\ oid rq <> oid rp /\
     map oid (take k reqVarbinds) = map oid (take k replyVarbinds) /\
     get_feedCb reportOidMismatchErrors reqVarbinds replyVarbinds
     = Responded (Failure (ResponseInvalidError
                             (oid_message (oid rq) "request at position" k "does not match"
                                (oid rp) k)
                             (Some ResponseInvalidCode.EReqResOidNoMatch)))) /\
  set_feedCb reportOidMismatchErrors reqVarbinds replyVarbinds
  = get_feedCb reportOidMismatchErrors reqVarbinds replyVarbinds.
Proof.
  split; [|split; [|split; [|reflexivity]]]; unfold get_feedCb;
    destruct (Nat.eqb_spec (length reqVarbinds) (length replyVarbinds)) as [Hl|Hl]; simpl.
  - split.
    + intros [= H]. split; [exact Hl|].
      apply (match_round_success_inv _ _ _ _ _ _ _ Hl H).
    + intros [_ Hc]. rewrite match_round_success by assumption. reflexivity.
  - split; [discriminate|]. intros [H _]. congruence.
  - intros H. congruence.
  - reflexivity.
  - intros _ -> Hne.
    destruct (match_round_failure "request at position" reqVarbinds replyVarbinds 0 []
                Hl Hne) as (k & a & b & Ha & Hb & Hab & Hpre & Hres).
    exists k, a, b. rewrite Hres. auto.
  - intros H. congruence.
Qed.

(** X10: The feed callback of [inform] always checks the OIDs: it hands on
    the reply's varbinds exactly when the reply carries the OIDs of the
    request, one for one and in order. *)
Theorem inform_feedCb_succeeds_iff (reqVarbinds replyVarbinds : list Varbind) :
  (inform_feedCb reqVarbinds replyVarbinds = Responded (Success (Varbinds replyVarbinds))
   <-> map oid reqVarbinds = map oid replyVarbinds) /\
  (map oid reqVarbinds <> map oid replyVarbinds ->
   exists message,
     inform_feedCb reqVarbinds replyVarbinds
     = Responded (Failure (ResponseInvalidError message
                             (Some ResponseInvalidCode.EReqResOidNoMatch)))).
Proof.
  unfold inform_feedCb.
  destruct (Nat.eqb_spec (length reqVarbinds) (length replyVarbinds)) as [Hl|Hl]; simpl.
  - split.
    + split.
      * intros [= H]. apply (match_round_success_inv _ _ _ _ _ _ _ Hl H). reflexivity.
      * intros Hc. rewrite match_round_success by auto. reflexivity.
    + intros Hne.
      destruct (match_round_failure "inform at positiion" reqVarbinds replyVarbinds 0 []
                  Hl Hne) as (k & a & b & _ & _ & _ & _ & Hres).
      rewrite Hres. eauto.
  - split.
    + split; [discriminate|]. intros H. exfalso. apply Hl.
      apply (f_equal length) in H. rewrite !length_map in H. exact H.
    + intros _. eauto.
Qed.


(** ** What the feed callbacks report *)

Section FeedFailures.

Local Abbreviation coded e :=
  (exists message code,
     e = ResponseInvalidError message (Some code) /\
     (code = ResponseInvalidCode.EReqResOidNoMatch \/ code = ResponseInvalidCode.EOutOfOrder)).

Lemma match_round_failure_code check place reqRest : forall replyRest i acc e,
  match_round check place i reqRest replyRest acc = Failure e -> coded e.
Proof.
  induction reqRest as [|rq reqRest IH]; intros [|rp replyRest] i acc e; simpl;
    try discriminate.
  destruct (check && negb (String.eqb (oid rq) (oid rp))).
  - intros [= <-]. eauto.
  - apply IH.
Qed.

Lemma first_round_failure_code report backwards nonRepeaters reqRest :
  forall replyRest i acc e,
  first_round report backwards nonRepeaters i reqRest replyRest acc = inl e -> coded e.
Proof.
  induction reqRest as [|rq reqRest IH]; intros [|rp replyRest] i acc e; simpl;
    try discriminate.
  destruct (isVarbindError rp).
  - destruct (report && negb (String.eqb (oid rq) (oid rp))).
    + intros [= <-]. eauto.
    + apply IH.
  - destruct (negb backwards && negb (follows (oid rq) (oid rp))).
    + intros [= <-]. eauto.
    + apply IH.
Qed.

Lemma later_rounds_failure_code report backwards nonRepeaters reqLen replyVarbinds rest :
  forall i acc e,
  later_rounds report backwards nonRepeaters reqLen replyVarbinds i rest acc
  = Responded (Failure e) -> coded e.
Proof.
  induction rest as [|cur rest IH]; intros i acc e; simpl; [discriminate|].
  destruct (at_index replyVarbinds (Z.of_nat i - (Z.of_nat reqLen - nonRepeaters)))
    as [prev|]; [|discriminate].
  destruct (isVarbindError cur).
  - destruct (report && negb (String.eqb (oid prev) (oid cur))).
    + intros [= <-]. eauto.
    + destruct (push_at acc _ cur); [apply IH | discriminate].
  - destruct (negb backwards && negb (follows (oid prev) (oid cur))).
    + intros [= <-]. eauto.
    + destruct (push_at acc _ cur); [apply IH | discriminate].
Qed.

Lemma next_round_failure_code backwards reqRest : forall replyRest i acc e,
  next_round backwards i reqRest replyRest acc = Failure e ->
  exists message, e = ResponseInvalidError message None.
Proof.
  induction reqRest as [|rq reqRest IH]; intros [|rp replyRest] i acc e; simpl;
    try discriminate.
  destruct (isVarbindError rp); [apply IH|].
  destruct (negb backwards && negb (follows (oid rq) (oid rp))).
  - intros [= <-]. eauto.
  - apply IH.
Qed.

End FeedFailures.

(** X12: Every error a feed callback hands to the response callback is a
    ResponseInvalidError. Its code is EReqResOidNoMatch or EOutOfOrder,
    except for the out-of-order error of [getNext], which has no code. *)
Theorem feed_failure_is_coded
    (feedCb : FeedCb) (reqVarbinds replyVarbinds : list Varbind) (e : Error) :
  run_feedCb feedCb reqVarbinds replyVarbinds = Responded (Failure e) ->
  exists message code,
    e = ResponseInvalidError message code /\
    (code = Some ResponseInvalidCode.EReqResOidNoMatch \/
     code = Some ResponseInvalidCode.EOutOfOrder \/
     (code = None /\ exists backwardsGetNexts, feedCb = GetNextFeed backwardsGetNexts)).
Proof.
  assert (Hcoded : forall e',
            (exists message code,
               e' = ResponseInvalidError message (Some code) /\
               (code = ResponseInvalidCode.EReqResOidNoMatch \/
                code = ResponseInvalidCode.EOutOfOrder)) ->
            exists message code,
              e' = ResponseInvalidError message code /\
              (code = Some ResponseInvalidCode.EReqResOidNoMatch \/
               code = Some ResponseInvalidCode.EOutOfOrder \/
               (code = None /\
                exists backwardsGetNexts, feedCb = GetNextFeed backwardsGetNexts))).
  { intros e' (m & c & -> & [-> | ->]); eauto 6. }
  destruct feedCb as [report|report backwards nonRepeaters|backwards|report|]; simpl.
  - unfold get_feedCb. destruct (negb _).
    + intros [= <-]. eauto 6.
    + intros [= H]. apply Hcoded. eapply match_round_failure_code. exact H.
  - unfold getBulk_feedCb.
    destruct (first_round report backwards nonRepeaters 0 reqVarbinds replyVarbinds [])
      as [e'|[i acc]] eqn:Hfirst.
    + intros [= <-]. apply Hcoded. eapply first_round_failure_code. exact Hfirst.
    + intros H. apply Hcoded. eapply later_rounds_failure_code. exact H.
  - unfold getNext_feedCb. destruct (negb _).
    + intros [= <-]. eauto 6.
    + intros [= H]. destruct (next_round_failure_code _ _ _ _ _ _ H) as [m ->].
      exists m, None. split; [reflexivity|]. right. right. eauto.
  - unfold set_feedCb, get_feedCb. destruct (negb _).
    + intros [= <-]. eauto 6.
    + intros [= H]. apply Hcoded. eapply match_round_failure_code. exact H.
  - unfold inform_feedCb. destruct (negb _).
    + intros [= <-]. eauto 6.
    + intros [= H]. apply Hcoded. eapply match_round_failure_code. exact H.
Qed.

Lemma feed_failure_is_coded_witness :
  exists message code,
    ResponseInvalidError
      (oid_message "1.3.6.1.2.1.1.5.0" "request at positiion" 0 "does not precede"
         "1.3.6.1.2.1.1.4.0" 0) None
    = ResponseInvalidError message code /\
    (code = Some ResponseInvalidCode.EReqResOidNoMatch \/
     code = Some ResponseInvalidCode.EOutOfOrder \/
     (code = None /\ exists backwardsGetNexts, GetNextFeed false = GetNextFeed backwardsGetNexts)).
Proof.
  apply (feed_failure_is_coded (GetNextFeed false)
           [request_varbind "1.3.6.1.2.1.1.5.0"] [text_varbind "1.3.6.1.2.1.1.4.0" "x"]).
  reflexivity.
Defined.

(** X13: A GetBulk request without repeaters (nonRepeaters is at least the
    number of OIDs requested) whose reply carries more varbinds than the
    request never has data handed to its response callback; with the
    default settings (no OID checks) the feed callback raises a TypeError
    on the first surplus varbind instead of calling the response
    callback. *)
Theorem getBulk_feedCb_without_repeaters
    (reportOidMismatchErrors backwardsGetNexts : bool) (nonRepeaters : nat)
    (reqVarbinds replyVarbinds : list Varbind) :
  (length reqVarbinds <= nonRepeaters)%nat ->
  (length reqVarbinds < length replyVarbinds)%nat ->
  (forall data,
     getBulk_feedCb reportOidMismatchErrors backwardsGetNexts (Z.of_nat nonRepeaters)
       reqVarbinds replyVarbinds <> Responded (Success data)) /\
  getBulk_feedCb false true (Z.of_nat nonRepeaters) reqVarbinds replyVarbinds = Thrown.
Proof.
  intros Hnr Hlong.
  assert (Hstep : forall report backwards vs,
    length vs = length reqVarbinds ->
    (forall j, (j < length reqVarbinds)%nat -> exists vb, vs !! j = Some (Single vb)) ->
    forall data,
      later_rounds report backwards (Z.of_nat nonRepeaters) (length reqVarbinds)
        replyVarbinds (length reqVarbinds) (drop (length reqVarbinds) replyVarbinds) vs
      <> Responded (Success data) /\
      (report = false -> backwards = true ->
       later_rounds report backwards (Z.of_nat nonRepeaters) (length reqVarbinds)
         replyVarbinds (length reqVarbinds) (drop (length reqVarbinds) replyVarbinds) vs
       = Thrown)).
  { intros report backwards vs Hlen Hsingle data.
    destruct (drop (length reqVarbinds) replyVarbinds) as [|cur rest] eqn:Hd.
    { pose proof (length_drop replyVarbinds (length reqVarbinds)) as Hl.
      rewrite Hd in Hl. simpl in Hl. lia. }
    assert (Hpush : forall cur',
      push_at vs
        match js_rem (Z.of_nat (length reqVarbinds) - Z.of_nat nonRepeaters)
                (Z.of_nat (length reqVarbinds) - Z.of_nat nonRepeaters) with
        | Some m => Some (m + Z.of_nat nonRepeaters)
        | None => None
        end cur' = None).
    { intros cur'. unfold js_rem.
      destruct (Z.eqb_spec (Z.of_nat (length reqVarbinds) - Z.of_nat nonRepeaters) 0);
        [reflexivity|].
      rewrite Z.rem_same by assumption. unfold push_at.
      rewrite Z.add_0_l, at_index_nat.
      rewrite (proj2 (lookup_ge_None vs nonRepeaters)) by lia. reflexivity. }
    simpl.
    destruct (at_index replyVarbinds _) as [prev|]; [|split; [discriminate | reflexivity]].
    destruct (isVarbindError cur).
    - destruct (report && negb (String.eqb (oid prev) (oid cur))) eqn:Hc.
      + split; [discriminate|]. intros -> _. discriminate.
      + rewrite Hpush. split; [discriminate | reflexivity].
    - destruct (negb backwards && negb (follows (oid prev) (oid cur))) eqn:Hc.
      + split; [discriminate|]. intros _ ->. discriminate.
      + rewrite Hpush. split; [discriminate | reflexivity]. }
  assert (Hfirst : forall report backwards i vs,
    first_round report backwards (Z.of_nat nonRepeaters) 0 reqVarbinds replyVarbinds []
    = inr (i, vs) ->
    i = length reqVarbinds /\ length vs = length reqVarbinds /\
    (forall j, (j < length reqVarbinds)%nat -> exists vb, vs !! j = Some (Single vb))).
  { intros report backwards i vs Hf.
    pose proof (first_round_checked report backwards nonRepeaters reqVarbinds
                  replyVarbinds 0 [] i vs Hf) as Hc.
    destruct (first_round_passes report backwards nonRepeaters reqVarbinds
                replyVarbinds 0 [] Hc) as (vs' & Hvs & Hl & Hk).
    rewrite Hvs in Hf. injection Hf as <- <-. simpl.
    rewrite Nat.min_l in * by lia. split; [reflexivity|]. split; [exact Hl|].
    intros j Hj. destruct (lookup_lt_is_Some_2 replyVarbinds j) as [rp Hrp]; [lia|].
    exists rp. rewrite (Hk j rp Hj Hrp). unfold first_round_entry.
    destruct (Z.ltb_spec (Z.of_nat (0 + j)) (Z.of_nat nonRepeaters)); [reflexivity | lia]. }
  split.
  - intros data. unfold getBulk_feedCb.
    destruct (first_round _ _ _ 0 reqVarbinds replyVarbinds []) as [e|[i vs]] eqn:Hf;
      [discriminate|].
    destruct (Hfirst _ _ _ _ Hf) as (-> & Hlen & Hsingle).
    apply Hstep; assumption.
  - unfold getBulk_feedCb.
    destruct (first_round false true _ 0 reqVarbinds replyVarbinds []) as [e|[i vs]] eqn:Hf.
    + exfalso.
      destruct (first_round_passes false true nonRepeaters reqVarbinds replyVarbinds 0 [])
        as (vs & Hvs & _).
      { intros k rq rp _ _. unfold slot_passes. destruct (isVarbindError rp); reflexivity. }
      rewrite Hvs in Hf. discriminate.
    + destruct (Hfirst _ _ _ _ Hf) as (-> & Hlen & Hsingle).
      apply (Hstep false true vs Hlen Hsingle (Bulk [])); reflexivity.
Qed.

Lemma getBulk_feedCb_without_repeaters_witness :
  getBulk_feedCb false true (Z.of_nat 1) [request_varbind "1.3.6.1.2.1.1.5.0"]
    [text_varbind "1.3.6.1.2.1.1.5.0" "host"; text_varbind "1.3.6.1.2.1.1.6.0" "room"]
  = Thrown.
Proof.
  apply (getBulk_feedCb_without_repeaters false true 1
           [request_varbind "1.3.6.1.2.1.1.5.0"]
           [text_varbind "1.3.6.1.2.1.1.5.0" "host"; text_varbind "1.3.6.1.2.1.1.6.0" "room"]);
    simpl; lia.
Defined.

(** ** The subtree callback *)

(** X14: [subtreeCb] hands the caller's feed callback the batch shortened at
    its end by as many varbinds as lie outside the subtree, and does not
    call it when nothing is left; the walk is stopped when a varbind lies
    outside the subtree or the feed callback returns a true value. *)
Theorem subtreeCb_feeds_shortened_batch
    (feedCb : list Varbind -> bool) (baseOid : string) (varbinds : list Varbind) :
  subtreeCb feedCb baseOid varbinds
  = Some (let kept := take (length varbinds - outside_count baseOid varbinds) varbinds in
          mkSubtreeResult
            (if (0 <? length kept)%nat then Some kept else None)
            ((if (0 <? length kept)%nat then feedCb kept else false)
             || (0 <? outside_count baseOid varbinds)%nat)).
Proof.
  unfold subtreeCb.
  pose proof (subtreeCb_loop_takes baseOid varbinds (length varbinds) (length varbinds)
                false ltac:(lia)) as Hl.
  rewrite firstn_all in Hl. rewrite Hl. simpl.
  destruct (0 <? length (take (length varbinds - outside_count baseOid varbinds) varbinds))%nat;
    [|reflexivity].
  destruct (feedCb _); reflexivity.
Qed.


(** ** The table callbacks *)

Section TableFeedProofs.

Variable toString : Value -> option Value.
Variable toString_hex : Value -> option Value.
Variable property_key : Value -> string.

Local Abbreviation feed := (tableFeedCb toString toString_hex property_key).
Local Abbreviation feed_body := (tableFeedCb_body toString toString_hex property_key).

Lemma tableFeedCb_app before : forall req after,
  feed req (before ++ after)
  = match feed req before with
    | Some (false, req') => feed req' after
    | other => other
    end.
Proof.
  induction before as [|vb before IH]; intros req after; simpl.
  - destruct (feed req after) as [[[|] r]|]; reflexivity.
  - destruct (feed_body req vb) as [[[|] r]|]; try reflexivity. apply IH.
Qed.

Lemma replace_first_unfold p s :
  replace_first p s
  = if String.prefix p s then string_drop (String.length p) s
    else match s with
         | EmptyString => EmptyString
         | String c s' => String c (replace_first p s')
         end.
Proof. destruct s; reflexivity. Qed.

Lemma replace_first_absent p s : ~ occurs_in p s -> replace_first p s = s.
Proof.
  induction s as [|c s IH]; intros Hno; rewrite replace_first_unfold.
  - destruct (String.prefix p EmptyString) eqn:Hp; [|reflexivity].
    exfalso. apply Hno. destruct (prefix_inv _ _ Hp) as [rest Hrest].
    exists EmptyString, rest. exact Hrest.
  - destruct (String.prefix p (String c s)) eqn:Hp.
    + exfalso. apply Hno. destruct (prefix_inv _ _ Hp) as [rest Hrest].
      exists EmptyString, rest. exact Hrest.
    + f_equal. apply IH. intros (before & after & ->). apply Hno.
      exists (String c before), after. reflexivity.
Qed.

Lemma varbindError_exception vb :
  isVarbindError vb = true ->
  varbindError vb = "NoSuchObject: " +:+ oid vb \/
  varbindError vb = "NoSuchInstance: " +:+ oid vb \/
  varbindError vb = "EndOfMibView: " +:+ oid vb.
Proof.
  unfold isVarbindError, varbindError. destruct (type vb) as [t|]; [|discriminate].
  intros H. apply orb_true_iff in H as [H|H]; [apply orb_true_iff in H as [H|H]|];
    apply Z.eqb_eq in H; subst t; simpl; auto.
Qed.

End TableFeedProofs.

(** X5: [isVarbindError] accepts exactly the three exception types, and for
    a varbind it accepts [varbindError] gives the name of the exception,
    a colon and the OID; 'NotAnError' stands only before the OID of a
    varbind whose type [ObjectType] has no name for. *)
Theorem varbindError_names_exception (varbind : Varbind) :
  (isVarbindError varbind = true
   <-> type varbind = Some ObjectType.NoSuchObject \/
       type varbind = Some ObjectType.NoSuchInstance \/
       type varbind = Some ObjectType.EndOfMibView) /\
  (isVarbindError varbind = true ->
   varbindError varbind = "NoSuchObject: " +:+ oid varbind \/
   varbindError varbind = "NoSuchInstance: " +:+ oid varbind \/
   varbindError varbind = "EndOfMibView: " +:+ oid varbind) /\
  (varbindError varbind = "NotAnError: " +:+ oid varbind
   <-> forall t, type varbind = Some t -> ObjectType.name t = None).
Proof.
  split; [|split].
  - unfold isVarbindError. destruct (type varbind) as [t|].
    + rewrite !orb_true_iff, !Z.eqb_eq. intuition congruence.
    + split; [discriminate|]. intros [H|[H|H]]; discriminate.
  - apply varbindError_exception.
  - unfold varbindError. destruct (type varbind) as [t|].
    + split.
      * intros H t' [= <-]. destruct (ObjectType.name t) as [name|] eqn:Hn; [|reflexivity].
        exfalso. simpl in H.
        assert (Hname : name +:+ ": " +:+ oid varbind = "NotAnError" +:+ ": " +:+ oid varbind)
          by exact H.
        unfold ObjectType.name in Hn.
        repeat match type of Hn with
               | (if ?c then _ else _) = _ => destruct c
               end; try discriminate; injection Hn as <-; discriminate.
      * intros H. rewrite (H t eq_refl). reflexivity.
    + split; [intros _ t H; discriminate | reflexivity].
Qed.

(** X15: When [tableFeedCb] meets an exception varbind it stops there: it
    returns true, the varbinds that follow are not looked at, the cells
    recorded before stay, and [req.error] is a RequestFailedError that
    names the exception and the OID; [tableResponseCb] then hands that
    error to the response callback and not the table. *)
Theorem tableFeedCb_stops_at_exception
    (toString toString_hex : Value -> option Value) (property_key : Value -> string)
    (req req1 : TableReq) (before after : list Varbind) (varbind : Varbind) :
  tableFeedCb toString toString_hex property_key req before = Some (false, req1) ->
  isVarbindError varbind = true ->
  tableFeedCb toString toString_hex property_key req (before ++ varbind :: after)
  = Some (true, set_error req1 (RequestFailedError (varbindError varbind) StatusUndefined)) /\
  table (set_error req1 (RequestFailedError (varbindError varbind) StatusUndefined))
  = table req1 /\
  tableResponseCb
    (set_error req1 (RequestFailedError (varbindError varbind) StatusUndefined)) None
  = TableFailed (RequestFailedError (varbindError varbind) StatusUndefined) /\
  (varbindError varbind = "NoSuchObject: " +:+ oid varbind \/
   varbindError varbind = "NoSuchInstance: " +:+ oid varbind \/
   varbindError varbind = "EndOfMibView: " +:+ oid varbind).
Proof.
  intros Hbefore Herr. split; [|split; [|split]].
  - rewrite tableFeedCb_app, Hbefore. simpl. unfold tableFeedCb_body. rewrite Herr.
    reflexivity.
  - reflexivity.
  - reflexivity.
  - apply varbindError_exception. exact Herr.
Qed.

Lemma tableFeedCb_stops_at_exception_witness :
  tableFeedCb (fun v => Some v) (fun v => Some v) (fun _ => EmptyString)
    (table_req "1.3.6.1.2.1.2.2" ∅ 20)
    ([text_varbind "1.3.6.1.2.1.2.2.1.2.1" "eth0"]
     ++ mkVarbind "1.3.6.1.2.1.2.2.1.2.2" (Some ObjectType.EndOfMibView) VNull
        :: [text_varbind "1.3.6.1.2.1.2.2.1.2.3" "eth2"])
  = Some (true,
          set_error
            (mkTableReq "1.3.6.1.2.1.2.2" "1.3.6.1.2.1.2.2.1." 20 ∅
               {["1"%string := {["2"%string := VString "eth0"]}]} None)
            (RequestFailedError
               (varbindError
                  (mkVarbind "1.3.6.1.2.1.2.2.1.2.2" (Some ObjectType.EndOfMibView) VNull))
               StatusUndefined)).
Proof.
  apply (tableFeedCb_stops_at_exception (fun v => Some v) (fun v => Some v)
           (fun _ => EmptyString) (table_req "1.3.6.1.2.1.2.2" ∅ 20)
           (mkTableReq "1.3.6.1.2.1.2.2" "1.3.6.1.2.1.2.2.1." 20 ∅
              {["1"%string := {["2"%string := VString "eth0"]}]} None)
           [text_varbind "1.3.6.1.2.1.2.2.1.2.1" "eth0"]
           [text_varbind "1.3.6.1.2.1.2.2.1.2.3" "eth2"]
           (mkVarbind "1.3.6.1.2.1.2.2.1.2.2" (Some ObjectType.EndOfMibView) VNull)).
  - vm_compute. reflexivity.
  - reflexivity.
Defined.

(** X16: A varbind that is no exception leaves the table as it is, and the
    feed goes on, when its OID does not hold the row prefix anywhere,
    when it is the row prefix and nothing more, and when the column
    number that follows the row prefix is 0. *)
Theorem tableFeedCb_ignores_foreign_oid
    (toString toString_hex : Value -> option Value) (property_key : Value -> string)
    (req : TableReq) (varbind : Varbind) :
  isVarbindError varbind = false ->
  (~ occurs_in (rowOid req) (oid varbind) ->
   tableFeedCb_body toString toString_hex property_key req varbind = Some (false, req)) /\
  (oid varbind = rowOid req ->
   tableFeedCb_body toString toString_hex property_key req varbind = Some (false, req)) /\
  (forall row, oid varbind = rowOid req +:+ "0." +:+ row ->
   tableFeedCb_body toString toString_hex property_key req varbind = Some (false, req)).
Proof.
  intros Herr. unfold tableFeedCb_body. rewrite Herr. split; [|split].
  - intros Hno. rewrite (replace_first_absent _ _ Hno), String.eqb_refl.
    rewrite andb_false_r. reflexivity.
  - intros Hrow. rewrite Hrow.
    replace (replace_first (rowOid req) (rowOid req)) with EmptyString.
    + reflexivity.
    + symmetry. rewrite replace_first_unfold.
      assert (Hp : String.prefix (rowOid req) (rowOid req) = true).
      { generalize (rowOid req). intros s. induction s as [|c s IH]; simpl; [reflexivity|].
        destruct (ascii_dec c c); [exact IH | congruence]. }
      rewrite Hp. apply string_drop_all.
  - intros row Hoid. rewrite Hoid, replace_first_prefix.
    destruct (negb (String.eqb ("0." +:+ row) EmptyString)
              && negb (String.eqb ("0." +:+ row) (rowOid req +:+ "0." +:+ row)));
      [|reflexivity].
    unfold match_column_row.
    change (span_digits ("0." +:+ row)) with ("0"%string, String dot row).
    simpl. destruct (negb (String.eqb row EmptyString) && all_chars no_line_terminator row);
      reflexivity.
Qed.

Lemma tableFeedCb_ignores_foreign_oid_witness :
  tableFeedCb_body (fun v => Some v) (fun v => Some v) (fun _ => EmptyString)
    (table_req "1.3.6.1.2.1.2.2" ∅ 20) (text_varbind "1.3.6.1.2.1.2.2.1.0.7" "x")
  = Some (false, table_req "1.3.6.1.2.1.2.2" ∅ 20).
Proof.
  destruct (tableFeedCb_ignores_foreign_oid (fun v => Some v) (fun v => Some v)
              (fun _ => EmptyString) (table_req "1.3.6.1.2.1.2.2" ∅ 20)
              (text_varbind "1.3.6.1.2.1.2.2.1.0.7" "x") eq_refl) as (_ & _ & H).
  exact (H "7"%string eq_refl).
Defined.

(** X17: Recording a cell changes that cell only: every other cell of the
    table, in the same row or in another, reads as before. The cells are
    the own properties of the rows, and the rows those of the table: a
    varbind whose row suffix or column name makes the write land on
    [Object.prototype] or on a member of it is none that [tableFeedCb_body]
    gives a result for. *)
Theorem tableFeedCb_keeps_other_cells
    (toString toString_hex : Value -> option Value) (property_key : Value -> string)
    (req req' : TableReq) (varbind : Varbind) (col suffix : string) :
  isVarbindError varbind = false ->
  rowOid req <> EmptyString ->
  oid varbind = rowOid req +:+ col +:+ String dot suffix ->
  col <> EmptyString -> all_chars is_digit col = true ->
  suffix <> EmptyString -> all_chars no_line_terminator suffix = true ->
  tableFeedCb_body toString toString_hex property_key req varbind = Some (false, req') ->
  forall row key,
    (row, key) <> (suffix, column_key (columns req !! col) col) ->
    cell (table req') row key = cell (table req) row key.
Proof.
  intros Herr Hrow Hoid Hcol Hdig Hsuf Hterm Hbody row key Hother.
  unfold tableFeedCb_body in Hbody. rewrite Herr, Hoid, replace_first_prefix in Hbody.
  destruct (negb (String.eqb (col +:+ String dot suffix) EmptyString)
            && negb (String.eqb (col +:+ String dot suffix)
                       (rowOid req +:+ col +:+ String dot suffix)));
    [|injection Hbody as <-; reflexivity].
  rewrite match_column_row_cell in Hbody by assumption.
  destruct (0 <? decimal_value col); [|injection Hbody as <-; reflexivity].
  destruct (coerce toString toString_hex property_key (columns req !! col) (value varbind))
    as [thisValue|]; [|discriminate].
  unfold set_cell, write_cell in Hbody.
  destruct (String.eqb (column_key (columns req !! col) col) "__proto__"); [discriminate|].
  unfold cell.
  destruct (table req !! suffix) as [r|] eqn:Hr;
    [|destruct (inherited_name suffix); [discriminate|]];
    injection Hbody as <-; simpl;
    (destruct (decide (row = suffix)) as [->|Hne];
     [rewrite lookup_insert_eq, Hr;
      rewrite lookup_insert_ne by (intros Hk; apply Hother; congruence);
      try reflexivity; apply lookup_empty
     |rewrite lookup_insert_ne by congruence; reflexivity]).
Qed.

Lemma tableFeedCb_keeps_other_cells_witness :
  cell (<["1"%string := <["3"%string := VString "up"]> {["2"%string := VString "eth0"]}]>
          {["1"%string := {["2"%string := VString "eth0"]}]})
    "1" "2"
  = cell {["1"%string := {["2"%string := VString "eth0"]}]} "1" "2".
Proof.
  refine (tableFeedCb_keeps_other_cells (fun v => Some v) (fun v => Some v)
            (fun _ => EmptyString)
            (mkTableReq "1.3.6.1.2.1.2.2" "1.3.6.1.2.1.2.2.1." 20 ∅
               {["1"%string := {["2"%string := VString "eth0"]}]} None)
            (mkTableReq "1.3.6.1.2.1.2.2" "1.3.6.1.2.1.2.2.1." 20 ∅
               (<["1"%string := <["3"%string := VString "up"]> {["2"%string := VString "eth0"]}]>
                  {["1"%string := {["2"%string := VString "eth0"]}]}) None)
            (text_varbind "1.3.6.1.2.1.2.2.1.3.1" "up") "3" "1"
            _ _ _ _ _ _ _ _ "1"%string "2"%string _);
    try reflexivity; try discriminate.
Defined.

(** X18: The feed callback of [tableColumns] builds the table that the feed
    callback of [table] builds when no column is configured: on the same
    varbinds, from the same row prefix, table and error, both stop at the
    same place and leave the same table and the same error; and on
    varbinds for which one of them writes to a member of
    [Object.prototype], which is where the embedding of both ends, so
    does the other. *)
Theorem tableColumnsFeedCb_as_tableFeedCb
    (toString toString_hex : Value -> option Value) (property_key : Value -> string)
    (creq : ColumnsReq) (req : TableReq) (varbinds : list Varbind) :
  rowOid req = c_rowOid creq -> table req = c_table creq -> error req = c_error creq ->
  columns req = ∅ ->
  match tableColumnsFeedCb creq varbinds with
  | Some (stopped, creq') =>
      exists req',
        tableFeedCb toString toString_hex property_key req varbinds = Some (stopped, req') /\
        rowOid req' = c_rowOid creq' /\
        table req' = c_table creq' /\
        error req' = c_error creq' /\
        columns req' = ∅
  | None => tableFeedCb toString toString_hex property_key req varbinds = None
  end.
Proof.
  revert creq req. induction varbinds as [|vb varbinds IH]; intros creq req Hr Ht He Hc.
  - exists req. simpl. auto.
  - simpl.
    assert (Hbody :
      match tableColumnsFeedCb_body creq vb with
      | Some (stopped, creq1) =>
          exists req1,
            tableFeedCb_body toString toString_hex property_key req vb = Some (stopped, req1) /\
            rowOid req1 = c_rowOid creq1 /\
            table req1 = c_table creq1 /\
            error req1 = c_error creq1 /\
            columns req1 = ∅
      | None => tableFeedCb_body toString toString_hex property_key req vb = None
      end).
    { unfold tableFeedCb_body, tableColumnsFeedCb_body. rewrite Hr.
      destruct (isVarbindError vb).
      - eexists. split; [reflexivity|]. simpl. auto.
      - destruct (negb (String.eqb (replace_first (c_rowOid creq) (oid vb)) EmptyString)
                  && negb (String.eqb (replace_first (c_rowOid creq) (oid vb)) (oid vb)));
          [|eexists; split; [reflexivity|]; simpl; auto].
        destruct (match_column_row (replace_first (c_rowOid creq) (oid vb)))
          as [[col row]|]; [|eexists; split; [reflexivity|]; simpl; auto].
        destruct (0 <? decimal_value col); [|eexists; split; [reflexivity|]; simpl; auto].
        rewrite Hc, lookup_empty. simpl. unfold set_cell, c_set_cell. rewrite Ht.
        destruct (write_cell (c_table creq) row col (value vb)) as [cells|];
          [|reflexivity].
        eexists. split; [reflexivity|]. simpl. auto. }
    destruct (tableColumnsFeedCb_body creq vb) as [[[|] creq1]|].
    + destruct Hbody as (req1 & Hb & Hfacts). rewrite Hb. exists req1. auto.
    + destruct Hbody as (req1 & Hb & Hr1 & Ht1 & He1 & Hc1). rewrite Hb.
      apply IH; assumption.
    + rewrite Hbody. reflexivity.
Qed.

Lemma tableColumnsFeedCb_as_tableFeedCb_witness :
  exists req',
    tableFeedCb (fun v => Some v) (fun v => Some v) (fun _ => EmptyString)
      (table_req "1.3.6.1.2.1.2.2" ∅ 20) [text_varbind "1.3.6.1.2.1.2.2.1.2.1" "eth0"]
    = Some (false, req') /\
    rowOid req' = "1.3.6.1.2.1.2.2.1."%string /\
    table req' = {["1"%string := {["2"%string := VString "eth0"]}]} /\
    error req' = None /\
    columns req' = ∅.
Proof.
  exact (tableColumnsFeedCb_as_tableFeedCb (fun v => Some v) (fun v => Some v)
           (fun _ => EmptyString)
           (mkColumnsReq "1.3.6.1.2.1.2.2" "1.3.6.1.2.1.2.2.1." 20 ["2"%string] ∅ None)
           (table_req "1.3.6.1.2.1.2.2" ∅ 20)
           [text_varbind "1.3.6.1.2.1.2.2.1.2.1" "eth0"]
           eq_refl eq_refl eq_refl eq_refl).
Defined.

(** ** What every reached session keeps true *)

Section WellFormed.

Variable codec : Codec.

Lemma same_registry_refl s : same_registry s s.
Proof. unfold same_registry. repeat split; eauto. Qed.

Lemma same_registry_add_log s e : same_registry s (add_log e s).
Proof. unfold same_registry. simpl. repeat split; eauto. Qed.

Lemma same_registry_respond s req outcome : same_registry s (respond req outcome s).
Proof. apply same_registry_add_log. Qed.

Lemma same_registry_security s v : same_registry s (set_msgSecurityParameters v s).
Proof. unfold same_registry. simpl. repeat split; eauto. Qed.

Lemma same_registry_trans s1 s2 s3 :
  same_registry s1 s2 -> same_registry s2 s3 -> same_registry s1 s3.
Proof.
  intros ((Hr & Ho) & Hc & Hd & Hh & Ht & Hs) ((Hr' & Ho') & Hc' & Hd' & Hh' & Ht' & Hs').
  unfold same_registry. repeat split; try congruence.
  - intros l req Hl. destruct (Hh l req Hl) as (req1 & Hl1 & Hm1 & Hcb1).
    destruct (Hh' l req1 Hl1) as (req2 & Hl2 & Hm2 & Hcb2).
    exists req2. repeat split; congruence.
  - intros h l Hl. apply Ht, Ht'. exact Hl.
  - lia.
Qed.

Lemma well_formed_same s s' : same_registry s s' -> well_formed s -> well_formed s'.
Proof.
  intros ((Hr & Ho) & Hc & Hd & Hh & Ht & Hs) ((Hcount & Href) & Hk & Hf & Hord).
  split; [|split; [|split]].
  - split; [rewrite Hc, Hr; exact Hcount | rewrite Hd, Hc; exact Href].
  - unfold keyed. rewrite Hr. intros id l Hl.
    destruct (Hk id l Hl) as (req & Hreq & Hid).
    destruct (Hh l req Hreq) as (req' & Hreq' & Hm & _).
    exists req'. split; [exact Hreq'|]. unfold getId in *. congruence.
  - intros h l Hl. apply Ht in Hl. apply Hf in Hl. lia.
  - unfold ordered. rewrite Ho, Hr. exact Hord.
Qed.

Lemma same_registry_heap s l req req' :
  heap s !! l = Some req -> message req' = message req -> responseCb req' = responseCb req ->
  same_registry s (set_heap (<[l := req']> (heap s)) s).
Proof.
  intros Hl Hm Hcb. unfold same_registry. simpl. repeat split; auto.
  intros l0 req0 Hl0. destruct (decide (l0 = l)) as [->|Hne].
  - exists req'. rewrite lookup_insert_eq. repeat split; congruence.
  - exists req0. rewrite lookup_insert_ne by auto. auto.
Qed.

Lemma same_registry_fresh s req :
  same_registry s (set_heap (<[fresh (dom (heap s)) := req]> (heap s)) s).
Proof.
  unfold same_registry. simpl. repeat split; auto.
  intros l0 req0 Hl0. exists req0. split; [|auto].
  rewrite lookup_insert_ne; [exact Hl0|].
  intros Heq. apply (is_fresh (dom (heap s))). rewrite Heq. apply elem_of_dom. eauto.
Qed.

Lemma same_registry_timer s h :
  same_registry s (set_timers (delete h (timers s)) s).
Proof.
  unfold same_registry. simpl. repeat split; eauto.
  intros h0 l Hl. apply lookup_delete_Some in Hl. tauto.
Qed.

Lemma same_registry_send s l noWait : same_registry s (send codec s l noWait).
Proof.
  unfold send. destruct (heap s !! l) as [req|]; [|apply same_registry_refl].
  destruct (toBuffer codec (message req)); unfold same_registry; simpl;
    repeat split; eauto.
Qed.

Lemma registerRequest_ordered s l : ordered s -> ordered (registerRequest s l).
Proof.
  intros (Hnd & Hin). unfold registerRequest.
  destruct (heap s !! l) as [req|]; [|split; assumption].
  destruct (reqs s !! getId req) as [l'|] eqn:Hid; unfold ordered; simpl;
    [split; assumption|].
  split.
  - apply NoDup_app. split; [exact Hnd|]. split; [|apply NoDup_singleton].
    intros id Hold Hnew. apply list_elem_of_singleton in Hnew as ->.
    apply Hin in Hold as [l0 Hl0]. congruence.
  - intros id. rewrite elem_of_app, list_elem_of_singleton, Hin.
    destruct (decide (id = getId req)) as [->|Hne].
    + rewrite lookup_insert_eq. split; eauto.
    + rewrite lookup_insert_ne by auto. tauto.
Qed.

Lemma unregisterRequest_ordered s id : ordered s -> ordered (fst (unregisterRequest s id)).
Proof.
  intros (Hnd & Hin). unfold unregisterRequest.
  destruct (reqs s !! id) as [l|] eqn:Hid; [|split; assumption].
  assert (Hord : ordered
            (set_reqs (delete id (reqs s))
               (set_reqs_order (List.filter (fun id' => negb (id' =? id)) (reqs_order s)) s))).
  { unfold ordered. simpl. split.
    - apply NoDup_ListNoDup, List.NoDup_filter, NoDup_ListNoDup. exact Hnd.
    - intros id0. rewrite list_elem_of_In, filter_In, <- list_elem_of_In, Hin.
      rewrite negb_true_iff, Z.eqb_neq.
      destruct (decide (id0 = id)) as [->|Hne].
      + rewrite lookup_delete_eq. split; [tauto|]. intros [? ?]. discriminate.
      + rewrite lookup_delete_ne by auto. tauto. }
  destruct (match heap s !! l with Some req => timer req | None => None end);
    simpl; destruct (reqCount s - 1 <=? 0); exact Hord.
Qed.

Lemma registerRequest_well_formed s l : well_formed s -> well_formed (registerRequest s l).
Proof.
  intros (Hinv & Hk & Hf & Hord). split; [apply registerRequest_inv; exact Hinv|].
  cut (keyed (registerRequest s l) /\ timers_fresh (registerRequest s l)).
  { intros [? ?]. split; [assumption|]. split; [assumption|].
    apply registerRequest_ordered. exact Hord. }
  unfold registerRequest. destruct (heap s !! l) as [req|] eqn:Hl; [|split; assumption].
  assert (Hkeep : forall req' id l0,
            message req' = message req ->
            (exists r, heap s !! l0 = Some r /\ getId r = id) ->
            exists r, <[l := req']> (heap s) !! l0 = Some r /\ getId r = id).
  { intros req' id l0 Hm (r & Hr & Hid). destruct (decide (l0 = l)) as [->|Hne].
    - exists req'. rewrite lookup_insert_eq. split; [reflexivity|].
      unfold getId in *. congruence.
    - exists r. rewrite lookup_insert_ne by auto. auto. }
  destruct (reqs s !! getId req) as [l'|] eqn:Hid; simpl; split.
  - intros id l0 Hl0. simpl. apply Hkeep; [reflexivity|]. apply (Hk id l0 Hl0).
  - intros h l0 Hh. simpl in *. apply lookup_insert_Some in Hh as [[<- _]|[_ Hh]]; [lia|].
    apply Hf in Hh. lia.
  - intros id l0 Hl0. simpl in *. apply lookup_insert_Some in Hl0 as [[<- <-]|[_ Hl0]].
    + exists (set_timeout
                (if Qle_bool 1 (backoff req) then js_times (timeout req) (backoff req)
                 else timeout req) (set_timer (Some (timer_seq s)) req)).
      rewrite lookup_insert_eq. split; reflexivity.
    + apply Hkeep; [reflexivity|]. apply (Hk id l0 Hl0).
  - intros h l0 Hh. simpl in *. apply lookup_insert_Some in Hh as [[<- _]|[_ Hh]]; [lia|].
    apply Hf in Hh. lia.
Qed.

Lemma unregisterRequest_well_formed s id :
  well_formed s -> well_formed (fst (unregisterRequest s id)).
Proof.
  intros (Hinv & Hk & Hf & Hord). split; [apply unregisterRequest_inv; exact Hinv|].
  cut (keyed (fst (unregisterRequest s id)) /\ timers_fresh (fst (unregisterRequest s id))).
  { intros [? ?]. split; [assumption|]. split; [assumption|].
    apply unregisterRequest_ordered. exact Hord. }
  unfold unregisterRequest. destruct (reqs s !! id) as [l|] eqn:Hid; [|split; assumption].
  assert (Hkeep : forall id0 l0,
            (exists r, heap s !! l0 = Some r /\ getId r = id0) ->
            exists r, alter (set_timer None) l (heap s) !! l0 = Some r /\ getId r = id0).
  { intros id0 l0 (r & Hr & Hid0). destruct (decide (l0 = l)) as [->|Hne].
    - exists (set_timer None r). rewrite lookup_alter_eq, Hr. auto.
    - exists r. rewrite lookup_alter_ne by auto. auto. }
  destruct (match heap s !! l with Some req => timer req | None => None end) as [h|];
    simpl; destruct (reqCount s - 1 <=? 0); simpl; split;
    try (intros id0 l0 Hl0; simpl in *; apply lookup_delete_Some in Hl0 as [_ Hl0];
         apply Hkeep; apply (Hk id0 l0 Hl0));
    intros h0 l0 Hh; simpl in *;
    try (apply lookup_delete_Some in Hh as [_ Hh]); apply Hf in Hh; exact Hh.
Qed.

Lemma send_well_formed s l noWait : well_formed s -> well_formed (send codec s l noWait).
Proof. apply well_formed_same, same_registry_send. Qed.

Lemma send_completed_well_formed s k error :
  well_formed s -> well_formed (send_completed s k error).
Proof.
  intros Hwf. unfold send_completed.
  destruct (sends s !! k) as [pending|]; [|exact Hwf].
  assert (Hwf1 : well_formed (set_sends (delete k (sends s)) s)) by exact Hwf.
  simpl. destruct (heap s !! pending.1) as [req|]; [|exact Hwf1].
  destruct error as [e|]; [exact Hwf1|].
  destruct pending.2; [exact Hwf1|].
  apply registerRequest_well_formed. exact Hwf1.
Qed.

Lemma timer_fired_well_formed s h : well_formed s -> well_formed (timer_fired codec s h).
Proof.
  intros Hwf. unfold timer_fired.
  destruct (timers s !! h) as [l|]; [|exact Hwf].
  simpl. destruct (heap s !! l) as [req|] eqn:Hl.
  2: { apply (well_formed_same s); [apply same_registry_timer | exact Hwf]. }
  assert (Hwf2 : well_formed
            (set_heap (<[l := set_retries (retries req - 1) req]> (heap s))
               (set_timers (delete h (timers s)) s))).
  { apply (well_formed_same (set_timers (delete h (timers s)) s)).
    - apply (same_registry_heap (set_timers (delete h (timers s)) s) l req);
        [exact Hl | reflexivity | reflexivity].
    - apply (well_formed_same s); [apply same_registry_timer | exact Hwf]. }
  destruct (0 <? retries req).
  - apply send_well_formed. exact Hwf2.
  - apply (unregisterRequest_well_formed _ (getId req)) in Hwf2. exact Hwf2.
Qed.

Lemma cancel_one_well_formed error s id :
  well_formed s -> well_formed (cancel_one error s id).
Proof.
  intros Hwf. unfold cancel_one.
  destruct (reqs s !! id) as [l|]; [|exact Hwf].
  destruct (heap s !! l) as [req|]; [|exact Hwf].
  apply (unregisterRequest_well_formed _ (getId req)) in Hwf. exact Hwf.
Qed.

Lemma cancelRequests_well_formed s error :
  well_formed s -> well_formed (cancelRequests s error).
Proof.
  unfold cancelRequests. generalize (registered_ids s).
  intros ids. revert s. induction ids as [|id ids IH]; intros s Hwf; simpl; [exact Hwf|].
  apply IH. apply cancel_one_well_formed. exact Hwf.
Qed.

Local Ltac same_step :=
  first [ apply same_registry_refl | apply same_registry_respond
        | apply same_registry_add_log | apply same_registry_security
        | (eapply same_registry_trans; [apply same_registry_security|];
           first [apply same_registry_respond | apply same_registry_add_log]) ].

Lemma onSimpleGetResponse_same s req reply :
  same_registry s (onSimpleGetResponse s req reply).
Proof.
  unfold onSimpleGetResponse.
  destruct (0 <? errorStatus (pdu reply)).
  - destruct (ErrorStatus.name (errorStatus (pdu reply)));
      destruct ((errorIndex (pdu reply) <=? 0)
                || (Z.of_nat (length (pdu_varbinds (pdu reply))) <? errorIndex (pdu reply)));
      try same_step;
      destruct (pdu_varbinds (pdu reply) !! Z.to_nat (errorIndex (pdu reply) - 1));
      same_step.
  - destruct (run_feedCb _ _ _); same_step.
Qed.

Lemma sendV3Req_same s p f cb toPort allow :
  same_registry s (sendV3Req codec s p f cb toPort allow).
Proof.
  unfold sendV3Req. eapply same_registry_trans; [|apply same_registry_send].
  apply same_registry_fresh.
Qed.

Lemma onReport_same s req reply : same_registry s (onReport codec s req reply).
Proof.
  unfold onReport.
  destruct (msgSecurity reply) as [sp|]; [|same_step].
  destruct (proxy (config s)); [same_step|].
  destruct (originalPdu req) as [original|]; [destruct (allowReport req)|].
  - eapply same_registry_trans; [|apply sendV3Req_same]. apply same_registry_security.
  - destruct (pdu_varbinds (pdu reply)) as [|first rest]; [same_step|].
    destruct (starts_with UsmStatsBase (oid first)); same_step.
  - destruct (pdu_varbinds (pdu reply)) as [|first rest]; [same_step|].
    destruct (starts_with UsmStatsBase (oid first)); same_step.
Qed.

(** After [unregisterRequest], the rest of [onMsg] leaves the registry
    alone. *)
Lemma onMsg_after_unregister s reply :
  exists s1, s1 = fst (unregisterRequest s (reqId reply)) /\
             same_registry s1 (onMsg codec s (inr reply)).
Proof.
  exists (fst (unregisterRequest s (reqId reply))). split; [reflexivity|].
  unfold onMsg. destruct (unregisterRequest s (reqId reply)) as [s1 [l|]]; simpl;
    [|same_step].
  destruct (heap s1 !! l) as [req|]; [|same_step].
  destruct (processIncomingSecurity codec reply (session_user (config s1)));
    [same_step|].
  destruct (negb (version reply =? version (message req))); [same_step|].
  destruct (negb (bool_decide (community reply = community (message req))));
    [same_step|].
  destruct (pdu_type (pdu reply) =? PduType.Report); [apply onReport_same|].
  destruct (bool_decide (is_Some (proxy (config s1)))).
  - unfold onProxyResponse. destruct (negb (version reply =? Version3));
      same_step.
  - destruct (pdu_type (pdu reply) =? PduType.GetResponse);
      [apply onSimpleGetResponse_same | same_step].
Qed.

Lemma onMsg_well_formed s decoded : well_formed s -> well_formed (onMsg codec s decoded).
Proof.
  intros Hwf. destruct decoded as [error|reply]; [exact Hwf|].
  destruct (onMsg_after_unregister s reply) as (s1 & -> & Hsame).
  apply (well_formed_same _ _ Hsame). apply unregisterRequest_well_formed. exact Hwf.
Qed.

Lemma handle_well_formed s ev : well_formed s -> well_formed (handle codec s ev).
Proof.
  intros Hwf. destruct ev as [k error|h|decoded|]; simpl.
  - apply send_completed_well_formed. exact Hwf.
  - apply timer_fired_well_formed. exact Hwf.
  - apply onMsg_well_formed. exact Hwf.
  - unfold onClose. apply (cancelRequests_well_formed s (OtherError "Socket forcibly closed")) in Hwf.
    exact Hwf.
Qed.

Lemma reached_well_formed cfg objects actions :
  well_formed (reached codec cfg objects actions).
Proof.
  unfold reached.
  assert (Hnew : well_formed (new_Session cfg objects)).
  { split; [apply new_Session_inv|]. split; [|split; [|split]].
    - apply map_Forall_empty.
    - intros h l Hl. simpl in Hl. rewrite lookup_empty in Hl. discriminate.
    - apply NoDup_nil_2.
    - intros id. simpl. rewrite lookup_empty. split; [intros H|intros [? H]].
      + apply elem_of_nil in H. contradiction.
      + discriminate. }
  revert Hnew. generalize (new_Session cfg objects).
  induction actions as [|a actions IH]; intros s Hwf; simpl; [exact Hwf|].
  apply IH. destruct a as [l noWait|ev]; simpl.
  - apply send_well_formed. exact Hwf.
  - apply handle_well_formed. exact Hwf.
Qed.

End WellFormed.

(** X19: In every session reached from a fresh one by calls of [send] and by
    events (callbacks of the socket, timers, datagrams, the close of the
    socket), [reqCount] is the number of requests in the registry and the
    socket is ref'd exactly when that number is above 0. *)
Theorem reached_session_counts_requests
    (codec : Codec) (cfg : Config) (objects : gmap nat Req) (actions : list Action) :
  reqCount (reached codec cfg objects actions)
  = Z.of_nat (size (reqs (reached codec cfg objects actions))) /\
  (dgram_refd (reached codec cfg objects actions) = true
   <-> 0 < reqCount (reached codec cfg objects actions)).
Proof.
  destruct (reached_well_formed codec cfg objects actions) as ((Hc & Hr) & _).
  split; [exact Hc|]. rewrite Hr. apply Z.ltb_lt.
Qed.

(** X20: In every reached session a registry entry is filed under the id of
    the message of its request, so looking a reply's id up finds the
    request that was sent with that id. *)
Theorem reached_registry_is_keyed_by_id
    (codec : Codec) (cfg : Config) (objects : gmap nat Req) (actions : list Action)
    (id : Z) (l : nat) :
  reqs (reached codec cfg objects actions) !! id = Some l ->
  exists req,
    heap (reached codec cfg objects actions) !! l = Some req /\
    reqId (message req) = id.
Proof.
  intros Hl. destruct (reached_well_formed codec cfg objects actions) as (_ & Hk & _).
  exact (Hk id l Hl).
Qed.

Lemma reached_registry_is_keyed_by_id_witness :
  exists req,
    heap (reached sample_codec sample_config {[0%nat := sample_request 1]}
            [CallSend 0 false; Occurs (SendCompleted 0 None)]) !! 0%nat = Some req /\
    reqId (message req) = 7.
Proof.
  apply (reached_registry_is_keyed_by_id sample_codec sample_config
           {[0%nat := sample_request 1]}
           [CallSend 0 false; Occurs (SendCompleted 0 None)] 7 0).
  vm_compute. reflexivity.
Defined.

(** ** Closing the socket *)

Section Cancelling.

Lemma unregisterRequest_registered s id l :
  reqs s !! id = Some l ->
  reqs (fst (unregisterRequest s id)) = delete id (reqs s) /\
  log (fst (unregisterRequest s id)) = log s /\
  (forall l0, responseCb <$> heap (fst (unregisterRequest s id)) !! l0
              = responseCb <$> heap s !! l0).
Proof.
  intros Hl. unfold unregisterRequest. rewrite Hl.
  assert (Hcb : forall l0, responseCb <$> alter (set_timer None) l (heap s) !! l0
                           = responseCb <$> heap s !! l0).
  { intros l0. destruct (decide (l0 = l)) as [->|Hne].
    - rewrite lookup_alter_eq. destruct (heap s !! l); reflexivity.
    - rewrite lookup_alter_ne by auto. reflexivity. }
  destruct (match heap s !! l with Some req => timer req | None => None end);
    simpl; destruct (reqCount s - 1 <=? 0); simpl; auto.
Qed.

Lemma cancel_one_registered error s id cb :
  keyed s -> callback_of s id = Some cb ->
  reqs (cancel_one error s id) = delete id (reqs s) /\
  log (cancel_one error s id) = log s ++ [Called cb (Failure error)] /\
  keyed (cancel_one error s id) /\
  (forall id', id' <> id -> callback_of (cancel_one error s id) id' = callback_of s id').
Proof.
  intros Hk Hcb. unfold callback_of in Hcb. unfold cancel_one.
  destruct (reqs s !! id) as [l|] eqn:Hl; [|discriminate].
  destruct (Hk id l Hl) as (req & Hreq & Hid). rewrite Hreq in *. simpl in Hcb.
  injection Hcb as <-. rewrite Hid.
  destruct (unregisterRequest_registered s id l Hl) as (Hr & Hlog & Hcbs).
  simpl. split; [exact Hr|]. split; [rewrite Hlog; reflexivity|]. split.
  - unfold keyed. simpl. rewrite Hr. intros id0 l0 Hl0.
    apply lookup_delete_Some in Hl0 as [_ Hl0].
    destruct (Hk id0 l0 Hl0) as (r & Hr0 & Hid0).
    unfold unregisterRequest. rewrite Hl.
    assert (Ha : exists r', alter (set_timer None) l (heap s) !! l0 = Some r' /\ getId r' = id0).
    { destruct (decide (l0 = l)) as [->|Hne].
      - exists (set_timer None r). rewrite lookup_alter_eq, Hr0. auto.
      - exists r. rewrite lookup_alter_ne by auto. auto. }
    destruct (match heap s !! l with Some req0 => timer req0 | None => None end);
      simpl; destruct (reqCount s - 1 <=? 0); simpl; exact Ha.
  - intros id' Hne. unfold callback_of. simpl. rewrite Hr.
    rewrite lookup_delete_ne by auto.
    destruct (reqs s !! id') as [l'|]; [apply Hcbs | reflexivity].
Qed.

Lemma cancel_all error ids : forall s,
  keyed s -> NoDup ids -> (forall id, id ∈ ids -> is_Some (reqs s !! id)) ->
  exists cbs,
    Forall2 (fun id cb => callback_of s id = Some cb) ids cbs /\
    log (fold_left (cancel_one error) ids s)
    = log s ++ map (fun cb => Called cb (Failure error)) cbs /\
    (forall id, reqs (fold_left (cancel_one error) ids s) !! id
                = if decide (id ∈ ids) then None else reqs s !! id).
Proof.
  induction ids as [|id ids IH]; intros s Hk Hnd Hin.
  - exists []. simpl. rewrite app_nil_r. split; [constructor|]. split; [reflexivity|].
    intros id. destruct (decide (id ∈ [])) as [H|_]; [|reflexivity].
    apply elem_of_nil in H. contradiction.
  - apply NoDup_cons in Hnd as [Hnotin Hnd].
    destruct (Hin id ltac:(left)) as [l Hl].
    destruct (Hk id l Hl) as (req & Hreq & Hid).
    assert (Hcb : callback_of s id = Some (responseCb req))
      by (unfold callback_of; rewrite Hl, Hreq; reflexivity).
    destruct (cancel_one_registered error s id _ Hk Hcb) as (Hr & Hlog & Hk' & Hothers).
    destruct (IH (cancel_one error s id) Hk' Hnd) as (cbs & Hcbs & Hlogs & Hreqs).
    { intros id' Hid'. rewrite Hr. rewrite lookup_delete_ne; [apply Hin; right; exact Hid'|].
      intros ->. contradiction. }
    exists (responseCb req :: cbs). split; [|split].
    + constructor; [exact Hcb|].
      assert (Hall : Forall (fun id' => id' <> id) ids).
      { apply Forall_forall. intros id' Hid' ->. contradiction. }
      clear -Hcbs Hothers Hall. induction Hcbs as [|id' cb ids cbs Hcb' _ IHf];
        [constructor|].
      apply Forall_cons in Hall as [Hne Hall].
      constructor; [rewrite <- Hothers by exact Hne; exact Hcb' | apply IHf; exact Hall].
    + simpl. rewrite Hlogs, Hlog, <- app_assoc. reflexivity.
    + intros id'. simpl. rewrite Hreqs, Hr.
      destruct (decide (id' ∈ ids)) as [Hi|Hi].
      * rewrite decide_True by (right; exact Hi). reflexivity.
      * destruct (decide (id' = id)) as [->|Hne].
        -- rewrite decide_True by left. apply lookup_delete_eq.
        -- rewrite decide_False by (intros H; apply elem_of_cons in H as [?|?]; auto).
           apply lookup_delete_ne. auto.
Qed.

Lemma filter_split_Permutation (p : Z -> bool) (ids : list Z) :
  List.filter p ids ++ List.filter (fun id => negb (p id)) ids ≡ₚ ids.
Proof.
  induction ids as [|id ids IH]; simpl; [reflexivity|].
  destruct (p id); simpl.
  - constructor. exact IH.
  - rewrite <- Permutation_middle. constructor. exact IH.
Qed.

Lemma registered_ids_Permutation s : registered_ids s ≡ₚ reqs_order s.
Proof.
  unfold registered_ids. rewrite merge_sort_Permutation. apply filter_split_Permutation.
Qed.

Lemma registered_ids_spec s id :
  ordered s -> id ∈ registered_ids s <-> is_Some (reqs s !! id).
Proof. intros [_ Hin]. rewrite registered_ids_Permutation. apply Hin. Qed.

Lemma registered_ids_NoDup s : ordered s -> NoDup (registered_ids s).
Proof. intros [Hnd _]. rewrite registered_ids_Permutation. exact Hnd. Qed.

Lemma registered_ids_Sorted s :
  (forall id, id ∈ reqs_order s -> index_id id = true) -> Sorted Z.le (registered_ids s).
Proof.
  intros Hall. unfold registered_ids.
  assert (Hnone : List.filter (fun id => negb (index_id id)) (reqs_order s) = []).
  { induction (reqs_order s) as [|id ids IH]; simpl; [reflexivity|].
    rewrite (Hall id) by left. simpl. apply IH. intros id' Hin. apply Hall. right. exact Hin. }
  rewrite Hnone, app_nil_r. apply (Sorted_merge_sort Z.le).
Qed.

End Cancelling.

(** X21: When the socket closes, every request registered in a reached
    session has its response callback called once with the error
    'Socket forcibly closed', in the order in which [for ... in] visits
    the ids of the registry, which is the ascending order when every
    registered id is an array index (a whole number from 0 to 2^32 - 2);
    after that the 'close' event is emitted, the registry is empty, the
    count is 0 and the socket is unref'd. *)
Theorem onClose_fails_every_pending_request
    (codec : Codec) (cfg : Config) (objects : gmap nat Req) (actions : list Action) :
  let s := reached codec cfg objects actions in
  exists callbacks,
    Forall2 (fun id cb => callback_of s id = Some cb) (registered_ids s) callbacks /\
    (forall id, id ∈ registered_ids s <-> is_Some (reqs s !! id)) /\
    NoDup (registered_ids s) /\
    ((forall id, is_Some (reqs s !! id) -> 0 <= id <= 4294967294) ->
     Sorted Z.le (registered_ids s)) /\
    log (onClose s)
    = log s ++ map (fun cb => Called cb (Failure (OtherError "Socket forcibly closed")))
                 callbacks
            ++ [Emitted "close" None] /\
    reqs (onClose s) = ∅ /\ reqCount (onClose s) = 0 /\ dgram_refd (onClose s) = false.
Proof.
  intros s.
  pose proof (reached_well_formed codec cfg objects actions) as Hwf. fold s in Hwf.
  destruct Hwf as (Hinv & Hk & Hf & Hord).
  destruct (cancel_all (OtherError "Socket forcibly closed") (registered_ids s) s Hk
              (registered_ids_NoDup s Hord)) as (cbs & Hcbs & Hlog & Hreqs).
  { intros id. apply registered_ids_spec. exact Hord. }
  assert (Hempty : reqs (onClose s) = ∅).
  { apply map_eq. intros id. rewrite lookup_empty.
    change (reqs (onClose s)) with (reqs (cancelRequests s (OtherError "Socket forcibly closed"))).
    unfold cancelRequests. rewrite Hreqs.
    destruct (decide (id ∈ registered_ids s)) as [|Hno]; [reflexivity|].
    destruct (reqs s !! id) eqn:Hid; [|reflexivity].
    exfalso. apply Hno. apply registered_ids_spec; [exact Hord | eauto]. }
  assert (Hwf' : well_formed (onClose s)).
  { apply (cancelRequests_well_formed s (OtherError "Socket forcibly closed")).
    split; [exact Hinv|]. split; [exact Hk|]. split; [exact Hf | exact Hord]. }
  destruct Hwf' as ((Hc' & Hr') & _).
  exists cbs. split; [exact Hcbs|].
  split; [intros id; apply registered_ids_spec; exact Hord|].
  split; [apply registered_ids_NoDup; exact Hord|]. split.
  - intros Hindex. apply registered_ids_Sorted. intros id Hin.
    apply (proj2 Hord) in Hin. apply Hindex in Hin. unfold index_id.
    apply andb_true_iff. split; apply Z.leb_le; lia.
  - split; [|split; [exact Hempty|]].
    + unfold onClose, cancelRequests. simpl. rewrite Hlog.
      rewrite <- app_assoc. reflexivity.
    + rewrite Hempty in Hc'. rewrite map_size_empty in Hc'. split; [exact Hc'|].
      rewrite Hr', Hc'. reflexivity.
Qed.

(** Ids that are no array indices are visited after those that are, in
    the order of their registration: registered in the order 4294967296,
    4294967295, 5, the requests are failed in the order 5, 4294967296,
    4294967295. *)
Example onClose_visits_array_indices_first :
  let s := new_Session sample_config
             {[0%nat := sample_request_with 4294967296 10;
               1%nat := sample_request_with 4294967295 11;
               2%nat := sample_request_with 5 12]} in
  let s' := registerRequest (registerRequest (registerRequest s 0) 1) 2 in
  registered_ids s' = [5; 4294967296; 4294967295] /\
  log (onClose s')
  = [Called 12 (Failure (OtherError "Socket forcibly closed"));
     Called 10 (Failure (OtherError "Socket forcibly closed"));
     Called 11 (Failure (OtherError "Socket forcibly closed"));
     Emitted "close" None].
Proof. split; vm_compute; reflexivity. Qed.

(** ** Registering and unregistering *)

(** X22: In a reached session, registering a request whose id is free and
    unregistering it again finds the request and brings the registry,
    the count, the state of the socket and the armed timers back to what
    they were; nothing is done to the outside. *)
Theorem unregisterRequest_undoes_registerRequest
    (codec : Codec) (cfg : Config) (objects : gmap nat Req) (actions : list Action)
    (l : nat) (req : Req) :
  let s := reached codec cfg objects actions in
  heap s !! l = Some req -> reqs s !! getId req = None ->
  snd (unregisterRequest (registerRequest s l) (getId req)) = Some l /\
  reqs (fst (unregisterRequest (registerRequest s l) (getId req))) = reqs s /\
  reqCount (fst (unregisterRequest (registerRequest s l) (getId req))) = reqCount s /\
  dgram_refd (fst (unregisterRequest (registerRequest s l) (getId req))) = dgram_refd s /\
  timers (fst (unregisterRequest (registerRequest s l) (getId req))) = timers s /\
  log (fst (unregisterRequest (registerRequest s l) (getId req))) = log s.
Proof.
  intros s Hl Hfree.
  pose proof (reached_well_formed codec cfg objects actions) as Hwf. fold s in Hwf.
  destruct Hwf as ((Hc & Hr) & _ & Hf).
  assert (Hnone : timers s !! timer_seq s = None).
  { destruct (timers s !! timer_seq s) as [l0|] eqn:Ht; [|reflexivity].
    apply Hf in Ht. lia. }
  assert (Hcount : 0 <= reqCount s) by lia.
  unfold registerRequest. rewrite Hl, Hfree. unfold unregisterRequest. simpl.
  rewrite !lookup_insert_eq. simpl.
  rewrite (delete_insert_id (reqs s)) by exact Hfree.
  rewrite (delete_insert_id (timers s)) by exact Hnone.
  replace (reqCount s + 1 - 1) with (reqCount s) by lia.
  destruct (Z.leb_spec (reqCount s) 0) as [Hz|Hp]; simpl.
  - repeat split; try reflexivity. rewrite Hr. symmetry. apply Z.ltb_ge. lia.
  - repeat split; reflexivity.
Qed.

Lemma unregisterRequest_undoes_registerRequest_witness :
  snd (unregisterRequest
         (registerRequest (reached sample_codec sample_config {[0%nat := sample_request 1]} []) 0)
         (getId (sample_request 1))) = Some 0%nat /\
  reqs (fst (unregisterRequest
         (registerRequest (reached sample_codec sample_config {[0%nat := sample_request 1]} []) 0)
         (getId (sample_request 1))))
  = reqs (reached sample_codec sample_config {[0%nat := sample_request 1]} []).
Proof.
  destruct (unregisterRequest_undoes_registerRequest sample_codec sample_config
              {[0%nat := sample_request 1]} [] 0 (sample_request 1))
    as (Hfound & Hreqs & _); [reflexivity | reflexivity |].
  split; [exact Hfound | exact Hreqs].
Defined.

(** ** Sending without waiting *)

(** X23: A request sent with noWait (a trap) is never registered and gets no
    timer: when the socket reports on the datagram its response callback
    is called once, with the error of the socket or with nothing, and the
    registry and the timers are as they were before the send. *)
Theorem send_noWait_never_registers
    (codec : Codec) (s : Session) (l : nat) (req : Req) (buffer : Buffer)
    (error : option Error) :
  heap s !! l = Some req -> toBuffer codec (message req) = inr buffer ->
  sends (send codec s l true) = sends s ++ [(l, true)] /\
  log (send codec s l true) = log s ++ [DgramSend buffer (port req)] /\
  log (send_completed (send codec s l true) (length (sends s)) error)
  = log s ++ [DgramSend buffer (port req);
              Called (responseCb req)
                (match error with Some e => Failure e | None => Success NoData end)] /\
  reqs (send_completed (send codec s l true) (length (sends s)) error) = reqs s /\
  reqCount (send_completed (send codec s l true) (length (sends s)) error) = reqCount s /\
  timers (send_completed (send codec s l true) (length (sends s)) error) = timers s /\
  sends (send_completed (send codec s l true) (length (sends s)) error) = sends s.
Proof.
  intros Hl Hb. unfold send. rewrite Hl, Hb. simpl.
  split; [reflexivity|]. split; [reflexivity|].
  unfold send_completed. simpl.
  rewrite lookup_app_r by lia. rewrite Nat.sub_diag. simpl. rewrite Hl.
  assert (Hdel : delete (length (sends s)) (sends s ++ [(l, true)]) = sends s).
  { rewrite delete_middle. apply app_nil_r. }
  destruct error as [e|]; simpl; rewrite Hdel, <- app_assoc; repeat split; reflexivity.
Qed.

Lemma send_noWait_never_registers_witness :
  log (send_completed
         (send sample_codec (new_Session sample_config {[0%nat := sample_request 1]}) 0 true)
         (length (sends (new_Session sample_config {[0%nat := sample_request 1]}))) None)
  = log (new_Session sample_config {[0%nat := sample_request 1]})
    ++ [DgramSend [] (port (sample_request 1));
        Called (responseCb (sample_request 1)) (Success NoData)] /\
  reqs (send_completed
          (send sample_codec (new_Session sample_config {[0%nat := sample_request 1]}) 0 true)
          (length (sends (new_Session sample_config {[0%nat := sample_request 1]}))) None)
  = reqs (new_Session sample_config {[0%nat := sample_request 1]}).
Proof.
  destruct (send_noWait_never_registers sample_codec
              (new_Session sample_config {[0%nat := sample_request 1]}) 0
              (sample_request 1) [] None)
    as (_ & _ & Hlog & Hreqs & _); [vm_compute; reflexivity | reflexivity |].
  split; [exact Hlog | exact Hreqs].
Defined.

(** ** Datagrams *)

Section DatagramProofs.

Variable codec : Codec.

Lemma unregisterRequest_log s id : log (fst (unregisterRequest s id)) = log s.
Proof.
  unfold unregisterRequest. destruct (reqs s !! id) as [l|]; [|reflexivity].
  destruct (match heap s !! l with Some req => timer req | None => None end);
    simpl; destruct (reqCount s - 1 <=? 0); reflexivity.
Qed.

Local Abbreviation one_more s s' :=
  (exists effects, log s' = log s ++ effects /\ (length effects <= 1)%nat).

Lemma one_more_none s s' : log s' = log s -> one_more s s'.
Proof. intros H. exists []. rewrite app_nil_r. split; [exact H | simpl; lia]. Qed.

Lemma one_more_one s s' e : log s' = log s ++ [e] -> one_more s s'.
Proof. intros H. exists [e]. split; [exact H | simpl; lia]. Qed.

Lemma send_one_more s l noWait : one_more s (send codec s l noWait).
Proof.
  unfold send. destruct (heap s !! l) as [req|]; [|apply one_more_none; reflexivity].
  destruct (toBuffer codec (message req)); eapply one_more_one; reflexivity.
Qed.

Lemma onSimpleGetResponse_one_more s req reply :
  one_more s (onSimpleGetResponse s req reply).
Proof.
  unfold onSimpleGetResponse.
  destruct (0 <? errorStatus (pdu reply)).
  - destruct (ErrorStatus.name (errorStatus (pdu reply)));
      destruct ((errorIndex (pdu reply) <=? 0)
                || (Z.of_nat (length (pdu_varbinds (pdu reply))) <? errorIndex (pdu reply)));
      try (eapply one_more_one; reflexivity);
      destruct (pdu_varbinds (pdu reply) !! Z.to_nat (errorIndex (pdu reply) - 1));
      eapply one_more_one; reflexivity.
  - destruct (run_feedCb _ _ _); eapply one_more_one; reflexivity.
Qed.

Lemma onReport_one_more s req reply : one_more s (onReport codec s req reply).
Proof.
  unfold onReport.
  destruct (msgSecurity reply) as [sp|]; [|eapply one_more_one; reflexivity].
  destruct (proxy (config s)); [apply one_more_none; reflexivity|].
  destruct (originalPdu req) as [original|]; [destruct (allowReport req)|].
  - unfold sendV3Req.
    match goal with |- one_more _ (send codec ?s1 ?l ?w) =>
      destruct (send_one_more s1 l w) as (effects & Hlog & Hlen) end.
    exists effects. split; [exact Hlog | exact Hlen].
  - destruct (pdu_varbinds (pdu reply)) as [|first rest];
      [eapply one_more_one; reflexivity|].
    destruct (starts_with UsmStatsBase (oid first)); eapply one_more_one; reflexivity.
  - destruct (pdu_varbinds (pdu reply)) as [|first rest];
      [eapply one_more_one; reflexivity|].
    destruct (starts_with UsmStatsBase (oid first)); eapply one_more_one; reflexivity.
Qed.

Lemma onMsg_one_more s decoded : one_more s (onMsg codec s decoded).
Proof.
  destruct decoded as [error|reply]; [eapply one_more_one; reflexivity|].
  unfold onMsg. pose proof (unregisterRequest_log s (reqId reply)) as Hlog.
  destruct (unregisterRequest s (reqId reply)) as [s1 [l|]]; simpl in Hlog;
    [|apply one_more_none; exact Hlog].
  assert (Hvia : one_more s1 (match heap s1 !! l with
      | None => s1
      | Some req =>
          match processIncomingSecurity codec reply (session_user (config s1)) with
          | Some error => respond req (Failure error) s1
          | None =>
              if negb (version reply =? version (message req)) then
                respond req (Failure (ResponseInvalidError
                  ("Version in request '" +:+ pretty (version (message req))
                   +:+ "' does not match version in response '"
                   +:+ pretty (version reply) +:+ "'")
                  (Some ResponseInvalidCode.EVersionNoMatch))) s1
              else if negb (bool_decide (community reply = community (message req))) then
                respond req (Failure (ResponseInvalidError
                  ("Community '" +:+ show_community (community (message req))
                   +:+ "' in request does not match community '"
                   +:+ show_community (community reply) +:+ "' in response")
                  (Some ResponseInvalidCode.ECommunityNoMatch))) s1
              else if pdu_type (pdu reply) =? PduType.Report then onReport codec s1 req reply
              else if bool_decide (is_Some (proxy (config s1))) then
                onProxyResponse s1 req reply
              else if pdu_type (pdu reply) =? PduType.GetResponse then
                onSimpleGetResponse s1 req reply
              else
                respond req (Failure (ResponseInvalidError
                  ("Unknown PDU type '" +:+ pretty (pdu_type (pdu reply))
                   +:+ "' in response")
                  (Some ResponseInvalidCode.EUnknownPduType))) s1
          end
      end)).
  { destruct (heap s1 !! l) as [req|]; [|apply one_more_none; reflexivity].
    destruct (processIncomingSecurity codec reply (session_user (config s1)));
      [eapply one_more_one; reflexivity|].
    destruct (negb (version reply =? version (message req)));
      [eapply one_more_one; reflexivity|].
    destruct (negb (bool_decide (community reply = community (message req))));
      [eapply one_more_one; reflexivity|].
    destruct (pdu_type (pdu reply) =? PduType.Report); [apply onReport_one_more|].
    destruct (bool_decide (is_Some (proxy (config s1)))).
    - unfold onProxyResponse. destruct (negb (version reply =? Version3));
        eapply one_more_one; reflexivity.
    - destruct (pdu_type (pdu reply) =? PduType.GetResponse);
        [apply onSimpleGetResponse_one_more | eapply one_more_one; reflexivity]. }
  destruct Hvia as (effects & Heff & Hlen). exists effects. rewrite <- Hlog. auto.
Qed.

Lemma onMsg_unknown_id s reply :
  reqs s !! reqId reply = None -> onMsg codec s (inr reply) = s.
Proof. intros H. unfold onMsg, unregisterRequest. rewrite H. reflexivity. Qed.

End DatagramProofs.

(** X24: One datagram makes the session do at most one thing to the outside
    (one call of a response callback, one datagram sent, one event
    emitted, one message handed to the proxy), and a reply whose id is
    not in the registry changes nothing at all. *)
Theorem onMsg_does_at_most_one_thing (codec : Codec) (s : Session) :
  (forall decoded,
     exists effects,
       log (onMsg codec s decoded) = log s ++ effects /\ (length effects <= 1)%nat) /\
  (forall reply, reqs s !! reqId reply = None -> onMsg codec s (inr reply) = s).
Proof.
  split; [intros decoded; apply onMsg_one_more | intros reply; apply onMsg_unknown_id].
Qed.

(** X25: Once a reply was dispatched, a datagram with the same request id
    that comes next has no effect, whatever it holds and whichever way
    the first one went. *)
Theorem onMsg_ignores_duplicate_reply (codec : Codec) (s : Session) (reply again : Message) :
  reqId again = reqId reply ->
  onMsg codec (onMsg codec s (inr reply)) (inr again) = onMsg codec s (inr reply).
Proof.
  intros Hid. apply onMsg_unknown_id. rewrite Hid. apply onMsg_removes_entry.
Qed.

Lemma onMsg_ignores_duplicate_reply_witness :
  onMsg sample_codec
    (onMsg sample_codec
       (run sample_codec sample_sent [SendCompleted 0 None]) (inr sample_reply))
    (inr sample_reply)
  = onMsg sample_codec (run sample_codec sample_sent [SendCompleted 0 None]) (inr sample_reply).
Proof. apply onMsg_ignores_duplicate_reply. reflexivity. Defined.

(** ** Back-off *)

Section BackOff.

Lemma round_half_even_whole n : round_half_even n 1 = n.
Proof. unfold round_half_even. rewrite Z.mod_1_r, Z.div_1_r. reflexivity. Qed.

Lemma Qred_whole z : Qred (inject_Z z) = inject_Z z.
Proof.
  unfold Qred, inject_Z.
  pose proof (Z.ggcd_gcd z 1) as Hg. pose proof (Z.ggcd_correct_divisors z 1) as Hd.
  destruct (Z.ggcd z 1) as [g [aa bb]]. simpl in *.
  rewrite Z.gcd_1_r in Hg. subst g. destruct Hd as [Ha Hb].
  rewrite Z.mul_1_l in Ha, Hb. subst aa bb. reflexivity.
Qed.

(** A whole number below 2^53 is a double. *)
Lemma round_double_whole z :
  Z.abs z < 2 ^ 53 -> round_double (inject_Z z) = Finite (inject_Z z).
Proof.
  intros Hz. unfold round_double. cbn [Qnum Qden inject_Z].
  destruct (Z.eqb_spec (Z.abs z) 0) as [H0|Hn].
  { replace z with 0 by lia. reflexivity. }
  change (Z.log2 1) with 0. rewrite Z.sub_0_r.
  assert (Hk : 0 <= Z.log2 (Z.abs z)) by apply Z.log2_nonneg.
  destruct (Z.log2_spec (Z.abs z)) as [Hlo Hhi]; [lia|].
  assert (Hk52 : Z.log2 (Z.abs z) <= 52).
  { apply Z.lt_succ_r. apply Z.log2_lt_pow2; lia. }
  destruct (Z.leb_spec 0 (Z.log2 (Z.abs z))); [|lia].
  rewrite Z.mul_1_l. destruct (Z.leb_spec (2 ^ Z.log2 (Z.abs z)) (Z.abs z)); [|lia].
  rewrite Z.max_l by lia.
  set (e := Z.log2 (Z.abs z) - 52).
  assert (Hcanon : forall w : Q, (w == inject_Z z)%Q -> Finite (Qred w) = Finite (inject_Z z)).
  { intros w Hw. rewrite (Qred_complete _ _ Hw). rewrite Qred_whole. reflexivity. }
  destruct (Z.leb_spec 0 e) as [He|He].
  - assert (He0 : e = 0) by lia. rewrite He0. change (2 ^ 0) with 1.
    rewrite round_half_even_whole, Z.mul_1_r.
    destruct (Z.leb_spec (2 ^ 1024) (Z.abs z)) as [Hbig|_].
    { exfalso. assert (2 ^ 53 < 2 ^ 1024) by (apply Z.pow_lt_mono_r; lia). lia. }
    simpl andb. cbv iota. apply Hcanon.
    destruct (Z.ltb_spec z 0); unfold Qeq, Qopp; simpl; lia.
  - simpl andb. cbv iota. rewrite round_half_even_whole. apply Hcanon.
    assert (Hp : 0 < 2 ^ (- e)) by (apply Z.pow_pos_nonneg; lia).
    destruct (Z.ltb_spec z 0); unfold Qeq, Qopp; cbn [Qnum Qden inject_Z];
      rewrite Z2Pos.id by exact Hp; nia.
Qed.

Lemma js_times_whole t b :
  Z.abs (t * b) < 2 ^ 53 ->
  js_times (Finite (inject_Z t)) (inject_Z b) = Finite (inject_Z (t * b)).
Proof. intros H. unfold js_times. apply (round_double_whole (t * b) H). Qed.

Lemma js_times_whole_iter t b k :
  1 <= b -> Z.abs t * b ^ Z.of_nat k < 2 ^ 53 ->
  Nat.iter k (fun x => js_times x (inject_Z b)) (Finite (inject_Z t))
  = Finite (inject_Z (t * b ^ Z.of_nat k)).
Proof.
  intros Hb. induction k as [|k IH]; intros Hk.
  - simpl. rewrite Z.mul_1_r. reflexivity.
  - rewrite Nat2Z.inj_succ, Z.pow_succ_r in * by lia.
    assert (Hpow : 0 < b ^ Z.of_nat k) by (apply Z.pow_pos_nonneg; lia).
    simpl. rewrite IH by nia. rewrite js_times_whole.
    + f_equal. f_equal. ring.
    + rewrite !Z.abs_mul, (Z.abs_eq b), (Z.abs_eq (b ^ Z.of_nat k)) by lia. nia.
Qed.

End BackOff.

(** X26: Each registration of a request multiplies its timeout by its backoff
    factor, as doubles are multiplied, when that factor is at least 1,
    and leaves it alone otherwise. For a timeout and a factor that are
    whole numbers no rounding takes place as long as the product stays
    below 2^53: after [k] registrations the timeout is the first one
    times the k-th power of the factor. *)
Theorem registerRequest_backs_off (k : nat) (s : Session) (l : nat) (req : Req) :
  heap s !! l = Some req ->
  exists req',
    heap (registered_times k l s) !! l = Some req' /\
    message req' = message req /\ backoff req' = backoff req /\
    (Qle_bool 1 (backoff req) = true ->
       timeout req' = Nat.iter k (fun t => js_times t (backoff req)) (timeout req)) /\
    (Qle_bool 1 (backoff req) = false -> timeout req' = timeout req) /\
    (forall t b : Z,
       timeout req = Finite (inject_Z t) -> backoff req = inject_Z b -> 1 <= b ->
       Z.abs t * b ^ Z.of_nat k < 2 ^ 53 ->
       timeout req' = Finite (inject_Z (t * b ^ Z.of_nat k))).
Proof.
  intros Hl.
  assert (Hmain : exists req',
    heap (registered_times k l s) !! l = Some req' /\
    message req' = message req /\ backoff req' = backoff req /\
    (Qle_bool 1 (backoff req) = true ->
       timeout req' = Nat.iter k (fun t => js_times t (backoff req)) (timeout req)) /\
    (Qle_bool 1 (backoff req) = false -> timeout req' = timeout req)).
  { induction k as [|k IH].
    - exists req. simpl. split; [exact Hl|]. repeat split; reflexivity.
    - destruct IH as (req1 & Hl1 & Hm & Hb & Hge & Hlt).
      change (registered_times (S k) l s)
        with (registerRequest (registered_times k l s) l).
      unfold registerRequest. rewrite Hl1.
      eexists. split.
      { destruct (reqs (registered_times k l s) !! getId req1); simpl;
          apply lookup_insert_eq. }
      simpl. split; [exact Hm|]. split; [exact Hb|]. rewrite Hb. split.
      + intros Hone. rewrite Hone. rewrite (Hge Hone). reflexivity.
      + intros Hsmall. rewrite Hsmall. exact (Hlt Hsmall). }
  destruct Hmain as (req' & Hl' & Hm & Hb & Hge & Hlt).
  exists req'. split; [exact Hl'|]. split; [exact Hm|]. split; [exact Hb|].
  split; [exact Hge|]. split; [exact Hlt|].
  intros t b Ht Hbf Hone Hsmall. rewrite Hge.
  - rewrite Ht, Hbf. apply js_times_whole_iter; assumption.
  - rewrite Hbf. unfold Qle_bool. simpl. apply Z.leb_le. lia.
Qed.

Lemma registerRequest_backs_off_witness :
  exists req',
    heap (registered_times 3 0
            (new_Session sample_config
               {[0%nat := mkReq (message (sample_request 1)) (GetFeed false) 0 1
                            (Finite (5000 # 1)) (2 # 1) 161 None false None]})) !! 0%nat
    = Some req' /\
    timeout req' = Finite (40000 # 1).
Proof.
  destruct (registerRequest_backs_off 3
              (new_Session sample_config
                 {[0%nat := mkReq (message (sample_request 1)) (GetFeed false) 0 1
                              (Finite (5000 # 1)) (2 # 1) 161 None false None]})
              0 (mkReq (message (sample_request 1)) (GetFeed false) 0 1
                   (Finite (5000 # 1)) (2 # 1) 161 None false None))
    as (req' & Hl & _ & _ & _ & _ & Hwhole); [vm_compute; reflexivity|].
  exists req'. split; [exact Hl|].
  apply (Hwhole 5000 2); [reflexivity | reflexivity | lia | vm_compute; reflexivity].
Defined.

(** With the factor 1.1, which as a double is 2476979795053773 / 2^51,
    two registrations take a timeout of 5000 to 6050.000000000001, the
    double that follows 6050, and not to the product of the three
    numbers. *)
Example registerRequest_rounds_the_product :
  timeout <$> heap (registered_times 2 0
                      (new_Session sample_config
                         {[0%nat := mkReq (message (sample_request 1)) (GetFeed false) 0 1
                                      (Finite (5000 # 1))
                                      (2476979795053773 # 2251799813685248)
                                      161 None false None]})) !! 0%nat
  = Some (Finite (6652045348044801 # 1099511627776)) /\
  ~ (6652045348044801 # 1099511627776
     == (5000 # 1) * (2476979795053773 # 2251799813685248)
        * (2476979795053773 # 2251799813685248))%Q.
Proof.
  split; [vm_compute; reflexivity|].
  unfold Qeq. vm_compute. discriminate.
Qed.

(** ** Error statuses *)

(** X27: A reply with an error status above 0 makes exactly one call, of the
    response callback with a RequestFailedError, and the feed callback is
    not run. For a status the table names, the message is the name and
    the status is the number; the OID of the varbind the error index
    points at is added after a colon when the index lies within the
    varbinds. For a status the table has no name for, the message is '5'
    (the number of GeneralError) and the status is the text
    'GeneralError'. *)
Theorem onSimpleGetResponse_reports_error_status
    (s : Session) (req : Req) (reply : Message) :
  0 < errorStatus (pdu reply) ->
  exists text status,
    onSimpleGetResponse s req reply
    = respond req (Failure (RequestFailedError text status)) s /\
    (exists prefix,
       (match ErrorStatus.name (errorStatus (pdu reply)) with
        | Some name => prefix = name /\ status = StatusCode (errorStatus (pdu reply))
        | None => prefix = "5"%string /\ status = StatusText "GeneralError"
        end) /\
       (errorIndex (pdu reply) <= 0 \/
        Z.of_nat (length (pdu_varbinds (pdu reply))) < errorIndex (pdu reply) ->
        text = prefix) /\
       (forall varbind,
          0 < errorIndex (pdu reply) ->
          pdu_varbinds (pdu reply) !! Z.to_nat (errorIndex (pdu reply) - 1) = Some varbind ->
          text = prefix +:+ ": " +:+ oid varbind)) /\
    (ErrorStatus.name (errorStatus (pdu reply)) = None <-> 18 < errorStatus (pdu reply)).
Proof.
  intros Hpos.
  assert (Hnamed : ErrorStatus.name (errorStatus (pdu reply)) = None
                   <-> 18 < errorStatus (pdu reply)).
  { unfold ErrorStatus.name.
    repeat match goal with
           | |- context [?x =? ?c] => destruct (Z.eqb_spec x c);
                                      [split; [discriminate | lia]|]
           end.
    split; [intros _; lia | reflexivity]. }
  unfold onSimpleGetResponse. destruct (Z.ltb_spec 0 (errorStatus (pdu reply))); [|lia].
  set (p := pdu reply) in *.
  assert (Hshape : forall prefix status,
    (match ErrorStatus.name (errorStatus p) with
     | Some name => prefix = name /\ status = StatusCode (errorStatus p)
     | None => prefix = "5"%string /\ status = StatusText "GeneralError"
     end) ->
    exists text status',
      (if (errorIndex p <=? 0) || (Z.of_nat (length (pdu_varbinds p)) <? errorIndex p)
       then respond req (Failure (RequestFailedError prefix status)) s
       else match pdu_varbinds p !! Z.to_nat (errorIndex p - 1) with
            | Some varbind =>
                respond req (Failure (RequestFailedError (prefix +:+ ": " +:+ oid varbind)
                                        status)) s
            | None => add_log Uncaught s
            end)
      = respond req (Failure (RequestFailedError text status')) s /\
      (exists prefix',
         (match ErrorStatus.name (errorStatus p) with
          | Some name => prefix' = name /\ status' = StatusCode (errorStatus p)
          | None => prefix' = "5"%string /\ status' = StatusText "GeneralError"
          end) /\
         (errorIndex p <= 0 \/ Z.of_nat (length (pdu_varbinds p)) < errorIndex p ->
          text = prefix') /\
         (forall varbind,
            0 < errorIndex p ->
            pdu_varbinds p !! Z.to_nat (errorIndex p - 1) = Some varbind ->
            text = prefix' +:+ ": " +:+ oid varbind)) /\
      (ErrorStatus.name (errorStatus p) = None <-> 18 < errorStatus p)).
  { intros prefix status Hps.
    destruct (Z.leb_spec (errorIndex p) 0) as [Hle|Hgt]; simpl.
    - exists prefix, status. split; [reflexivity|]. split; [|exact Hnamed].
      exists prefix. split; [exact Hps|]. split; [reflexivity|]. intros; lia.
    - destruct (Z.ltb_spec (Z.of_nat (length (pdu_varbinds p))) (errorIndex p)) as [Hout|Hin].
      + exists prefix, status. split; [reflexivity|]. split; [|exact Hnamed].
        exists prefix. split; [exact Hps|]. split; [reflexivity|].
        intros varbind _ Hvb. apply lookup_lt_Some in Hvb. lia.
      + destruct (lookup_lt_is_Some_2 (pdu_varbinds p) (Z.to_nat (errorIndex p - 1))
                    ltac:(lia)) as [vb Hvb].
        rewrite Hvb. exists (prefix +:+ ": " +:+ oid vb), status.
        split; [reflexivity|]. split; [|exact Hnamed].
        exists prefix. split; [exact Hps|]. split; [intros [?|?]; lia|].
        intros varbind _ Hvb'. congruence. }
  destruct (ErrorStatus.name (errorStatus p)) as [name|] eqn:Hname.
  - apply (Hshape name (StatusCode (errorStatus p))). auto.
  - apply (Hshape (pretty ErrorStatus.GeneralError) (StatusText "GeneralError")).
    split; reflexivity.
Qed.

Lemma onSimpleGetResponse_reports_error_status_witness :
  exists text status,
    onSimpleGetResponse sample_sent (sample_request 1)
      (mkMessage Version2c (Some "public"%string) 7
         (mkPdu PduType.GetResponse 7 [request_varbind "1.3.6.1.2.1.1.5.0"] 2 1 EmptyString)
         None)
    = respond (sample_request 1) (Failure (RequestFailedError text status)) sample_sent /\
    text = "NoSuchName: 1.3.6.1.2.1.1.5.0"%string /\ status = StatusCode 2.
Proof.
  destruct (onSimpleGetResponse_reports_error_status sample_sent (sample_request 1)
              (mkMessage Version2c (Some "public"%string) 7
                 (mkPdu PduType.GetResponse 7 [request_varbind "1.3.6.1.2.1.1.5.0"] 2 1
                    EmptyString) None))
    as (text & status & Hcall & (prefix & Hname & _ & Hoid) & _); [simpl; lia|].
  exists text, status. split; [exact Hcall|]. simpl in Hname. destruct Hname as [-> ->].
  split; [|reflexivity].
  apply (Hoid (request_varbind "1.3.6.1.2.1.1.5.0")); [simpl; lia | reflexivity].
Defined.

(** ** The constant objects *)

Section ConstantProofs.

Lemma obj_get_put object : forall key v key',
  obj_get (obj_put object key v) key'
  = if String.eqb key key' then Some v else obj_get object key'.
Proof.
  induction object as [|[k x] object IH]; intros key v key'; simpl.
  - reflexivity.
  - destruct (String.eqb_spec k key) as [->|Hk]; simpl.
    + destruct (String.eqb_spec key key'); reflexivity.
    + destruct (String.eqb_spec k key') as [->|Hk'].
      * destruct (String.eqb_spec key key'); [congruence | reflexivity].
      * apply IH.
Qed.

Lemma obj_get_set object key v key' :
  key <> "__proto__"%string ->
  obj_get (obj_set object key v) key'
  = if String.eqb key key' then Some v else obj_get object key'.
Proof.
  intros Hkey. unfold obj_set.
  destruct (String.eqb_spec key "__proto__") as [|_]; [contradiction|].
  destruct (obj_get object key); apply obj_get_put.
Qed.

Lemma obj_get_elem (object : JsObject) key v :
  obj_get object key = Some v -> (key, v) ∈ object.
Proof.
  induction object as [|[k x] object IH]; simpl; [discriminate|].
  destruct (String.eqb_spec k key) as [->|Hk].
  - intros [= ->]. left.
  - intros H. right. apply IH. exact H.
Qed.

Lemma obj_get_NoDup (object : JsObject) key v :
  NoDup (map fst object) -> (key, v) ∈ object -> obj_get object key = Some v.
Proof.
  induction object as [|[k x] object IH]; simpl; intros Hnd Hin.
  - apply elem_of_nil in Hin. contradiction.
  - apply NoDup_cons in Hnd as [Hk Hnd].
    apply elem_of_cons in Hin as [[= -> ->]|Hin].
    + rewrite String.eqb_refl. reflexivity.
    + destruct (String.eqb_spec k key) as [->|_]; [|apply IH; assumption].
      exfalso. apply Hk. apply list_elem_of_In, in_map_iff.
      exists (key, v). split; [reflexivity|]. apply list_elem_of_In. exact Hin.
Qed.

Lemma own_keys_spec (object : JsObject) key :
  key ∈ own_keys object <-> key ∈ map fst object.
Proof.
  unfold own_keys. rewrite elem_of_app, merge_sort_Permutation.
  rewrite !list_elem_of_In, !filter_In, <- !list_elem_of_In.
  destruct (is_array_index key); simpl; intuition discriminate.
Qed.

Lemma span_digits_all s : all_chars is_digit s = true -> span_digits s = (s, EmptyString).
Proof.
  induction s as [|c s IH]; simpl; [reflexivity|].
  intros H. apply andb_true_iff in H as [Hc Hs]. rewrite Hc, (IH Hs). reflexivity.
Qed.

Lemma is_digit_not_space c : is_digit c = true -> is_space c = false.
Proof.
  unfold is_digit, is_space. intros H. apply andb_true_iff in H as [H1 H2].
  apply Z.leb_le in H1, H2.
  destruct (Z.leb_spec 9 (charCode c)), (Z.leb_spec (charCode c) 13),
    (Z.eqb_spec (charCode c) 32), (Z.eqb_spec (charCode c) 160); simpl; try reflexivity; lia.
Qed.

Lemma decimal_go_nonneg s : forall acc,
  0 <= acc -> all_chars is_digit s = true -> 0 <= decimal_go acc s.
Proof.
  induction s as [|c s IH]; intros acc Hacc Hd; simpl; [exact Hacc|].
  simpl in Hd. apply andb_true_iff in Hd as [Hc Hs].
  apply IH; [|exact Hs]. pose proof (is_digit_range c Hc). lia.
Qed.

Lemma parseInt10_numeral key :
  numeral_key key = true -> parseInt10 key = JNumber (decimal_value key).
Proof.
  unfold numeral_key. intros H. apply andb_true_iff in H as [H Hsmall].
  apply andb_true_iff in H as [Hne Hd]. apply Z.ltb_lt in Hsmall.
  destruct key as [|c key]; [discriminate|].
  pose proof Hd as Hd'. simpl in Hd'. apply andb_true_iff in Hd' as [Hc Hrest].
  unfold parseInt10. simpl skip_spaces. rewrite (is_digit_not_space c Hc).
  assert (Hsign : forall A (x y z : A),
            match String c key with
            | String "-" rest => x | String "+" rest => y | _ => z end = z).
  { intros A x y z. unfold is_digit in Hc. apply andb_true_iff in Hc as [H1 H2].
    apply Z.leb_le in H1, H2.
    destruct c as [[] [] [] [] [] [] [] []]; try reflexivity;
      vm_compute in H1; vm_compute in H2; contradiction. }
  assert (Hgoal : (let '(negative, s) :=
                     match String c key with
                     | String "-" rest => (true, rest)
                     | String "+" rest => (false, rest)
                     | _ => (false, String c key)
                     end in
                   let '(digits, _) := span_digits s in
                   if String.eqb digits EmptyString then JNaN
                   else JNumber (round53 (if negative : bool then - decimal_value digits
                                          else decimal_value digits)))
                  = JNumber (decimal_value (String c key))).
  { destruct c as [[] [] [] [] [] [] [] []];
      try (rewrite (span_digits_all _ Hd); simpl String.eqb; cbv iota;
           rewrite round53_exact;
           [reflexivity
           | pose proof (decimal_go_nonneg (String _ key) 0 ltac:(lia) Hd);
             unfold decimal_value in *; lia]);
      exfalso; unfold is_digit in Hc; vm_compute in Hc; discriminate. }
  exact Hgoal.
Qed.

End ConstantProofs.

Section ExpandProofs.

Variable table : JsObject.

Hypothesis Hkeys : NoDup (map fst table).
Hypothesis Hnames : NoDup (map snd table).
Hypothesis Hentries : forallb (names_a_number (map fst table)) table = true.

Lemma table_entry key v :
  obj_get table key = Some v ->
  numeral_key key = true /\
  exists name, v = JString name /\ name <> "__proto__"%string /\ obj_get table name = None.
Proof.
  intros Hget. apply obj_get_elem in Hget.
  rewrite forallb_forall in Hentries.
  specialize (Hentries (key, v) (proj1 (list_elem_of_In _ _) Hget)).
  unfold names_a_number in Hentries. simpl in Hentries.
  apply andb_true_iff in Hentries as [Hnum Hval]. split; [exact Hnum|].
  destruct v as [name| |]; try discriminate. exists name. split; [reflexivity|].
  apply andb_true_iff in Hval as [Hval Hproto].
  split; [apply negb_true_iff, String.eqb_neq in Hproto; exact Hproto|].
  destruct (obj_get table name) as [v'|] eqn:Hn; [|reflexivity].
  exfalso. apply obj_get_elem in Hn. apply negb_true_iff in Hval.
  assert (Hex : existsb (String.eqb name) (map fst table) = true).
  { apply existsb_exists. exists name. split; [|apply String.eqb_refl].
    apply in_map_iff. exists (name, v'). split; [reflexivity|].
    apply list_elem_of_In. exact Hn. }
  congruence.
Qed.

Lemma table_names_inj k k' name :
  obj_get table k = Some (JString name) -> obj_get table k' = Some (JString name) -> k = k'.
Proof.
  intros H1 H2. apply obj_get_elem in H1, H2.
  clear Hentries Hkeys. induction table as [|[k0 v0] rest IH].
  - apply elem_of_nil in H1. contradiction.
  - simpl in Hnames. apply NoDup_cons in Hnames as [Hv Hnd].
    assert (Hin : forall k1, (k1, JString name) ∈ rest -> JString name ∈ map snd rest).
    { intros k1 Hk1. apply list_elem_of_In, in_map_iff. exists (k1, JString name).
      split; [reflexivity|]. apply list_elem_of_In. exact Hk1. }
    apply elem_of_cons in H1 as [[= ? ?]|H1]; apply elem_of_cons in H2 as [[= ? ?]|H2];
      subst.
    + reflexivity.
    + exfalso. apply Hv. apply (Hin k'). exact H2.
    + exfalso. apply Hv. apply (Hin k). exact H1.
    + apply IH; assumption.
Qed.

Local Abbreviation expanded_over := (expanded_over table).

Lemma expand_steps keys : forall done o,
  (forall k, k ∈ keys -> is_Some (obj_get table k)) ->
  expanded_over done o ->
  exists o', fold_left expand_step keys (Some o) = Some o' /\
             expanded_over (done ++ keys) o'.
Proof.
  induction keys as [|k keys IH]; intros done o Hin Hinv.
  - exists o. rewrite app_nil_r. split; [reflexivity | exact Hinv].
  - destruct (Hin k ltac:(left)) as [v Hv].
    destruct (table_entry k v Hv) as (Hnum & name & -> & Hproto & Hfree).
    destruct Hinv as (Hkeep & Hrev & Honly).
    simpl. rewrite (Hkeep k _ Hv). simpl. rewrite (parseInt10_numeral k Hnum).
    destruct (IH (done ++ [k]) (obj_set o name (JNumber (decimal_value k)))) as (o' & Hfold & Hinv').
    { intros k' Hk'. apply Hin. right. exact Hk'. }
    { split; [|split].
      - intros key v Hget. rewrite obj_get_set by exact Hproto.
        destruct (String.eqb_spec name key) as [->|_]; [congruence|]. apply Hkeep. exact Hget.
      - intros k' name' Hk' Hget'. rewrite obj_get_set by exact Hproto.
        destruct (String.eqb_spec name name') as [<-|Hne].
        + rewrite (table_names_inj k k' name Hv Hget'). reflexivity.
        + apply elem_of_app in Hk' as [Hk'|Hk'].
          * apply Hrev; assumption.
          * apply list_elem_of_singleton in Hk'. subst k'. congruence.
      - intros key Hsome. rewrite obj_get_set in Hsome by exact Hproto.
        destruct (String.eqb_spec name key) as [Heq|_].
        + subst key. right. exists k. split; [apply elem_of_app; right; left | exact Hv].
        + destruct (Honly key Hsome) as [Ht|(k' & Hk' & Hget')]; [left; exact Ht|].
          right. exists k'. split; [apply elem_of_app; left; exact Hk' | exact Hget']. }
    exists o'. split; [exact Hfold|]. rewrite <- app_assoc in Hinv'. exact Hinv'.
Qed.

Lemma expandConstantObject_table :
  exists expanded,
    expandConstantObject table = Some expanded /\
    (forall key name, obj_get table key = Some (JString name) ->
       obj_get expanded key = Some (JString name) /\
       obj_get expanded name = Some (JNumber (decimal_value key))) /\
    (forall key, is_Some (obj_get expanded key) ->
       is_Some (obj_get table key) \/ exists k, obj_get table k = Some (JString key)).
Proof.
  assert (Hall : forall k, k ∈ own_keys table <-> is_Some (obj_get table k)).
  { intros k. rewrite own_keys_spec. split.
    - intros Hk. apply list_elem_of_In, in_map_iff in Hk as ([k' v] & <- & Hin).
      exists v. apply obj_get_NoDup; [exact Hkeys | apply list_elem_of_In; exact Hin].
    - intros [v Hv]. apply obj_get_elem in Hv. apply list_elem_of_In, in_map_iff.
      exists (k, v). split; [reflexivity | apply list_elem_of_In; exact Hv]. }
  destruct (expand_steps (own_keys table) [] table) as (o' & Hfold & Hkeep & Hrev & Honly).
  { intros k Hk. apply Hall. exact Hk. }
  { split; [auto|]. split.
    - intros k name Hk. apply elem_of_nil in Hk. contradiction.
    - intros key Hsome. left. exact Hsome. }
  exists o'. split; [exact Hfold|]. split.
  - intros key name Hget. split; [apply Hkeep; exact Hget|].
    apply (Hrev key name); [|exact Hget]. simpl. apply Hall. eauto.
  - intros key Hsome. destruct (Honly key Hsome) as [Ht|(k & _ & Hk)]; eauto.
Qed.

End ExpandProofs.

(** X30: [expandConstantObject] adds the reverse entries and nothing else: for
    an object whose keys are numerals and whose values are distinct
    strings, none of them a key and none ['__proto__'], every entry
    stays, every name comes to hold the number of its key, and no other
    property appears. So a name looked up gives the code, and the code
    gives the name back. *)
Theorem expandConstantObject_adds_reverse_entries (table : JsObject) :
  NoDup (map fst table) -> NoDup (map snd table) ->
  forallb (names_a_number (map fst table)) table = true ->
  exists expanded,
    expandConstantObject table = Some expanded /\
    (forall key name, obj_get table key = Some (JString name) ->
       obj_get expanded key = Some (JString name) /\
       obj_get expanded name = Some (JNumber (decimal_value key))) /\
    (forall key, is_Some (obj_get expanded key) ->
       is_Some (obj_get table key) \/ exists k, obj_get table k = Some (JString key)).
Proof. intros Hk Hn He. exact (expandConstantObject_table table Hk Hn He). Qed.

Lemma expandConstantObject_adds_reverse_entries_witness :
  exists expanded,
    expandConstantObject UsmStats_literal = Some expanded /\
    (forall key name, obj_get UsmStats_literal key = Some (JString name) ->
       obj_get expanded key = Some (JString name) /\
       obj_get expanded name = Some (JNumber (decimal_value key))) /\
    (forall key, is_Some (obj_get expanded key) ->
       is_Some (obj_get UsmStats_literal key)
       \/ exists k, obj_get UsmStats_literal k = Some (JString key)).
Proof.
  apply (expandConstantObject_adds_reverse_entries UsmStats_literal).
  - apply (bool_decide_unpack _). vm_compute. exact I.
  - apply (bool_decide_unpack _). vm_compute. exact I.
  - vm_compute. reflexivity.
Defined.

(** A name ['__proto__'] gets no reverse entry. *)
Example expandConstantObject_drops_proto :
  expandConstantObject [("1"%string, JString "__proto__"); ("2"%string, JString "two")]
  = Some [("1"%string, JString "__proto__"); ("2"%string, JString "two");
          ("two"%string, JNumber 2)].
Proof. vm_compute. reflexivity. Qed.

(** ** Making a session *)

(** X28: Whatever the options, a session the constructor makes has a backoff
    factor of at least 1, a timeout other than 0 and ports other than 0;
    0 retries asked for are kept (only absent retries become 1), while a
    timeout or port of 0 is replaced by 5000, 161 and 162. *)
Theorem Session_constructor_defaults (authenticator : option string) (options : Options) :
  (1 <= session_backoff (settings (Session_constructor authenticator options)))%Q /\
  ~ (session_timeout (settings (Session_constructor authenticator options)) == 0)%Q /\
  session_port (settings (Session_constructor authenticator options)) <> 0 /\
  session_trapPort (settings (Session_constructor authenticator options)) <> 0 /\
  session_retries (settings (Session_constructor authenticator options))
  = default 1 (opt_retries options) /\
  (opt_timeout options = Some 0%Q ->
   session_timeout (settings (Session_constructor authenticator options)) = (5000 # 1)%Q) /\
  (opt_port options = Some 0 ->
   session_port (settings (Session_constructor authenticator options)) = 161) /\
  (opt_trapPort options = Some 0 ->
   session_trapPort (settings (Session_constructor authenticator options)) = 162).
Proof.
  unfold Session_constructor. simpl.
  assert (Hnz : forall n d, d <> 0 -> default d (nonzero n) <> 0).
  { intros [v|] d Hd; simpl; [|exact Hd].
    destruct (Z.eqb_spec v 0); simpl; [exact Hd | assumption]. }
  split; [|split; [|split; [|split; [|split; [|split; [|split]]]]]].
  - destruct (opt_backoff options) as [b|]; [|apply Qle_refl].
    destruct (Qle_bool 1 b) eqn:Hb; [apply Qle_bool_imp_le; exact Hb | apply Qle_refl].
  - destruct (opt_timeout options) as [t|]; simpl; [|discriminate].
    destruct (Qeq_bool t 0) eqn:Ht; simpl; [discriminate|].
    intros H. apply Qeq_bool_iff in H. congruence.
  - apply Hnz. discriminate.
  - apply Hnz. discriminate.
  - destruct (opt_retries options); reflexivity.
  - intros ->. reflexivity.
  - intros ->. reflexivity.
  - intros ->. reflexivity.
Qed.

(** X29: [Session.create] gives a session of version 1 or 2c with a community
    that is not empty ('public' when none is given), or throws; and
    [Session.createV3] gives a session of version 3, or throws. When the
    options name a version other than 0 that is not one it makes, each
    throws its version error, before the constructor runs; otherwise it
    throws what a call of the constructor throws, and nothing else. So
    [createV3] makes a version 3 session when the options ask for
    Version1, which is 0, and the constructor goes through. *)
Theorem create_fixes_the_version
    (thrown : option Error) (authenticator : option string) (options : option Options) :
  (forall made, create thrown authenticator options = inr made ->
     (session_version (settings made) = Version1 \/
      session_version (settings made) = Version2c) /\
     session_user (settings made) = None /\
     exists community, session_community (settings made) = Some community /\
                       community <> EmptyString) /\
  (forall made, createV3 thrown authenticator options = inr made ->
     session_version (settings made) = Version3 /\
     session_user (settings made) = authenticator /\
     session_community (settings made) = None) /\
  ((exists o v, options = Some o /\ opt_version o = Some v /\
                v <> 0 /\ v <> Version1 /\ v <> Version2c) ->
   exists text, create thrown authenticator options
                = inl (ResponseInvalidError text (Some ResponseInvalidCode.EVersionNoMatch))) /\
  ((exists o v, options = Some o /\ opt_version o = Some v /\ v <> 0 /\ v <> Version3) ->
   createV3 thrown authenticator options
   = inl (ResponseInvalidError
            "SNMP v3 session requested but a different version was specified in options"
            (Some ResponseInvalidCode.EVersionNoMatch))) /\
  ((exists e, create thrown authenticator options = inl e)
   <-> (exists o v, options = Some o /\ opt_version o = Some v /\
                    v <> 0 /\ v <> Version1 /\ v <> Version2c)
       \/ is_Some thrown) /\
  ((exists e, createV3 thrown authenticator options = inl e)
   <-> (exists o v, options = Some o /\ opt_version o = Some v /\ v <> 0 /\ v <> Version3)
       \/ is_Some thrown) /\
  (forall o, opt_version o = Some Version1 ->
     match thrown with
     | Some e => createV3 thrown authenticator (Some o) = inl e
     | None =>
         exists made, createV3 thrown authenticator (Some o) = inr made /\
                      session_version (settings made) = Version3
     end).
Proof.
  assert (Hcommunity : exists community,
            Some (default "public"%string (truthy authenticator)) = Some community /\
            community <> EmptyString).
  { eexists. split; [reflexivity|]. destruct authenticator as [a|]; simpl; [|discriminate].
    destruct (String.eqb_spec a EmptyString); simpl; [discriminate | assumption]. }
  assert (Hcreate :
    (exists o v, options = Some o /\ opt_version o = Some v /\
                 v <> 0 /\ v <> Version1 /\ v <> Version2c) /\
    (exists text, create thrown authenticator options
                  = inl (ResponseInvalidError text (Some ResponseInvalidCode.EVersionNoMatch)))
    \/
    ~ (exists o v, options = Some o /\ opt_version o = Some v /\
                   v <> 0 /\ v <> Version1 /\ v <> Version2c) /\
    exists version,
      (version = Version1 \/ version = Version2c) /\
      create thrown authenticator options
      = construct thrown authenticator (with_version version (default no_options options))).
  { unfold create. destruct options as [o|]; simpl.
    - destruct (opt_version o) as [v|] eqn:Hv; simpl.
      + destruct (Z.eqb_spec v 0) as [->|Hv0]; simpl.
        * right. split; [|exists Version1; auto].
          intros (o' & v' & [= <-] & Hv' & H0 & _). congruence.
        * destruct (Z.eqb_spec v Version1) as [->|Hv1]; simpl.
          -- right. split; [|exists Version1; auto].
             intros (o' & v' & [= <-] & Hv' & _ & H1 & _). congruence.
          -- destruct (Z.eqb_spec v Version2c) as [->|Hv2]; simpl.
             ++ right. split; [|exists Version2c; auto].
                intros (o' & v' & [= <-] & Hv' & _ & _ & H2). congruence.
             ++ left. split; [exists o, v; auto | eexists; reflexivity].
      + right. split; [|exists Version1; auto].
        intros (o' & v' & [= <-] & Hv' & _). congruence.
    - right. split; [|exists Version1; auto].
      intros (o' & v' & Ho & _). discriminate. }
  assert (HcreateV3 :
    (exists o v, options = Some o /\ opt_version o = Some v /\ v <> 0 /\ v <> Version3) /\
    createV3 thrown authenticator options
    = inl (ResponseInvalidError
             "SNMP v3 session requested but a different version was specified in options"
             (Some ResponseInvalidCode.EVersionNoMatch))
    \/
    ~ (exists o v, options = Some o /\ opt_version o = Some v /\ v <> 0 /\ v <> Version3) /\
    createV3 thrown authenticator options
    = construct thrown authenticator (with_version Version3 (default no_options options))).
  { unfold createV3. destruct options as [o|]; simpl.
    - destruct (opt_version o) as [v|] eqn:Hv; simpl.
      + destruct (Z.eqb_spec v 0) as [->|Hv0]; simpl.
        * right. split; [|reflexivity].
          intros (o' & v' & [= <-] & Hv' & H0 & _). congruence.
        * destruct (Z.eqb_spec v Version3) as [->|Hv3]; simpl.
          -- right. split; [|reflexivity].
             intros (o' & v' & [= <-] & Hv' & _ & H3). congruence.
          -- left. split; [exists o, v; auto | reflexivity].
      + right. split; [|reflexivity].
        intros (o' & v' & [= <-] & Hv' & _). congruence.
    - right. split; [|reflexivity].
      intros (o' & v' & Ho & _). discriminate. }
  split; [|split; [|split; [|split; [|split; [|split]]]]].
  - intros made Hmade.
    destruct Hcreate as [(_ & text & Hbad)|(_ & version & Hversion & Hgood)]; [congruence|].
    rewrite Hgood in Hmade. unfold construct in Hmade.
    destruct thrown; [discriminate|]. injection Hmade as <-. simpl.
    destruct Hversion as [-> | ->]; simpl; auto.
  - intros made Hmade.
    destruct HcreateV3 as [(_ & Hbad)|(_ & Hgood)]; [congruence|].
    rewrite Hgood in Hmade. unfold construct in Hmade.
    destruct thrown; [discriminate|]. injection Hmade as <-. simpl. auto.
  - intros Hbad. destruct Hcreate as [(_ & Hthrows)|(Hno & _)]; [exact Hthrows | contradiction].
  - intros Hbad. destruct HcreateV3 as [(_ & Hthrows)|(Hno & _)]; [exact Hthrows | contradiction].
  - destruct Hcreate as [(Hbad & text & Hthrows)|(Hno & version & _ & Hgood)].
    + split; [intros _; left; exact Hbad | intros _; eexists; exact Hthrows].
    + rewrite Hgood. unfold construct. destruct thrown as [e|].
      * split; [intros _; right; eauto | intros _; eauto].
      * split; [intros [e He]; discriminate|].
        intros [Hbad|[e He]]; [contradiction | discriminate].
  - destruct HcreateV3 as [(Hbad & Hthrows)|(Hno & Hgood)].
    + split; [intros _; left; exact Hbad | intros _; eexists; exact Hthrows].
    + rewrite Hgood. unfold construct. destruct thrown as [e|].
      * split; [intros _; right; eauto | intros _; eauto].
      * split; [intros [e He]; discriminate|].
        intros [Hbad|[e He]]; [contradiction | discriminate].
  - intros o Hv. unfold createV3. simpl. rewrite Hv. simpl. unfold construct.
    destruct thrown as [e|]; [reflexivity|].
    eexists. split; reflexivity.
Qed.
